(** * Gamemaster scheduling app: sessions, RSVP upsert and per-game listings

    A shallow embedding of the Go packages [models], [database] and
    [handlers] of gamemaster-scheduling-app, and the properties of the
    session registry, the RSVP upsert, the two per-game listings, chat
    posting, login and registration; then the pages, the router of
    [main] and the integrity of the store.

    Conventions.
    - Go [string] is a byte string: Rocq [string].  [int64] identifiers and
      timestamps are [Z]; no arithmetic on them can overflow here.
    - A [time.Time] read back from SQLite is the number of seconds that
      [CURRENT_TIMESTAMP] denotes: the engine produces
      [YYYY-MM-DD HH:MM:SS], so one second is the resolution of every
      stored timestamp.  Each statement that mentions [CURRENT_TIMESTAMP]
      takes the reading [now] of the clock as an argument.
    - [*sql.DB] is the value of the four tables, rows in rowid order.  The
      engine is taken to be available: the only errors of a statement are
      the ones its data decides ([sql.ErrNoRows], a violated constraint).
      Foreign keys are declared in the schema but the connection never
      switches their enforcement on, so they are not checked.
    - The package-level variable [SessionStore] is threaded through the
      handlers together with the database. *)

From Stdlib Require Import ZArith List String Ascii Bool Lia Permutation Sorted.
From stdpp Require Import gmap strings list.

Local Open Scope string_scope.
Local Open Scope Z_scope.
Local Open Scope list_scope.

(** ** The parts of Go's [strings] and [strconv] the handlers call *)

Module gostrings.

Definition HasPrefix (s prefix : string) : bool := String.prefix prefix s.

Definition HasSuffix (s suffix : string) : bool :=
  (String.length suffix <=? String.length s)%nat &&
  String.eqb
    (substring (String.length s - String.length suffix) (String.length suffix) s)
    suffix.

Definition TrimPrefix (s prefix : string) : string :=
  if HasPrefix s prefix
  then substring (String.length prefix) (String.length s - String.length prefix) s
  else s.

Definition TrimSuffix (s suffix : string) : string :=
  if HasSuffix s suffix
  then substring 0 (String.length s - String.length suffix) s
  else s.

(** [Split s sep] for a non-empty [sep] (the handlers split on "/"):
    [skip] counts the bytes of a separator still to be passed over and
    [cur] is the piece read so far. *)
Fixpoint Split_from (sep : string) (skip : nat) (cur s : string) : list string :=
  match s with
  | EmptyString => [cur]
  | String c s' =>
      match skip with
      | S k => Split_from sep k cur s'
      | O =>
          if String.prefix sep s
          then cur :: Split_from sep (String.length sep - 1) "" s'
          else Split_from sep 0 (cur +:+ String c "") s'
      end
  end.

Definition Split (s sep : string) : list string := Split_from sep 0 "" s.

Definition string_of_codes (l : list N) : string :=
  string_of_list_ascii (map ascii_of_N l).

(** The UTF-8 encodings of the runes for which [unicode.IsSpace] holds:
    tab to carriage return, space, U+0085, U+00A0, U+1680,
    U+2000..U+200A, U+2028, U+2029, U+202F, U+205F, U+3000. *)
Definition White_Space : list string :=
  map string_of_codes
    [ [9]; [10]; [11]; [12]; [13]; [32]; [194; 133]; [194; 160];
      [225; 154; 128];
      [226; 128; 128]; [226; 128; 129]; [226; 128; 130]; [226; 128; 131];
      [226; 128; 132]; [226; 128; 133]; [226; 128; 134]; [226; 128; 135];
      [226; 128; 136]; [226; 128; 137]; [226; 128; 138];
      [226; 128; 168]; [226; 128; 169]; [226; 128; 175];
      [226; 129; 159]; [227; 128; 128] ]%N.

Definition leadingSpace (s : string) : option string :=
  match List.find (HasPrefix s) White_Space with
  | Some w => Some (TrimPrefix s w)
  | None => None
  end.

Definition trailingSpace (s : string) : option string :=
  match List.find (HasSuffix s) White_Space with
  | Some w => Some (TrimSuffix s w)
  | None => None
  end.

Fixpoint TrimLeftSpace (fuel : nat) (s : string) : string :=
  match fuel with
  | O => s
  | S f => match leadingSpace s with
           | Some s' => TrimLeftSpace f s'
           | None => s
           end
  end.

Fixpoint TrimRightSpace (fuel : nat) (s : string) : string :=
  match fuel with
  | O => s
  | S f => match trailingSpace s with
           | Some s' => TrimRightSpace f s'
           | None => s
           end
  end.

(** Every white-space rune takes at least one byte, so the length of the
    string bounds the number of runes to remove. *)
Definition TrimSpace (s : string) : string :=
  let s1 := TrimLeftSpace (String.length s) s in
  TrimRightSpace (String.length s1) s1.

End gostrings.

Module strconv.

Definition digit (c : ascii) : option Z :=
  let n := Z.of_N (N_of_ascii c) in
  if (48 <=? n) && (n <=? 57) then Some (n - 48) else None.

Fixpoint digits (s : string) (acc : Z) : option Z :=
  match s with
  | EmptyString => Some acc
  | String c s' =>
      match digit c with
      | Some d => digits s' (10 * acc + d)
      | None => None
      end
  end.

Definition unsigned (s : string) : option Z :=
  match s with
  | EmptyString => None
  | _ => digits s 0
  end.

(** [ParseInt(s, 10, 64)]: [None] stands for a non-nil error, a syntax
    error or a value outside [-2^63, 2^63). *)
Definition ParseInt (s : string) : option Z :=
  match s with
  | EmptyString => None
  | String c s' =>
      if Ascii.eqb c "+"%char then
        match unsigned s' with
        | Some un => if un <? 2 ^ 63 then Some un else None
        | None => None
        end
      else if Ascii.eqb c "-"%char then
        match unsigned s' with
        | Some un => if un <=? 2 ^ 63 then Some (- un) else None
        | None => None
        end
      else
        match unsigned s with
        | Some un => if un <? 2 ^ 63 then Some un else None
        | None => None
        end
  end.

End strconv.

(** ** Package [models] *)

Module models.

Definition RSVPStatusAttending : string := "attending".
Definition RSVPStatusNotAttending : string := "not_attending".
Definition RSVPStatusMaybe : string := "maybe".

Record User := mkUser {
  User_ID : Z;
  User_Email : string;
  User_PasswordHash : string;
  User_CreatedAt : Z
}.

Record Game := mkGame {
  Game_ID : Z;
  Game_GMID : Z;
  Game_Title : string;
  Game_Description : string;
  Game_GameDateTime : Z;
  Game_Location : string;
  Game_CreatedAt : Z
}.

Record RSVP := mkRSVP {
  RSVP_ID : Z;
  RSVP_UserID : Z;
  RSVP_GameID : Z;
  RSVP_Status : string;
  RSVP_CreatedAt : Z;
  RSVP_UpdatedAt : Z;
  RSVP_UserEmail : string
}.

Record ChatMessage := mkChatMessage {
  ChatMessage_ID : Z;
  ChatMessage_GameID : Z;
  ChatMessage_UserID : Z;
  ChatMessage_UserEmail : string;
  ChatMessage_MessageContent : string;
  ChatMessage_CreatedAt : Z
}.

End models.

(** ** The relational store behind [*sql.DB] *)

(** [error] values the code tells apart or prints. *)
Inductive error :=
| ErrNoRows
| ErrUniqueConstraint (columns : string)
| ErrNoCookie
| ErrInvalidSessionToken
| ErrHash.

Definition Error (e : error) : string :=
  match e with
  | ErrNoRows => "sql: no rows in result set"
  | ErrUniqueConstraint c => "UNIQUE constraint failed: " +:+ c
  | ErrNoCookie => "no session cookie: http: named cookie not present"
  | ErrInvalidSessionToken => "invalid session token"
  | ErrHash => "bcrypt: password length exceeds 72 bytes"
  end.

Inductive result (A : Type) :=
| Ok (a : A)
| Err (e : error).
Arguments Ok {A} a.
Arguments Err {A} e.

(** [golang.org/x/crypto/bcrypt] is outside the repository.  Hashing draws
    a random salt, so [GenerateFromPassword] takes it as an argument;
    [CompareHashAndPassword] answers [true] where the library returns a nil
    error. *)
Class bcrypt := {
  GenerateFromPassword : string -> string -> result string;
  CompareHashAndPassword : string -> string -> bool
}.

Module sqlite.

(** Rows of the schema's tables; the field prefixes are the aliases the
    queries use ([u], [r], [cm]). *)
Record users_row := mk_users_row {
  u_id : Z; u_email : string; u_password_hash : string; u_created_at : Z
}.

Record games_row := mk_games_row {
  g_id : Z; g_gm_id : Z; g_title : string; g_description : string;
  g_game_datetime : Z; g_location : string; g_created_at : Z
}.

Record rsvps_row := mk_rsvps_row {
  r_id : Z; r_user_id : Z; r_game_id : Z; r_status : string;
  r_created_at : Z; r_updated_at : Z
}.

Record chat_messages_row := mk_chat_messages_row {
  cm_id : Z; cm_game_id : Z; cm_user_id : Z; cm_message_content : string;
  cm_created_at : Z
}.

(** The [seq_] fields are the rows of [sqlite_sequence]: the largest
    rowid each [AUTOINCREMENT] table has ever handed out. *)
Record DB := mkDB {
  users : list users_row;
  games : list games_row;
  rsvps : list rsvps_row;
  chat_messages : list chat_messages_row;
  seq_users : Z;
  seq_games : Z;
  seq_rsvps : Z;
  seq_chat_messages : Z
}.

Definition empty : DB := mkDB [] [] [] [] 0 0 0 0.

(** [CURRENT_TIMESTAMP] at a wall-clock time given in milliseconds: the
    engine keeps whole seconds. *)
Definition CURRENT_TIMESTAMP (wall_ms : Z) : Z := wall_ms / 1000.

(** [INTEGER PRIMARY KEY AUTOINCREMENT]: one more than the largest rowid
    ever used. *)
Definition AUTOINCREMENT (seq : Z) (ids : list Z) : Z :=
  1 + fold_right Z.max seq ids.

(** [ORDER BY]: a stable insertion sort over the rows in scan order.  SQL
    leaves the order of rows with equal keys open; SQLite's sorter emits
    them in the order they were fed to it, and so does [ORDER_BY]. *)
Section ORDER_BY.
Context {A : Type} (before : A -> A -> bool).

Fixpoint place (x : A) (l : list A) : list A :=
  match l with
  | [] => [x]
  | y :: l' => if before x y then x :: l else y :: place x l'
  end.

Fixpoint ORDER_BY (l : list A) : list A :=
  match l with
  | [] => []
  | x :: l' => place x (ORDER_BY l')
  end.
End ORDER_BY.

(** [x] may come before [y] in the result. *)
Definition in_order {A : Type} (before : A -> A -> bool) (x y : A) : Prop :=
  before x y = true.

Definition ASC {A : Type} (key : A -> Z) (x y : A) : bool := key x <=? key y.
Definition DESC {A : Type} (key : A -> Z) (x y : A) : bool := key y <=? key x.

(** [FROM t JOIN users u ON t.user_id = u.id]: nested loop, [t] outside. *)
Definition JOIN_users {A : Type} (user_id : A -> Z) (t : list A) (us : list users_row)
  : list (A * users_row) :=
  flat_map (fun x => map (pair x) (List.filter (fun u => user_id x =? u_id u) us)) t.

End sqlite.

(** ** Package [database] *)

Module database.
Import models sqlite.

Definition scan_user (u : users_row) : User :=
  mkUser (u_id u) (u_email u) (u_password_hash u) (u_created_at u).

Definition scan_game (g : games_row) : Game :=
  mkGame (g_id g) (g_gm_id g) (g_title g) (g_description g)
         (g_game_datetime g) (g_location g) (g_created_at g).

Definition scan_rsvp (ru : rsvps_row * users_row) : RSVP :=
  let (r, u) := ru in
  mkRSVP (r_id r) (r_user_id r) (r_game_id r) (r_status r)
         (r_created_at r) (r_updated_at r) (u_email u).

Definition scan_chat_message (cu : chat_messages_row * users_row) : ChatMessage :=
  let (cm, u) := cu in
  mkChatMessage (cm_id cm) (cm_game_id cm) (cm_user_id cm) (u_email u)
                (cm_message_content cm) (cm_created_at cm).

(** [QueryRow(...).Scan(...)]: the first row, or [sql.ErrNoRows]. *)
Definition QueryRow {A : Type} (rows : list A) : result A :=
  match rows with
  | x :: _ => Ok x
  | [] => Err ErrNoRows
  end.

(** *** users_db.go *)

Definition GetUserByEmail (db : DB) (email : string) : result User :=
  QueryRow (map scan_user (List.filter (fun u => String.eqb (u_email u) email) (users db))).

Definition GetUserByID (db : DB) (id : Z) : result User :=
  QueryRow (map scan_user (List.filter (fun u => u_id u =? id) (users db))).

(** [INSERT INTO users(email, password_hash) VALUES(?, ?)] under
    [email TEXT UNIQUE NOT NULL]. *)
Definition INSERT_users (db : DB) (now : Z) (email hash : string) : result (DB * Z) :=
  if existsb (fun u => String.eqb (u_email u) email) (users db)
  then Err (ErrUniqueConstraint "users.email")
  else
    let id := AUTOINCREMENT (seq_users db) (map u_id (users db)) in
    Ok (mkDB (users db ++ [mk_users_row id email hash now]) (games db) (rsvps db)
             (chat_messages db) id (seq_games db) (seq_rsvps db)
             (seq_chat_messages db),
        id).

Definition CreateUser `{bcrypt} (db : DB) (now : Z) (salt email password : string)
  : DB * result User :=
  match GenerateFromPassword salt password with
  | Err e => (db, Err e)
  | Ok hashedPassword =>
      match INSERT_users db now email hashedPassword with
      | Err e => (db, Err e)
      | Ok (db', id) => (db', GetUserByID db' id)
      end
  end.

Definition VerifyPassword `{bcrypt} (hashedPassword password : string) : bool :=
  CompareHashAndPassword hashedPassword password.

(** *** games_db.go *)

Definition GetGameByID (db : DB) (id : Z) : result Game :=
  QueryRow (map scan_game (List.filter (fun g => g_id g =? id) (games db))).

Definition CreateGame (db : DB) (now : Z) (game : Game) : DB * result Game :=
  let id := AUTOINCREMENT (seq_games db) (map g_id (games db)) in
  let db' :=
    mkDB (users db)
         (games db ++ [mk_games_row id (Game_GMID game) (Game_Title game)
                         (Game_Description game) (Game_GameDateTime game)
                         (Game_Location game) now])
         (rsvps db) (chat_messages db) (seq_users db) id (seq_rsvps db)
         (seq_chat_messages db) in
  (db', GetGameByID db' id).

(** *** rsvps_db.go *)

Definition same_pair (user_id game_id : Z) (r : rsvps_row) : bool :=
  (r_user_id r =? user_id) && (r_game_id r =? game_id).

(** [ON CONFLICT(user_id, game_id) DO UPDATE SET status = excluded.status,
    updated_at = CURRENT_TIMESTAMP], applied to the conflicting row. *)
Definition DO_UPDATE (now : Z) (user_id game_id : Z) (status : string) (r : rsvps_row)
  : rsvps_row :=
  if same_pair user_id game_id r
  then mk_rsvps_row (r_id r) (r_user_id r) (r_game_id r) status (r_created_at r) now
  else r.

Definition CreateOrUpdateRSVP (db : DB) (now : Z) (rsvp : RSVP) : DB * result unit :=
  let user_id := RSVP_UserID rsvp in
  let game_id := RSVP_GameID rsvp in
  let status := RSVP_Status rsvp in
  if existsb (same_pair user_id game_id) (rsvps db)
  then
    (mkDB (users db) (games db)
          (map (DO_UPDATE now user_id game_id status) (rsvps db))
          (chat_messages db) (seq_users db) (seq_games db) (seq_rsvps db)
          (seq_chat_messages db),
     Ok tt)
  else
    let id := AUTOINCREMENT (seq_rsvps db) (map r_id (rsvps db)) in
    (mkDB (users db) (games db)
          (rsvps db ++ [mk_rsvps_row id user_id game_id status now now])
          (chat_messages db) (seq_users db) (seq_games db) id
          (seq_chat_messages db),
     Ok tt).

Definition GetRSVPsForGame (db : DB) (gameID : Z) : result (list RSVP) :=
  let joined := JOIN_users r_user_id (rsvps db) (users db) in
  let selected := List.filter (fun ru => r_game_id (fst ru) =? gameID) joined in
  let rows := ORDER_BY (DESC (fun ru => r_updated_at (fst ru))) selected in
  Ok (map scan_rsvp rows).

Definition GetRSVPByUserForGame (db : DB) (userID gameID : Z) : result RSVP :=
  let joined := JOIN_users r_user_id (rsvps db) (users db) in
  QueryRow (map scan_rsvp
              (List.filter (fun ru => same_pair userID gameID (fst ru)) joined)).

(** *** chat_db.go *)

Definition CreateChatMessage (db : DB) (now : Z) (message : ChatMessage)
  : DB * result ChatMessage :=
  let id := AUTOINCREMENT (seq_chat_messages db) (map cm_id (chat_messages db)) in
  let db' :=
    mkDB (users db) (games db) (rsvps db)
         (chat_messages db ++
            [mk_chat_messages_row id (ChatMessage_GameID message)
               (ChatMessage_UserID message) (ChatMessage_MessageContent message) now])
         (seq_users db) (seq_games db) (seq_rsvps db) id in
  let joined := JOIN_users cm_user_id (chat_messages db') (users db') in
  (db', QueryRow (map scan_chat_message
                    (List.filter (fun cu => cm_id (fst cu) =? id) joined))).

Definition GetChatMessagesForGame (db : DB) (gameID : Z) : result (list ChatMessage) :=
  let joined := JOIN_users cm_user_id (chat_messages db) (users db) in
  let selected := List.filter (fun cu => cm_game_id (fst cu) =? gameID) joined in
  let rows := ORDER_BY (ASC (fun cu => cm_created_at (fst cu))) selected in
  Ok (map scan_chat_message rows).

End database.

(** ** [net/http] as the handlers use it *)

Module http.

Definition MethodPost : string := "POST".
Definition StatusOK : Z := 200.
Definition StatusSeeOther : Z := 303.
Definition StatusBadRequest : Z := 400.
Definition StatusUnauthorized : Z := 401.
Definition StatusMethodNotAllowed : Z := 405.
Definition StatusInternalServerError : Z := 500.

Record Cookie := mkCookie {
  Name : string;
  Value : string;
  Path : string;
  Expires : Z;
  HttpOnly : bool;
  Secure : bool;
  SameSite : string
}.

(** [Form] is [None] when [r.ParseForm()] fails; otherwise the decoded
    pairs in the order they were sent. *)
Record Request := mkRequest {
  Method : string;
  URL_Path : string;
  Cookies : list (string * string);
  Form : option (list (string * string));
  TLS : bool
}.

Fixpoint lookup_first (key : string) (l : list (string * string)) : option string :=
  match l with
  | [] => None
  | (k, v) :: l' => if String.eqb k key then Some v else lookup_first key l'
  end.

(** [r.Cookie(name)]: the first cookie of that name. *)
Definition Request_Cookie (r : Request) (name : string) : result string :=
  match lookup_first name (Cookies r) with
  | Some v => Ok v
  | None => Err ErrNoCookie
  end.

Definition FormValue (form : list (string * string)) (key : string) : string :=
  match lookup_first key form with
  | Some v => v
  | None => ""
  end.

(** Values a handler puts in the [map[string]interface{}] it renders. *)
Inductive value :=
| VString (s : string)
| VInt64 (n : Z)
| VUser (u : models.User)
| VGame (g : models.Game)
| VRSVP (r : option models.RSVP)
| VRSVPs (l : list models.RSVP)
| VChatMessages (l : list models.ChatMessage).

Inductive body :=
| NoBody
| Plain (text : string)
| Rendered (name : string) (data : list (string * value)).

(** What has been written to an [http.ResponseWriter]. *)
Record Response := mkResponse {
  Header : list (string * string);
  SetCookies : list Cookie;
  StatusCode : Z;
  Body : body
}.

Definition w0 : Response := mkResponse [] [] StatusOK NoBody.

Definition Header_Set (w : Response) (k v : string) : Response :=
  mkResponse (Header w ++ [(k, v)]) (SetCookies w) (StatusCode w) (Body w).

Definition SetCookie (w : Response) (c : Cookie) : Response :=
  mkResponse (Header w) (SetCookies w ++ [c]) (StatusCode w) (Body w).

Definition Error_ (w : Response) (msg : string) (code : Z) : Response :=
  mkResponse (Header w ++ [("Content-Type", "text/plain; charset=utf-8");
                           ("X-Content-Type-Options", "nosniff")])
             (SetCookies w) code (Plain msg).

(** The short HTML note [http.Redirect] adds for GET requests is left out. *)
Definition Redirect (w : Response) (url : string) (code : Z) : Response :=
  mkResponse (Header w ++ [("Location", url)]) (SetCookies w) code NoBody.

End http.

(** ** Package [handlers] *)

Module handlers.
Import models http.

(** The database handle and the package variable [SessionStore]
    ([map[string]int64], session token to user id). *)
Record World := mkWorld {
  db : sqlite.DB;
  SessionStore : gmap string Z
}.

(** What a request draws from outside: the clock, the salt bcrypt picks,
    and [uuid.NewRandom()] ([None] when the random source fails). *)
Record Env := mkEnv {
  now : Z;
  salt : string;
  NewRandom : option string
}.

Definition sessionCookieName : string := "session_token".

(** [RenderTemplate], with the templates loaded and executing without
    error: a 200 response carrying the template name and its data. *)
Definition RenderTemplate (w : Response) (name : string) (data : list (string * value))
  : Response :=
  mkResponse (Header w) (SetCookies w) (StatusCode w) (Rendered name data).

Definition with_db (W : World) (d : sqlite.DB) : World := mkWorld d (SessionStore W).

(** *** auth_handlers.go *)

Definition Register `{bcrypt} (W : World) (env : Env) (r : Request) : World * Response :=
  if negb (String.eqb (Method r) MethodPost) then
    (W, Error_ w0 "Only POST method is allowed" StatusMethodNotAllowed)
  else
  match Form r with
  | None => (W, Error_ w0 "Error parsing form" StatusBadRequest)
  | Some form =>
    let email := FormValue form "email" in
    let password := FormValue form "password" in
    let confirmPassword := FormValue form "confirm_password" in
    if String.eqb email "" || String.eqb password "" then
      (W, RenderTemplate w0 "auth/register.html"
            [("Error", VString "Email and password are required.")])
    else if negb (String.eqb password confirmPassword) then
      (W, RenderTemplate w0 "auth/register.html"
            [("Error", VString "Passwords do not match.")])
    else
    match database.GetUserByEmail (db W) email with
    | Ok _ =>
        (W, RenderTemplate w0 "auth/register.html"
              [("Error", VString "Email already registered.")])
    | Err ErrNoRows =>
        match database.CreateUser (db W) (now env) (salt env) email password with
        | (db', Err err) =>
            (with_db W db',
             Error_ w0 ("Could not create user: " +:+ Error err) StatusInternalServerError)
        | (db', Ok _) => (with_db W db', Redirect w0 "/login" StatusSeeOther)
        end
    | Err err =>
        (W, Error_ w0 ("Database error: " +:+ Error err) StatusInternalServerError)
    end
  end.

Definition Login `{bcrypt} (W : World) (env : Env) (r : Request) : World * Response :=
  if negb (String.eqb (Method r) MethodPost) then
    (W, Error_ w0 "Only POST method is allowed" StatusMethodNotAllowed)
  else
  match Form r with
  | None => (W, Error_ w0 "Error parsing form" StatusBadRequest)
  | Some form =>
    let email := FormValue form "email" in
    let password := FormValue form "password" in
    if String.eqb email "" || String.eqb password "" then
      (W, RenderTemplate w0 "auth/login.html"
            [("Error", VString "Email and password are required.")])
    else
    match database.GetUserByEmail (db W) email with
    | Err ErrNoRows =>
        (W, RenderTemplate w0 "auth/login.html"
              [("Error", VString "Invalid email or password.")])
    | Err err =>
        (W, Error_ w0 ("Database error: " +:+ Error err) StatusInternalServerError)
    | Ok user =>
        if negb (database.VerifyPassword (User_PasswordHash user) password) then
          (W, RenderTemplate w0 "auth/login.html"
                [("Error", VString "Invalid email or password.")])
        else
        match NewRandom env with
        | None => (W, Error_ w0 "Could not create session ID" StatusInternalServerError)
        | Some sessionToken =>
            (mkWorld (db W) (<[sessionToken := User_ID user]> (SessionStore W)),
             Redirect
               (SetCookie w0
                  (mkCookie sessionCookieName sessionToken "/" (now env + 24 * 3600)
                     true (TLS r) "Lax"))
               "/games" StatusSeeOther)
        end
    end
  end.

Definition Logout (W : World) (r : Request) : World * Response :=
  match Request_Cookie r sessionCookieName with
  | Ok sessionToken =>
      (mkWorld (db W) (delete sessionToken (SessionStore W)),
       Redirect
         (SetCookie w0 (mkCookie sessionCookieName "" "/" 0 true (TLS r) "Lax"))
         "/login" StatusSeeOther)
  | Err _ => (W, Redirect w0 "/login" StatusSeeOther)
  end.

Definition IsAuthenticated (W : World) (r : Request) : bool :=
  match Request_Cookie r sessionCookieName with
  | Err _ => false
  | Ok sessionToken =>
      match SessionStore W !! sessionToken with
      | Some _ => true
      | None => false
      end
  end.

Definition AuthMiddleware (next : World -> Env -> Request -> World * Response)
  (W : World) (env : Env) (r : Request) : World * Response :=
  if negb (IsAuthenticated W r) then (W, Redirect w0 "/login" StatusSeeOther)
  else next W env r.

(** The handlers always pass the handle [InitDB] returned, so the branch
    for [db == nil] is never taken. *)
Definition GetCurrentUser (W : World) (r : Request) : result User :=
  match Request_Cookie r sessionCookieName with
  | Err _ => Err ErrNoCookie
  | Ok sessionToken =>
      match SessionStore W !! sessionToken with
      | None => Err ErrInvalidSessionToken
      | Some userID => database.GetUserByID (db W) userID
      end
  end.

(** The last element of [strings.Split(strings.TrimSuffix(path, suffix), "/")],
    the text both game handlers parse as the game id. *)
Definition gameIDStr_of (path suffix : string) : string :=
  let pathParts := gostrings.Split (gostrings.TrimSuffix path suffix) "/" in
  List.last pathParts "".

(** *** rsvp_handlers.go *)

Definition valid_status (status : string) : bool :=
  String.eqb status RSVPStatusAttending
  || String.eqb status RSVPStatusNotAttending
  || String.eqb status RSVPStatusMaybe.

Definition SubmitRSVP (W : World) (env : Env) (r : Request) : World * Response :=
  if negb (String.eqb (Method r) MethodPost) then
    (W, Error_ w0 "Only POST method is allowed" StatusMethodNotAllowed)
  else
  match GetCurrentUser W r with
  | Err _ =>
      (W, Error_ (Header_Set w0 "HX-Redirect" "/login")
            "User not authenticated" StatusUnauthorized)
  | Ok currentUser =>
    let gameIDStr := gameIDStr_of (URL_Path r) "/rsvp" in
    if String.eqb gameIDStr "" then
      (W, Error_ w0 "Game ID missing in URL path" StatusBadRequest)
    else
    match strconv.ParseInt gameIDStr with
    | None => (W, Error_ w0 "Invalid Game ID format" StatusBadRequest)
    | Some gameID =>
      match Form r with
      | None => (W, Error_ w0 "Error parsing form data" StatusBadRequest)
      | Some form =>
        let status := FormValue form "status" in
        if negb (valid_status status) then
          (W, Error_ w0 "Invalid RSVP status value" StatusBadRequest)
        else
        let rsvp := mkRSVP 0 (User_ID currentUser) gameID status 0 0 "" in
        match database.CreateOrUpdateRSVP (db W) (now env) rsvp with
        | (db', Err _) =>
            (with_db W db',
             Error_ w0 "Failed to update RSVP status. Please try again."
               StatusInternalServerError)
        | (db', Ok _) =>
          match database.GetRSVPsForGame db' gameID with
          | Err _ =>
              (with_db W db',
               Error_ w0 "Failed to refresh RSVP list." StatusInternalServerError)
          | Ok allGameRSVPs =>
            let currentUserRSVP :=
              match database.GetRSVPByUserForGame db' (User_ID currentUser) gameID with
              | Ok x => Some x
              | Err _ => None
              end in
            match database.GetGameByID db' gameID with
            | Err _ =>
                (with_db W db',
                 Error_ w0 "Failed to load game context for RSVP."
                   StatusInternalServerError)
            | Ok game =>
                (with_db W db',
                 RenderTemplate w0 "games/_rsvp_section.html"
                   [("Game", VGame game);
                    ("User", VUser currentUser);
                    ("CurrentUserRSVP", VRSVP currentUserRSVP);
                    ("AllGameRSVPs", VRSVPs allGameRSVPs)])
            end
          end
        end
      end
    end
  end.

(** *** chat_handlers.go *)

Definition PostChatMessage (W : World) (env : Env) (r : Request) : World * Response :=
  if negb (String.eqb (Method r) MethodPost) then
    (W, Error_ w0 "Only POST method is allowed" StatusMethodNotAllowed)
  else
  match GetCurrentUser W r with
  | Err _ =>
      (W, Error_ (Header_Set w0 "HX-Redirect" "/login")
            "User not authenticated" StatusUnauthorized)
  | Ok currentUser =>
    let gameIDStr := gameIDStr_of (URL_Path r) "/chat" in
    if String.eqb gameIDStr "" then
      (W, Error_ w0 "Game ID missing in URL path" StatusBadRequest)
    else
    match strconv.ParseInt gameIDStr with
    | None => (W, Error_ w0 "Invalid Game ID format" StatusBadRequest)
    | Some gameID =>
      match Form r with
      | None => (W, Error_ w0 "Error parsing form data" StatusBadRequest)
      | Some form =>
        let messageContent := FormValue form "message_content" in
        if String.eqb (gostrings.TrimSpace messageContent) "" then
          match database.GetChatMessagesForGame (db W) gameID with
          | Err _ =>
              (W, Error_ w0 "Failed to refresh chat messages after validation error."
                    StatusInternalServerError)
          | Ok chatMessages =>
              (W, RenderTemplate w0 "games/_chat_messages.html"
                    [("ChatMessages", VChatMessages chatMessages);
                     ("GameID", VInt64 gameID);
                     ("User", VUser currentUser);
                     ("Error", VString "Message content cannot be empty.")])
          end
        else
        let chatMessage :=
          mkChatMessage 0 gameID (User_ID currentUser) (User_Email currentUser)
            messageContent 0 in
        match database.CreateChatMessage (db W) (now env) chatMessage with
        | (db', Err _) =>
            (with_db W db',
             Error_ w0 "Failed to post message. Please try again."
               StatusInternalServerError)
        | (db', Ok _) =>
          match database.GetChatMessagesForGame db' gameID with
          | Err _ =>
              (with_db W db',
               Error_ w0 "Failed to refresh chat messages." StatusInternalServerError)
          | Ok updatedChatMessages =>
              (with_db W db',
               RenderTemplate w0 "games/_chat_messages.html"
                 [("ChatMessages", VChatMessages updatedChatMessages);
                  ("GameID", VInt64 gameID);
                  ("User", VUser currentUser)])
          end
        end
      end
    end
  end.

End handlers.

(** ** The accesses to [SessionStore] of requests in flight *)

Module registry.
Import http handlers.

(** What one request does to [SessionStore], in program order, and the
    operations of a [sync.Mutex] that could guard it.  The package has no
    mutex: the accesses of the four functions below are all there is. *)

Inductive op :=
| Lock
| Unlock
| Read (token : string)
| Write (token : string) (userID : Z)
| Delete (token : string).

(** An access to the map, as opposed to a lock operation. *)
Definition is_access (o : op) : bool :=
  match o with
  | Lock | Unlock => false
  | _ => true
  end.

Definition is_write (o : op) : bool :=
  match o with
  | Write _ _ | Delete _ => true
  | _ => false
  end.

(** Two accesses to one Go map conflict when either of them writes. *)
Definition conflict (a b : op) : bool :=
  is_access a && is_access b && (is_write a || is_write b).

(** The effect of the accesses when nothing runs in between. *)
Definition run_op (m : gmap string Z) (o : op) : gmap string Z :=
  match o with
  | Write token userID => <[token := userID]> m
  | Delete token => delete token m
  | _ => m
  end.

Definition run (ops : list op) (m : gmap string Z) : gmap string Z :=
  fold_left run_op ops m.

(** [SessionStore[sessionToken] = user.ID] in [Login],
    [delete(SessionStore, sessionToken)] in [Logout], and the lookups
    [SessionStore[sessionToken]] in [IsAuthenticated] and [GetCurrentUser]. *)
Definition Login_accesses (sessionToken : string) (userID : Z) : list op :=
  [Write sessionToken userID].
Definition Logout_accesses (sessionToken : string) : list op :=
  [Delete sessionToken].
Definition IsAuthenticated_accesses (sessionToken : string) : list op :=
  [Read sessionToken].
Definition GetCurrentUser_accesses (sessionToken : string) : list op :=
  [Read sessionToken].

Inductive handler_accesses : list op -> Prop :=
| accesses_Login t u : handler_accesses (Login_accesses t u)
| accesses_Logout t : handler_accesses (Logout_accesses t)
| accesses_IsAuthenticated t : handler_accesses (IsAuthenticated_accesses t)
| accesses_GetCurrentUser t : handler_accesses (GetCurrentUser_accesses t).

(** Requests in flight: the code each has left to run, and who holds the
    mutex.  A lock operation waits for the mutex; an access to the map
    waits for nothing. *)
Record state := mkState {
  holder : option nat;
  threads : list (list op)
}.

Definition init (pool : list (list op)) : state := mkState None pool.

Inductive step : state -> state -> Prop :=
| step_Lock h ts i rest :
    ts !! i = Some (Lock :: rest) -> h = None ->
    step (mkState h ts) (mkState (Some i) (<[i := rest]> ts))
| step_Unlock h ts i rest :
    ts !! i = Some (Unlock :: rest) -> h = Some i ->
    step (mkState h ts) (mkState None (<[i := rest]> ts))
| step_access h ts i o rest :
    ts !! i = Some (o :: rest) -> is_access o = true ->
    step (mkState h ts) (mkState h (<[i := rest]> ts)).

(** A data race: two requests are both about to access the map, and the
    accesses conflict. *)
Definition racing (s : state) : Prop :=
  exists i j a b ra rb,
    i <> j /\
    threads s !! i = Some (a :: ra) /\
    threads s !! j = Some (b :: rb) /\
    conflict a b = true.

Definition race_free (pool : list (list op)) : Prop :=
  forall s, rtc step (init pool) s -> ~ racing s.

(** The code touches the map only between [Lock] and [Unlock]. *)
Fixpoint well_locked (held : bool) (t : list op) : bool :=
  match t with
  | [] => negb held
  | Lock :: t' => negb held && well_locked true t'
  | Unlock :: t' => held && well_locked false t'
  | _ :: t' => held && well_locked true t'
  end.

(** The same accesses inside a critical section. *)
Definition with_Mutex (accesses : list op) : list op :=
  match accesses with
  | [] => []
  | _ => Lock :: accesses ++ [Unlock]
  end.

(** Every thread's remaining code is bracketed correctly for whether it
    holds the lock now. *)
Definition lock_invariant (s : state) : Prop :=
  forall i t, threads s !! i = Some t ->
              well_locked (bool_decide (holder s = Some i)) t = true.

End registry.

(** ** The constraints of schema.sql, as predicates on the store *)

Module schema.
Import sqlite.

(** [UNIQUE (user_id, game_id)] on [rsvps]. *)
Definition UNIQUE_rsvps (db : DB) : Prop :=
  NoDup (map (fun r => (r_user_id r, r_game_id r)) (rsvps db)).

(** [email TEXT UNIQUE] on [users]. *)
Definition UNIQUE_users_email (db : DB) : Prop :=
  NoDup (map u_email (users db)).

(** [FOREIGN KEY (user_id) REFERENCES users(id)] on [rsvps] and on
    [chat_messages], together with the primary key of [users]: every
    such row names exactly one user. *)
Definition one_user (us : list users_row) (user_id : Z) : Prop :=
  exists u, List.filter (fun u => user_id =? u_id u) us = [u].

Definition FOREIGN_KEY_rsvps_user (db : DB) : Prop :=
  Forall (fun r => one_user (users db) (r_user_id r)) (rsvps db).

Definition FOREIGN_KEY_chat_messages_user (db : DB) : Prop :=
  Forall (fun cm => one_user (users db) (cm_user_id cm)) (chat_messages db).

Definition rsvps_of_pair (db : DB) (user_id game_id : Z) : list rsvps_row :=
  List.filter (database.same_pair user_id game_id) (rsvps db).

Definition rsvps_of_game (db : DB) (game_id : Z) : list rsvps_row :=
  List.filter (fun r => r_game_id r =? game_id) (rsvps db).

Definition chat_messages_of_game (db : DB) (game_id : Z) : list chat_messages_row :=
  List.filter (fun cm => cm_game_id cm =? game_id) (chat_messages db).

Definition users_with_email (db : DB) (email : string) : list users_row :=
  List.filter (fun u => String.eqb (u_email u) email) (users db).

(** The stored row a scanned struct came from. *)
Definition RSVP_row (x : models.RSVP) : rsvps_row :=
  mk_rsvps_row (models.RSVP_ID x) (models.RSVP_UserID x) (models.RSVP_GameID x)
    (models.RSVP_Status x) (models.RSVP_CreatedAt x) (models.RSVP_UpdatedAt x).

Definition ChatMessage_row (x : models.ChatMessage) : chat_messages_row :=
  mk_chat_messages_row (models.ChatMessage_ID x) (models.ChatMessage_GameID x)
    (models.ChatMessage_UserID x) (models.ChatMessage_MessageContent x)
    (models.ChatMessage_CreatedAt x).

(** The email of the submitter, as the [users] table has it. *)
Definition email_of (db : DB) (user_id : Z) (email : string) : Prop :=
  exists u, In u (users db) /\ u_id u = user_id /\ u_email u = email.

End schema.

(** ** Sample data *)

Module sample.
Import models sqlite http handlers.

(** A stand-in for bcrypt with the library's interface: the hash is the
    salt, a separator and the password; passwords over 72 bytes are
    refused. *)
Definition toy_bcrypt : bcrypt :=
  {| GenerateFromPassword salt password :=
       if (72 <? String.length password)%nat then Err ErrHash
       else Ok (salt +:+ "$" +:+ password);
     CompareHashAndPassword hashedPassword password :=
       gostrings.HasSuffix hashedPassword ("$" +:+ password) |}.

(** The store of [TestGetRSVPsForGame] before any RSVP: three users, a
    game master and one game. *)
Definition db_rsvplist : DB :=
  mkDB [ mk_users_row 1 "user1@rsvplist.com" "s1$pass1" 4;
         mk_users_row 2 "user2@rsvplist.com" "s2$pass2" 4;
         mk_users_row 3 "user3@rsvplist.com" "s3$pass3" 4;
         mk_users_row 4 "gmrsvplist@example.com" "s4$gmpass" 4 ]
       [ mk_games_row 1 4 "Multi-RSVP Game" "" 86404 "Test Location" 4 ]
       [] [] 4 1 0 0.

(** The store of [TestCreateChatMessageAndGet] after its two messages. *)
Definition db_chat : DB :=
  mkDB [ mk_users_row 1 "chatuser1@example.com" "s1$pass1" 4;
         mk_users_row 2 "chatuser2@example.com" "s2$pass2" 4;
         mk_users_row 3 "gmchat@example.com" "s3$gmpass" 4 ]
       [ mk_games_row 1 3 "Chat Test Game" "" 86404 "Test Location for Chat" 4 ]
       []
       [ mk_chat_messages_row 1 1 1 "Hello world from user1!" 5;
         mk_chat_messages_row 2 1 2 "Hello back from user2!" 5 ]
       3 1 0 2.

(** One RSVP written at wall-clock time [wall_ms] (milliseconds). *)
Definition submit (db : DB) (wall_ms user game : Z) (status : string) : DB :=
  fst (database.CreateOrUpdateRSVP db (CURRENT_TIMESTAMP wall_ms)
         (mkRSVP 0 user game status 0 0 "")).

(** One registered user and one game; nobody is logged in. *)
Definition W_registered : World :=
  mkWorld
    (mkDB [ mk_users_row 1 "a@x.com" "s1$pw1" 10 ]
          [ mk_games_row 1 1 "Session 1" "" 90000 "table 4" 20 ]
          [] [] 1 1 0 0)
    ∅.

(** The same after a login that drew the token [tok-1]. *)
Definition W_logged_in : World :=
  mkWorld (db W_registered) {[ "tok-1" := 1 ]}.

Definition env_at (now : Z) : Env := mkEnv now "s1" (Some "tok-1").

Definition post (path : string) (cookies form : list (string * string)) : Request :=
  mkRequest MethodPost path cookies (Some form) false.

Definition session : list (string * string) := [(sessionCookieName, "tok-1")].
End sample.

(** * The pages, the router and the integrity of the store

    The rest of the site, embedded under the same conventions.
    - A [time.Time] a handler parses from a form is an instant in seconds,
      like the stored timestamps; every such value is in UTC, which is what
      [time.Parse] gives for a layout without a zone, so the order of the
      column [game_datetime] is the order of the instants.
    - The functions of the standard library whose tables are not part of
      this repository ([time.Parse], [Year], [http.StatusText]) are the
      methods of the class [stdlib]. *)

(** ** games_db.go: the listing of all games *)

Module games_db.
Import models sqlite database.

Definition GetAllGames (db : DB) : result (list Game) :=
  Ok (map scan_game (ORDER_BY (DESC g_game_datetime) (games db))).

End games_db.

(** ** The verb [%d] of [fmt] *)

Module fmt.

Definition digit_char (d : Z) : ascii := ascii_of_N (Z.to_N (48 + d)).

(** The decimal digits of [n >= 0] in front of [acc]; [fuel] bounds their
    number. *)
Fixpoint digits_of (fuel : nat) (n : Z) (acc : string) : string :=
  match fuel with
  | O => acc
  | S f =>
      let acc' := String (digit_char (n mod 10)) acc in
      if n <? 10 then acc' else digits_of f (n / 10) acc'
  end.

(** A number has at most one decimal digit per binary digit. *)
Definition FormatUint (n : Z) : string :=
  digits_of (S (Z.to_nat (Z.log2 n))) n "".

Definition FormatInt (n : Z) : string :=
  if n <? 0 then String "-"%char (FormatUint (- n)) else FormatUint n.

End fmt.

(** [time.Parse(layout, value)] ([None] for an error), [time.Now().Year()]
    at a reading of the clock, and [http.StatusText]. *)
Class stdlib := {
  time_Parse : string -> string -> option Z;
  time_Year : Z -> Z;
  http_StatusText : Z -> string
}.

(** ** The full pages of package [handlers] *)

Module pages.
Import models http handlers.

Definition MethodGet : string := "GET".
Definition StatusNotFound : Z := 404.

(** Values of the [map[string]interface{}] of a page; [User] and
    [CurrentUserRSVP] may hold nil pointers. *)
Inductive value :=
| String_ (s : string)
| Int (n : Z)
| Int64 (n : Z)
| UserPtr (u : option User)
| GamePtr (g : Game)
| RSVPPtr (r : option RSVP)
| RSVPs (l : list RSVP)
| ChatMessages (l : list ChatMessage)
| Games (l : list Game)
| StringMap (m : list (string * string)).

Inductive body :=
| NoBody
| Plain (text : string)
| Rendered (name : string) (data : list (string * value)).

Record Response := mkResponse {
  Header : list (string * string);
  SetCookies : list Cookie;
  StatusCode : Z;
  Body : body
}.

Definition page_value (v : http.value) : value :=
  match v with
  | VString s => String_ s
  | VInt64 n => Int64 n
  | VUser u => UserPtr (Some u)
  | VGame g => GamePtr g
  | VRSVP r => RSVPPtr r
  | VRSVPs l => RSVPs l
  | VChatMessages l => ChatMessages l
  end.

(** What a handler of a partial has written, read as a page response. *)
Definition of_http (w : http.Response) : Response :=
  mkResponse (http.Header w) (http.SetCookies w) (http.StatusCode w)
    match http.Body w with
    | http.NoBody => NoBody
    | http.Plain text => Plain text
    | http.Rendered name data =>
        Rendered name (map (fun kv => (fst kv, page_value (snd kv))) data)
    end.

Definition w0 : Response := of_http http.w0.

Definition Header_Set (w : Response) (k v : string) : Response :=
  mkResponse (Header w ++ [(k, v)]) (SetCookies w) (StatusCode w) (Body w).

Definition WriteHeader (w : Response) (statusCode : Z) : Response :=
  mkResponse (Header w) (SetCookies w) statusCode (Body w).

Definition Error_ (w : Response) (msg : string) (code : Z) : Response :=
  mkResponse (Header w ++ [("Content-Type", "text/plain; charset=utf-8");
                           ("X-Content-Type-Options", "nosniff")])
             (SetCookies w) code (Plain msg).

(** [RenderTemplate], as in [handlers]: the templates are loaded and
    execute without error. *)
Definition RenderTemplate (w : Response) (name : string) (data : list (string * value))
  : Response :=
  mkResponse (Header w) (SetCookies w) (StatusCode w) (Rendered name data).

(** The pointer a call returns beside its error: nil when there is one. *)
Definition ptr {A : Type} (x : result A) : option A :=
  match x with
  | Ok a => Some a
  | Err _ => None
  end.

(** [AuthMiddleware] around a handler of a page. *)
Definition AuthMiddleware (next : World -> Env -> Request -> World * Response)
  (W : World) (env : Env) (r : Request) : World * Response :=
  if negb (IsAuthenticated W r)
  then (W, of_http (Redirect http.w0 "/login" StatusSeeOther))
  else next W env r.

(** *** auth_handlers.go *)

Definition RegisterPage (W : World) (env : Env) (r : Request) : World * Response :=
  (W, RenderTemplate w0 "auth/register.html" []).

Definition LoginPage (W : World) (env : Env) (r : Request) : World * Response :=
  (W, RenderTemplate w0 "auth/login.html" []).

(** *** templates.go *)

(** The database handle is never nil where the router calls this. *)
Definition RenderErrorPage `{stdlib} (W : World) (env : Env) (r : Request)
  (statusCode : Z) (title message : string) : Response :=
  let w := WriteHeader w0 statusCode in
  let currentYear := time_Year (now env) in
  let currentUser :=
    if IsAuthenticated W r then ptr (GetCurrentUser W r) else None in
  RenderTemplate w "error.html"
    [("Title", String_ ("Error " +:+ fmt.FormatInt statusCode +:+ " - " +:+ title));
     ("StatusCode", Int statusCode);
     ("StatusText", String_ (http_StatusText statusCode));
     ("ErrorTitle", String_ title);
     ("Message", String_ message);
     ("User", UserPtr currentUser);
     ("CurrentYear", Int currentYear)].

(** *** game_handlers.go *)

Definition GamesListPage (W : World) (env : Env) (r : Request) : World * Response :=
  match games_db.GetAllGames (db W) with
  | Err err =>
      (W, Error_ w0 ("Failed to retrieve games: " +:+ Error err) StatusInternalServerError)
  | Ok games =>
      let currentUser := ptr (GetCurrentUser W r) in
      (W, RenderTemplate w0 "games/games_list.html"
            [("Games", Games games); ("User", UserPtr currentUser)])
  end.

Definition GameDetailPage (W : World) (env : Env) (r : Request) : World * Response :=
  let pathParts := gostrings.Split (URL_Path r) "/" in
  let gameIDStr := List.last pathParts "" in
  if String.eqb gameIDStr "" then
    (W, Error_ w0 "Game ID missing in URL path" StatusBadRequest)
  else
  match strconv.ParseInt gameIDStr with
  | None => (W, Error_ w0 "Invalid Game ID format" StatusBadRequest)
  | Some gameID =>
    match database.GetGameByID (db W) gameID with
    | Err ErrNoRows => (W, Error_ w0 "Game not found" StatusNotFound)
    | Err err =>
        (W, Error_ w0 ("Database error: " +:+ Error err) StatusInternalServerError)
    | Ok game =>
      let currentUser := ptr (GetCurrentUser W r) in
      let allGameRSVPs :=
        match database.GetRSVPsForGame (db W) gameID with
        | Ok l => l
        | Err _ => []
        end in
      let currentUserRSVP :=
        match currentUser with
        | Some u => ptr (database.GetRSVPByUserForGame (db W) (User_ID u) gameID)
        | None => None
        end in
      let chatMessages :=
        match database.GetChatMessagesForGame (db W) gameID with
        | Ok l => l
        | Err _ => []
        end in
      (W, RenderTemplate w0 "games/game_detail.html"
            [("Game", GamePtr game);
             ("User", UserPtr currentUser);
             ("CurrentUserRSVP", RSVPPtr currentUserRSVP);
             ("AllGameRSVPs", RSVPs allGameRSVPs);
             ("RSVPStatusAttending", String_ RSVPStatusAttending);
             ("RSVPStatusMaybe", String_ RSVPStatusMaybe);
             ("RSVPStatusNotAttending", String_ RSVPStatusNotAttending);
             ("ChatMessages", ChatMessages chatMessages);
             ("GameID", Int64 gameID)])
    end
  end.

Definition CreateGamePage (W : World) (env : Env) (r : Request) : World * Response :=
  (W, RenderTemplate w0 "games/new_game.html" []).

Definition CreateGame `{stdlib} (W : World) (env : Env) (r : Request) : World * Response :=
  if negb (String.eqb (Method r) MethodPost) then
    (W, Error_ w0 "Only POST method is allowed" StatusMethodNotAllowed)
  else
  match Form r with
  | None => (W, Error_ w0 "Error parsing form" StatusBadRequest)
  | Some form =>
    let title := FormValue form "title" in
    let description := FormValue form "description" in
    let gameDateTimeStr := FormValue form "game_datetime" in
    let location := FormValue form "location" in
    if String.eqb title "" || String.eqb gameDateTimeStr "" || String.eqb location "" then
      (W, RenderTemplate w0 "games/new_game.html"
            [("Error", String_ "Title, Game Date/Time, and Location are required.")])
    else
    let submitted :=
      StringMap [("title", title); ("description", description);
                 ("game_datetime", gameDateTimeStr); ("location", location)] in
    match time_Parse "2006-01-02T15:04" gameDateTimeStr with
    | None =>
        (W, RenderTemplate w0 "games/new_game.html"
              [("Error", String_ "Invalid date/time format. Use YYYY-MM-DDTHH:MM.");
               ("Form", submitted)])
    | Some gameDateTime =>
      match GetCurrentUser W r with
      | Err err =>
          (W, Error_ w0 ("User not authenticated: " +:+ Error err) StatusUnauthorized)
      | Ok currentUser =>
        let game :=
          mkGame 0 (User_ID currentUser) title description gameDateTime location 0 in
        match database.CreateGame (db W) (now env) game with
        | (db', Err err) =>
            (with_db W db',
             RenderTemplate w0 "games/new_game.html"
               [("Error", String_ ("Failed to create game: " +:+ Error err));
                ("Form", submitted)])
        | (db', Ok createdGame) =>
            let redirectURL := "/games/" +:+ fmt.FormatInt (Game_ID createdGame) in
            (with_db W db', Header_Set w0 "HX-Redirect" redirectURL)
        end
      end
    end
  end.

End pages.

(** ** templates.go: the template function [Nl2br] *)

Module templates.

(** [strings.ReplaceAll(s, old, new)] for a non-empty [old]: the matches
    are taken from the left and do not overlap; [skip] counts the bytes of
    a match still to be passed over. *)
Fixpoint ReplaceAll_from (old new : string) (skip : nat) (s : string) : string :=
  match s with
  | EmptyString => EmptyString
  | String c s' =>
      match skip with
      | S k => ReplaceAll_from old new k s'
      | O =>
          if String.prefix old s
          then new +:+ ReplaceAll_from old new (String.length old - 1) s'
          else String c (ReplaceAll_from old new 0 s')
      end
  end.

Definition ReplaceAll (s old new : string) : string := ReplaceAll_from old new 0 s.

Definition newline : string := String (ascii_of_N 10) "".

(** The result is a [template.HTML]: the template prints it as it is. *)
Definition Nl2br (s : string) : string := ReplaceAll s newline "<br>".

End templates.

(** ** main.go: the handlers registered with the mux *)

Module main.
Import models http handlers pages.

(** The response of a handler of a partial, as the mux sees it. *)
Definition partial (res : World * http.Response) : World * Response :=
  let (W', w) := res in (W', of_http w).

(** The function literals [main] registers, named after their patterns. *)
Definition root `{stdlib} (W : World) (env : Env) (r : Request) : World * Response :=
  if String.eqb (URL_Path r) "/" then
    (W, of_http (Redirect http.w0 "/games" StatusSeeOther))
  else
    (W, RenderErrorPage W env r StatusNotFound "Page Not Found"
          "The page you are looking for does not exist.").

Definition register `{bcrypt} `{stdlib} (W : World) (env : Env) (r : Request)
  : World * Response :=
  if String.eqb (Method r) MethodGet then RegisterPage W env r
  else if String.eqb (Method r) MethodPost then partial (Register W env r)
  else (W, RenderErrorPage W env r StatusMethodNotAllowed "Method Not Allowed"
             "This method is not supported for /register.").

Definition login `{bcrypt} `{stdlib} (W : World) (env : Env) (r : Request)
  : World * Response :=
  if String.eqb (Method r) MethodGet then LoginPage W env r
  else if String.eqb (Method r) MethodPost then partial (Login W env r)
  else (W, RenderErrorPage W env r StatusMethodNotAllowed "Method Not Allowed"
             "This method is not supported for /login.").

Definition logout `{stdlib} (W : World) (env : Env) (r : Request) : World * Response :=
  if String.eqb (Method r) MethodPost then partial (Logout W r)
  else (W, RenderErrorPage W env r StatusMethodNotAllowed "Method Not Allowed"
             "Logout requires POST method.").

Definition games_new `{stdlib} (W : World) (env : Env) (r : Request) : World * Response :=
  if String.eqb (Method r) MethodGet then pages.AuthMiddleware CreateGamePage W env r
  else if String.eqb (Method r) MethodPost then pages.AuthMiddleware CreateGame W env r
  else (W, RenderErrorPage W env r StatusMethodNotAllowed "Method Not Allowed"
             "This method is not supported for /games/new.").

Definition routeDynamicGamePaths `{stdlib} (W : World) (env : Env) (r : Request)
  : World * Response :=
  let path := URL_Path r in
  let parts := gostrings.Split (gostrings.TrimPrefix path "/games/") "/" in
  if (length parts =? 0)%nat || String.eqb (nth 0 parts "") "" then
    (W, RenderErrorPage W env r StatusNotFound "Not Found"
          "Game ID missing or invalid path.")
  else
  let gameIDStr := nth 0 parts "" in
  match strconv.ParseInt gameIDStr with
  | None =>
      (W, RenderErrorPage W env r StatusBadRequest "Bad Request" "Invalid Game ID format.")
  | Some _ =>
    if (length parts =? 1)%nat then
      if String.eqb (Method r) MethodGet then GameDetailPage W env r
      else (W, RenderErrorPage W env r StatusMethodNotAllowed "Method Not Allowed"
                 "Only GET is allowed for game details.")
    else if (length parts =? 2)%nat then
      let action := nth 1 parts "" in
      if String.eqb action "rsvp" then
        if String.eqb (Method r) MethodPost then
          partial (handlers.AuthMiddleware SubmitRSVP W env r)
        else (W, RenderErrorPage W env r StatusMethodNotAllowed "Method Not Allowed"
                   "Only POST is allowed for RSVP.")
      else if String.eqb action "chat" then
        if String.eqb (Method r) MethodPost then
          partial (handlers.AuthMiddleware PostChatMessage W env r)
        else (W, RenderErrorPage W env r StatusMethodNotAllowed "Method Not Allowed"
                   "Only POST is allowed for chat.")
      else
        (W, RenderErrorPage W env r StatusNotFound "Not Found" "Invalid action for game.")
    else
      (W, RenderErrorPage W env r StatusNotFound "Not Found"
            "Invalid game path structure.")
  end.

End main.

(** ** The constraints of schema.sql as predicates on a store *)

Module integrity.
Import sqlite schema handlers.

(** [INTEGER PRIMARY KEY] on each of the four tables. *)
Definition PRIMARY_KEY (db : DB) : Prop :=
  NoDup (map u_id (users db)) /\
  NoDup (map g_id (games db)) /\
  NoDup (map r_id (rsvps db)) /\
  NoDup (map cm_id (chat_messages db)).

(** The constraints the engine enforces. *)
Definition constraints (db : DB) : Prop :=
  PRIMARY_KEY db /\ UNIQUE_users_email db /\ UNIQUE_rsvps db.

(** Every session names a user the store has. *)
Definition sessions_resolve (W : World) : Prop :=
  forall token userID,
    SessionStore W !! token = Some userID ->
    exists user, database.GetUserByID (db W) userID = Ok user.

(** The constraints the engine enforces, the foreign keys to [users] of
    [rsvps] and [chat_messages], which it does not, and the sessions. *)
Definition consistent (W : World) : Prop :=
  constraints (db W) /\
  FOREIGN_KEY_rsvps_user (db W) /\
  FOREIGN_KEY_chat_messages_user (db W) /\
  sessions_resolve W.

(** [FOREIGN KEY (gm_id) REFERENCES users(id)] on [games]. *)
Definition FOREIGN_KEY_games_gm (db : DB) : Prop :=
  Forall (fun g => one_user (users db) (g_gm_id g)) (games db).

(** A consistent world whose games all have their game master. *)
Definition hosted (W : World) : Prop :=
  consistent W /\ FOREIGN_KEY_games_gm (db W).

End integrity.

(** ** Sample requests for the pages *)

Module sample_site.
Import models sqlite http handlers.

(** A stand-in for the three library functions: a date of the layout's
    length whose first four bytes are a year counts as that year; a year
    has 31556952 seconds; the status texts are those of the codes the
    router sends. *)
Definition toy_stdlib : stdlib :=
  {| time_Parse layout value :=
       if (String.length value =? String.length layout)%nat
       then strconv.unsigned (substring 0 4 value)
       else None;
     time_Year now := 1970 + now / 31556952;
     http_StatusText code :=
       if code =? 400 then "Bad Request"
       else if code =? 404 then "Not Found"
       else if code =? 405 then "Method Not Allowed"
       else "" |}.

Definition get (path : string) (cookies : list (string * string)) : Request :=
  mkRequest pages.MethodGet path cookies None false.

End sample_site.

(** * Properties *)

Import models sqlite database schema http handlers sample.

(** ** The string functions on the inputs the handlers meet *)

Example Split_rsvp_path :
  gostrings.Split (gostrings.TrimSuffix "/games/12/rsvp" "/rsvp") "/" = [""; "games"; "12"].
Proof. reflexivity. Qed.

Example Split_empty : gostrings.Split "" "/" = [""].
Proof. reflexivity. Qed.

Example TrimSpace_blank :
  gostrings.TrimSpace (gostrings.string_of_codes [32; 9; 194; 160; 10]%N) = "".
Proof. reflexivity. Qed.

Example TrimSpace_inner : gostrings.TrimSpace "  see you  there " = "see you  there".
Proof. reflexivity. Qed.

Example ParseInt_examples :
  strconv.ParseInt "12" = Some 12 /\ strconv.ParseInt "-7" = Some (-7) /\
  strconv.ParseInt "new" = None /\ strconv.ParseInt "" = None /\
  strconv.ParseInt "9223372036854775808" = None.
Proof. repeat split; reflexivity. Qed.

(** ** Facts about [ORDER BY] *)

Section ORDER_BY_facts.
Context {A : Type} (before : A -> A -> bool).
Hypothesis before_total : forall x y, before x y = true \/ before y x = true.

Local Abbreviation R := (in_order before).

Lemma place_Permutation (x : A) (l : list A) :
  Permutation (place before x l) (x :: l).
Proof.
  induction l as [|y l IH]; simpl.
  - reflexivity.
  - destruct (before x y).
    + reflexivity.
    + rewrite IH. apply perm_swap.
Qed.

Lemma ORDER_BY_Permutation (l : list A) : Permutation (ORDER_BY before l) l.
Proof.
  induction l as [|x l IH]; simpl.
  - reflexivity.
  - rewrite place_Permutation. now constructor.
Qed.

Lemma place_HdRel (a x : A) (l : list A) :
  R a x -> HdRel R a l -> HdRel R a (place before x l).
Proof.
  intros Hax Hal. destruct l as [|y l]; simpl.
  - now constructor.
  - destruct (before x y); constructor; trivial.
    now inversion Hal.
Qed.

Lemma place_Sorted (x : A) (l : list A) :
  Sorted R l -> Sorted R (place before x l).
Proof.
  induction 1 as [|y l Hl IH Hy]; simpl.
  - repeat constructor.
  - destruct (before x y) eqn:E.
    + constructor; [now constructor | now constructor].
    + constructor; [exact IH |].
      apply place_HdRel; [| exact Hy].
      destruct (before_total x y) as [H | H]; [congruence | exact H].
Qed.

Lemma ORDER_BY_Sorted (l : list A) : Sorted R (ORDER_BY before l).
Proof.
  induction l as [|x l IH]; simpl; [constructor | now apply place_Sorted].
Qed.
End ORDER_BY_facts.

(** ** The RSVP upsert *)

Lemma existsb_filter_nil {A : Type} (f : A -> bool) (l : list A) :
  existsb f l = false <-> List.filter f l = [].
Proof.
  induction l as [|x l IH]; simpl; [tauto |].
  destruct (f x); simpl; [split; discriminate | exact IH].
Qed.

Lemma same_pair_spec (u g : Z) (r : rsvps_row) :
  same_pair u g r = true <-> (r_user_id r, r_game_id r) = (u, g).
Proof.
  unfold same_pair. rewrite andb_true_iff, !Z.eqb_eq.
  split; [intros [-> ->]; reflexivity | intros [= -> ->]; auto].
Qed.

Lemma DO_UPDATE_pair (now u g : Z) (s : string) (r : rsvps_row) :
  (r_user_id (DO_UPDATE now u g s r), r_game_id (DO_UPDATE now u g s r))
  = (r_user_id r, r_game_id r).
Proof. unfold DO_UPDATE. now destruct (same_pair u g r). Qed.

Lemma same_pair_DO_UPDATE (now u g u' g' : Z) (s : string) (r : rsvps_row) :
  same_pair u' g' (DO_UPDATE now u g s r) = same_pair u' g' r.
Proof. unfold DO_UPDATE. now destruct (same_pair u g r). Qed.

Lemma filter_map_DO_UPDATE (now u g u' g' : Z) (s : string) (l : list rsvps_row) :
  List.filter (same_pair u' g') (map (DO_UPDATE now u g s) l)
  = map (DO_UPDATE now u g s) (List.filter (same_pair u' g') l).
Proof.
  induction l as [|r l IH]; simpl; [reflexivity |].
  rewrite same_pair_DO_UPDATE. destruct (same_pair u' g' r); simpl; now rewrite IH.
Qed.

(** Under the uniqueness constraint a pair has no row or exactly one. *)
Lemma UNIQUE_rsvps_at_most_one (db : DB) (u g : Z) :
  UNIQUE_rsvps db ->
  rsvps_of_pair db u g = [] \/ exists r, rsvps_of_pair db u g = [r].
Proof.
  unfold UNIQUE_rsvps, rsvps_of_pair.
  induction (rsvps db) as [|r l IH]; simpl; intros ND; [now left |].
  apply NoDup_cons in ND as [Hnotin ND].
  destruct (same_pair u g r) eqn:E.
  - right. exists r. f_equal.
    apply existsb_filter_nil.
    destruct (existsb (same_pair u g) l) eqn:E'; [| reflexivity].
    apply existsb_exists in E' as (r' & Hin & Hr').
    exfalso. apply Hnotin.
    apply same_pair_spec in E. apply same_pair_spec in Hr'.
    rewrite E, <- Hr'. apply list_elem_of_In.
    now apply (in_map (fun r => (r_user_id r, r_game_id r))).
  - now apply IH.
Qed.

(** The statement keeps the constraint. *)
Lemma CreateOrUpdateRSVP_UNIQUE (db : DB) (now : Z) (rsvp : RSVP) :
  UNIQUE_rsvps db -> UNIQUE_rsvps (fst (CreateOrUpdateRSVP db now rsvp)).
Proof.
  unfold UNIQUE_rsvps, CreateOrUpdateRSVP. intros ND.
  destruct (existsb _ (rsvps db)) eqn:E; simpl.
  - rewrite map_map.
    erewrite map_ext; [exact ND |].
    intros r. apply DO_UPDATE_pair.
  - rewrite map_app. simpl.
    apply NoDup_app. split; [exact ND |]. split; [| apply NoDup_singleton].
    intros p Hp Hp'. apply list_elem_of_In in Hp.
    apply list_elem_of_In in Hp'. destruct Hp' as [<- | []].
    apply in_map_iff in Hp as (r & Hr & Hin).
    assert (existsb (same_pair (RSVP_UserID rsvp) (RSVP_GameID rsvp)) (rsvps db) = true)
      as C; [| congruence].
    apply existsb_exists. exists r. split; [exact Hin |].
    now apply same_pair_spec.
Qed.

(** The first submission for a pair appends one row whose two timestamps
    are the current time. *)
Lemma CreateOrUpdateRSVP_insert (db : DB) (now : Z) (rsvp : RSVP) :
  rsvps_of_pair db (RSVP_UserID rsvp) (RSVP_GameID rsvp) = [] ->
  exists id,
    let row := mk_rsvps_row id (RSVP_UserID rsvp) (RSVP_GameID rsvp)
                 (RSVP_Status rsvp) now now in
    rsvps (fst (CreateOrUpdateRSVP db now rsvp)) = rsvps db ++ [row] /\
    rsvps_of_pair (fst (CreateOrUpdateRSVP db now rsvp))
      (RSVP_UserID rsvp) (RSVP_GameID rsvp) = [row].
Proof.
  unfold rsvps_of_pair, CreateOrUpdateRSVP. intros Hnone.
  rewrite (proj2 (existsb_filter_nil _ _) Hnone). simpl.
  eexists. split; [reflexivity |].
  rewrite List.filter_app, Hnone. simpl.
  unfold same_pair at 1. simpl. now rewrite !Z.eqb_refl.
Qed.

(** A later submission rewrites the status and the update timestamp of the
    pair's row, keeps its id and creation timestamp, and touches no other
    row. *)
Lemma CreateOrUpdateRSVP_update (db : DB) (now : Z) (rsvp : RSVP) (r0 : rsvps_row) :
  rsvps_of_pair db (RSVP_UserID rsvp) (RSVP_GameID rsvp) = [r0] ->
  rsvps (fst (CreateOrUpdateRSVP db now rsvp))
  = map (DO_UPDATE now (RSVP_UserID rsvp) (RSVP_GameID rsvp) (RSVP_Status rsvp))
        (rsvps db) /\
  rsvps_of_pair (fst (CreateOrUpdateRSVP db now rsvp))
    (RSVP_UserID rsvp) (RSVP_GameID rsvp)
  = [mk_rsvps_row (r_id r0) (RSVP_UserID rsvp) (RSVP_GameID rsvp) (RSVP_Status rsvp)
       (r_created_at r0) now].
Proof.
  unfold rsvps_of_pair, CreateOrUpdateRSVP. intros Hone.
  destruct (existsb _ (rsvps db)) eqn:E.
  - simpl. split; [reflexivity |].
    rewrite filter_map_DO_UPDATE, Hone. simpl.
    assert (same_pair (RSVP_UserID rsvp) (RSVP_GameID rsvp) r0 = true) as Hr0.
    { assert (In r0 (List.filter (same_pair (RSVP_UserID rsvp) (RSVP_GameID rsvp))
                       (rsvps db))) as Hin by (rewrite Hone; now left).
      now apply filter_In in Hin. }
    unfold DO_UPDATE. rewrite Hr0.
    apply same_pair_spec in Hr0. injection Hr0 as -> ->. reflexivity.
  - apply existsb_filter_nil in E. congruence.
Qed.

(** C1.  [CreateOrUpdateRSVP] is one statement keyed on (user id, game id).
    When the pair has no row it appends one whose creation and update
    timestamps are both the current time; when the pair has a row it
    rewrites that row's status and update timestamp and keeps its id and
    creation timestamp.  Two calls for the same pair, the second no earlier
    than the first, leave exactly one row for the pair: it carries the
    second status, the creation timestamp the first call left, and an update
    timestamp no smaller than the one the first call wrote.  Nothing is
    asked of the two statuses, so the case of different statuses is
    covered. *)
Theorem CreateOrUpdateRSVP_upsert
  (db : DB) (t1 t2 : Z) (first second : RSVP) :
  UNIQUE_rsvps db ->
  RSVP_UserID second = RSVP_UserID first ->
  RSVP_GameID second = RSVP_GameID first ->
  t1 <= t2 ->
  let u := RSVP_UserID first in
  let g := RSVP_GameID first in
  let db1 := fst (CreateOrUpdateRSVP db t1 first) in
  let db2 := fst (CreateOrUpdateRSVP db1 t2 second) in
  snd (CreateOrUpdateRSVP db t1 first) = Ok tt /\
  snd (CreateOrUpdateRSVP db1 t2 second) = Ok tt /\
  (rsvps_of_pair db u g = [] ->
   exists id, rsvps_of_pair db1 u g
              = [mk_rsvps_row id u g (RSVP_Status first) t1 t1]) /\
  (forall r0, rsvps_of_pair db u g = [r0] ->
   rsvps_of_pair db1 u g
   = [mk_rsvps_row (r_id r0) u g (RSVP_Status first) (r_created_at r0) t1]) /\
  (exists r1,
     rsvps_of_pair db1 u g = [r1] /\
     r_updated_at r1 = t1 /\
     rsvps_of_pair db2 u g
     = [mk_rsvps_row (r_id r1) u g (RSVP_Status second) (r_created_at r1) t2] /\
     r_updated_at r1 <= t2) /\
  UNIQUE_rsvps db2.
Proof.
  intros Huniq Hu Hg Ht u g db1 db2.
  assert (Hins : rsvps_of_pair db u g = [] ->
                 exists id, rsvps_of_pair db1 u g
                            = [mk_rsvps_row id u g (RSVP_Status first) t1 t1]).
  { intros Hnone. destruct (CreateOrUpdateRSVP_insert db t1 first Hnone) as (id & _ & H).
    now exists id. }
  assert (Hupd : forall r0, rsvps_of_pair db u g = [r0] ->
                 rsvps_of_pair db1 u g
                 = [mk_rsvps_row (r_id r0) u g (RSVP_Status first) (r_created_at r0) t1]).
  { intros r0 Hone. now destruct (CreateOrUpdateRSVP_update db t1 first r0 Hone). }
  assert (Hok : forall d t x, snd (CreateOrUpdateRSVP d t x) = Ok tt).
  { intros d t x. unfold CreateOrUpdateRSVP. now destruct (existsb _ (rsvps d)). }
  repeat split; try apply Hok; try assumption.
  - assert (exists r1, rsvps_of_pair db1 u g = [r1] /\ r_updated_at r1 = t1)
      as (r1 & Hr1 & Hupd1).
    { destruct (UNIQUE_rsvps_at_most_one db u g Huniq) as [Hnone | (r0 & Hone)].
      - destruct (Hins Hnone) as (id & H). eexists. split; [exact H | reflexivity].
      - eexists. split; [exact (Hupd r0 Hone) | reflexivity]. }
    exists r1. repeat split; trivial; [| lia].
    assert (rsvps_of_pair db1 (RSVP_UserID second) (RSVP_GameID second) = [r1]) as Hr1'
      by (now rewrite Hu, Hg).
    destruct (CreateOrUpdateRSVP_update db1 t2 second r1 Hr1') as [_ H].
    fold db2 in H. rewrite Hu, Hg in H. exact H.
  - subst db2 db1. now do 2 apply CreateOrUpdateRSVP_UNIQUE.
Qed.

(** ** The two per-game listings *)

Lemma Sorted_map {A B : Type} (f : A -> B) (R : A -> A -> Prop) (R' : B -> B -> Prop)
  (l : list A) :
  (forall x y, R x y -> R' (f x) (f y)) -> Sorted R l -> Sorted R' (map f l).
Proof.
  intros HR. induction 1 as [|x l Hl IH Hx]; simpl; constructor; trivial.
  destruct Hx; simpl; constructor; auto.
Qed.

Lemma filter_map_fst {A B : Type} (f : A -> bool) (l : list (A * B)) :
  map fst (List.filter (fun p => f (fst p)) l) = List.filter f (map fst l).
Proof.
  induction l as [|[a b] l IH]; simpl; [reflexivity |].
  destruct (f a); simpl; now rewrite IH.
Qed.

Lemma JOIN_users_app {A : Type} (user_id : A -> Z) (t1 t2 : list A) (us : list users_row) :
  JOIN_users user_id (t1 ++ t2) us = JOIN_users user_id t1 us ++ JOIN_users user_id t2 us.
Proof. unfold JOIN_users. apply flat_map_app. Qed.

Lemma JOIN_users_In {A : Type} (user_id : A -> Z) (t : list A) (us : list users_row)
  (x : A) (u : users_row) :
  In (x, u) (JOIN_users user_id t us) <-> In x t /\ In u us /\ user_id x = u_id u.
Proof.
  unfold JOIN_users. rewrite in_flat_map. split.
  - intros (y & Hy & Hin). apply in_map_iff in Hin as (u' & [= <- <-] & Hu).
    apply filter_In in Hu as [Hu E]. apply Z.eqb_eq in E. auto.
  - intros (Hx & Hu & E). exists x. split; [exact Hx |].
    apply in_map. apply filter_In. split; [exact Hu | now apply Z.eqb_eq].
Qed.

(** With every row naming exactly one user, the join keeps each row once. *)
Lemma JOIN_users_fst {A : Type} (user_id : A -> Z) (t : list A) (us : list users_row) :
  Forall (fun x => one_user us (user_id x)) t ->
  map fst (JOIN_users user_id t us) = t.
Proof.
  unfold JOIN_users. induction 1 as [|x t [u Hu] _ IH]; simpl; [reflexivity |].
  rewrite map_app, IH, Hu. reflexivity.
Qed.

Lemma RSVP_row_scan (ru : rsvps_row * users_row) : RSVP_row (scan_rsvp ru) = fst ru.
Proof. now destruct ru as [[] ?]. Qed.

Lemma ChatMessage_row_scan (cu : chat_messages_row * users_row) :
  ChatMessage_row (scan_chat_message cu) = fst cu.
Proof. now destruct cu as [[] ?]. Qed.

(** What [GetRSVPsForGame] returns: rows of the game only, each with the
    email of its user, latest update first; and, when every RSVP names one
    user, all the rows of the game. *)
Lemma GetRSVPsForGame_listing (db : DB) (gameID : Z) :
  exists l,
    GetRSVPsForGame db gameID = Ok l /\
    Sorted (fun x y => RSVP_UpdatedAt y <= RSVP_UpdatedAt x) l /\
    Forall (fun x => RSVP_GameID x = gameID /\
                     In (RSVP_row x) (rsvps db) /\
                     email_of db (RSVP_UserID x) (RSVP_UserEmail x)) l /\
    (FOREIGN_KEY_rsvps_user db ->
     Permutation (map RSVP_row l) (rsvps_of_game db gameID)).
Proof.
  unfold GetRSVPsForGame.
  set (joined := JOIN_users r_user_id (rsvps db) (users db)).
  set (selected := List.filter _ joined).
  set (key := fun ru : rsvps_row * users_row => r_updated_at (fst ru)).
  eexists. split; [reflexivity |]. split; [| split].
  - apply Sorted_map with (R := fun x y => DESC key x y = true).
    + intros [r u] [r' u']. unfold DESC, key. simpl. lia.
    + apply ORDER_BY_Sorted. intros x y. unfold DESC. lia.
  - apply Forall_forall. intros x Hx. apply list_elem_of_In in Hx.
    apply in_map_iff in Hx as ([r u] & <- & Hin).
    apply (Permutation_in _ (ORDER_BY_Permutation _ selected)) in Hin.
    apply filter_In in Hin as [Hin Hg]. apply JOIN_users_In in Hin as (Hr & Hu & E).
    simpl in *. apply Z.eqb_eq in Hg. repeat split; trivial.
    + now destruct r.
    + now exists u.
  - intros FK.
    rewrite map_map.
    erewrite (map_ext (fun ru => RSVP_row (scan_rsvp ru))) by apply RSVP_row_scan.
    rewrite (ORDER_BY_Permutation _ selected).
    subst selected. unfold rsvps_of_game.
    rewrite (filter_map_fst (fun r => r_game_id r =? gameID)).
    subst joined. now rewrite JOIN_users_fst.
Qed.

(** C6.  [GetChatMessagesForGame] returns messages of that game only, each
    with the email of its author, in ascending order of creation time
    (oldest first); when every message names one user, as the schema's
    foreign key declares, they are all the messages of the game.  The RSVP
    listing of the same store is ordered the other way, descending in its
    update time. *)
Theorem GetChatMessagesForGame_oldest_first (db : DB) (gameID : Z) :
  FOREIGN_KEY_chat_messages_user db ->
  exists l,
    GetChatMessagesForGame db gameID = Ok l /\
    Permutation (map ChatMessage_row l) (chat_messages_of_game db gameID) /\
    Sorted (fun x y => ChatMessage_CreatedAt x <= ChatMessage_CreatedAt y) l /\
    Forall (fun x => email_of db (ChatMessage_UserID x) (ChatMessage_UserEmail x)) l /\
    exists l',
      GetRSVPsForGame db gameID = Ok l' /\
      Sorted (fun x y => RSVP_UpdatedAt y <= RSVP_UpdatedAt x) l'.
Proof.
  intros FK. unfold GetChatMessagesForGame.
  set (joined := JOIN_users cm_user_id (chat_messages db) (users db)).
  set (selected := List.filter _ joined).
  set (key := fun cu : chat_messages_row * users_row => cm_created_at (fst cu)).
  eexists. split; [reflexivity |]. split; [| split; [| split]].
  - rewrite map_map.
    erewrite (map_ext (fun cu => ChatMessage_row (scan_chat_message cu)))
      by apply ChatMessage_row_scan.
    rewrite (ORDER_BY_Permutation _ selected).
    subst selected. unfold chat_messages_of_game.
    rewrite (filter_map_fst (fun cm => cm_game_id cm =? gameID)).
    subst joined. now rewrite JOIN_users_fst.
  - apply Sorted_map with (R := fun x y => ASC key x y = true).
    + intros [c u] [c' u']. unfold ASC, key. simpl. lia.
    + apply ORDER_BY_Sorted. intros x y. unfold ASC. lia.
  - apply Forall_forall. intros x Hx. apply list_elem_of_In in Hx.
    apply in_map_iff in Hx as ([c u] & <- & Hin).
    apply (Permutation_in _ (ORDER_BY_Permutation _ selected)) in Hin.
    apply filter_In in Hin as [Hin _]. apply JOIN_users_In in Hin as (_ & Hu & E).
    now exists u.
  - destruct (GetRSVPsForGame_listing db gameID) as (l' & H & HS & _).
    now exists l'.
Qed.

Lemma filter_nil_of_none {A : Type} (f : A -> bool) (l : list A) :
  (forall x, In x l -> f x = false) -> List.filter f l = [].
Proof.
  induction l as [|x l IH]; simpl; intros H; [reflexivity |].
  rewrite (H x) by now left. apply IH. intros y Hy. apply H. now right.
Qed.

Lemma filter_nil_none {A : Type} (f : A -> bool) (l : list A) (x : A) :
  List.filter f l = [] -> In x l -> f x = false.
Proof.
  intros Hnil Hin. destruct (f x) eqn:E; [| reflexivity].
  assert (In x (List.filter f l)) as H by (apply filter_In; auto).
  rewrite Hnil in H. destruct H.
Qed.

Lemma JOIN_users_select_none {A : Type} (user_id game_id : A -> Z) (gameID : Z)
  (t : list A) (us : list users_row) :
  List.filter (fun x => game_id x =? gameID) t = [] ->
  List.filter (fun xu => game_id (fst xu) =? gameID) (JOIN_users user_id t us) = [].
Proof.
  intros Hnone. apply filter_nil_of_none. intros [x u] Hin.
  apply JOIN_users_In in Hin as (Hx & _). simpl.
  exact (filter_nil_none _ _ x Hnone Hx).
Qed.

(** C10.  For a game id without RSVP rows and without chat rows, both
    listings return the empty list and no error.  Neither query reads the
    [games] table, so the answer is the same whether or not a game with
    that id exists. *)
Theorem listings_empty_for_game_without_rows (db : DB) (gameID : Z) :
  rsvps_of_game db gameID = [] ->
  chat_messages_of_game db gameID = [] ->
  GetRSVPsForGame db gameID = Ok [] /\
  GetChatMessagesForGame db gameID = Ok [].
Proof.
  unfold rsvps_of_game, chat_messages_of_game, GetRSVPsForGame, GetChatMessagesForGame.
  intros Hr Hc.
  rewrite (JOIN_users_select_none r_user_id r_game_id gameID _ _ Hr).
  rewrite (JOIN_users_select_none cm_user_id cm_game_id gameID _ _ Hc).
  split; reflexivity.
Qed.

(** [listings_empty_for_game_without_rows] for game id 7, which the sample
    store does not have. *)
Lemma listings_empty_for_game_without_rows_witness :
  GetGameByID sample.db_rsvplist 7 = Err ErrNoRows /\
  GetRSVPsForGame sample.db_rsvplist 7 = Ok [] /\
  GetChatMessagesForGame sample.db_rsvplist 7 = Ok [].
Proof.
  split; [reflexivity |].
  apply (listings_empty_for_game_without_rows sample.db_rsvplist 7); reflexivity.
Defined.

(** Three first RSVPs for one game by three users, written at strictly
    increasing timestamps, are listed latest first. *)
Lemma GetRSVPsForGame_latest_first (db : DB) (tA tB tC A B C g : Z) (sA sB sC : string) :
  rsvps_of_game db g = [] ->
  one_user (users db) A -> one_user (users db) B -> one_user (users db) C ->
  A <> B -> A <> C -> B <> C ->
  tA < tB -> tB < tC ->
  let db1 := fst (CreateOrUpdateRSVP db tA (mkRSVP 0 A g sA 0 0 "")) in
  let db2 := fst (CreateOrUpdateRSVP db1 tB (mkRSVP 0 B g sB 0 0 "")) in
  let db3 := fst (CreateOrUpdateRSVP db2 tC (mkRSVP 0 C g sC 0 0 "")) in
  exists l,
    GetRSVPsForGame db3 g = Ok l /\
    map RSVP_UserID l = [C; B; A] /\
    map RSVP_Status l = [sC; sB; sA] /\
    map RSVP_UpdatedAt l = [tC; tB; tA].
Proof.
  intros Hnone [uA HA] [uB HB] [uC HC] HAB HAC HBC HtAB HtBC db1 db2 db3.
  assert (Hfree : forall u, existsb (same_pair u g) (rsvps db) = false).
  { intros u. apply existsb_filter_nil. apply filter_nil_of_none. intros r Hr.
    pose proof (filter_nil_none _ _ r Hnone Hr) as E. simpl in E.
    unfold same_pair. rewrite E. apply andb_false_r. }
  assert (H1 : exists i, rsvps db1 = rsvps db ++ [mk_rsvps_row i A g sA tA tA]).
  { subst db1. unfold CreateOrUpdateRSVP. simpl. rewrite Hfree. simpl. eauto. }
  destruct H1 as [iA H1].
  assert (H2 : exists i, rsvps db2 = rsvps db1 ++ [mk_rsvps_row i B g sB tB tB]).
  { subst db2. unfold CreateOrUpdateRSVP at 1. simpl. rewrite H1, existsb_app, Hfree.
    simpl. unfold same_pair at 1. simpl.
    destruct (A =? B) eqn:E; [apply Z.eqb_eq in E; contradiction |].
    simpl. rewrite <- H1. eauto. }
  destruct H2 as [iB H2].
  assert (H3 : exists i, rsvps db3 = rsvps db2 ++ [mk_rsvps_row i C g sC tC tC]).
  { subst db3. unfold CreateOrUpdateRSVP at 1. simpl.
    rewrite H2, H1, !existsb_app, Hfree. simpl. unfold same_pair. simpl.
    destruct (A =? C) eqn:E; [apply Z.eqb_eq in E; contradiction |].
    destruct (B =? C) eqn:E'; [apply Z.eqb_eq in E'; contradiction |].
    simpl. rewrite <- H1, <- H2. eauto. }
  destruct H3 as [iC H3].
  assert (Hu : users db3 = users db).
  { subst db3 db2 db1. unfold CreateOrUpdateRSVP.
    repeat (match goal with |- context [existsb ?f ?l] => destruct (existsb f l) end;
            simpl); reflexivity. }
  unfold GetRSVPsForGame. rewrite Hu, H3, H2, H1.
  rewrite !JOIN_users_app, !List.filter_app.
  rewrite (JOIN_users_select_none r_user_id r_game_id g _ _ Hnone).
  unfold JOIN_users. simpl. rewrite HA, HB, HC. simpl. rewrite Z.eqb_refl. simpl.
  assert (E1 : (tC <=? tB) = false) by (apply Z.leb_gt; lia).
  assert (E2 : (tC <=? tA) = false) by (apply Z.leb_gt; lia).
  assert (E3 : (tB <=? tA) = false) by (apply Z.leb_gt; lia).
  unfold DESC. simpl. rewrite E1. simpl. rewrite E2, E3.
  eexists. split; [reflexivity |]. simpl. auto.
Qed.

(** C5.  The three RSVPs of [TestGetRSVPsForGame], written 10 ms apart by
    users 1, 2 and 3: [CURRENT_TIMESTAMP] gives the three rows the same
    second, [ORDER BY r.updated_at DESC] has nothing to tell them apart,
    and the listing comes back in submission order 1, 2, 3, not 3, 2, 1. *)
Theorem GetRSVPsForGame_three_within_a_second :
  let db1 := sample.submit sample.db_rsvplist 5000 1 1 RSVPStatusAttending in
  let db2 := sample.submit db1 5010 2 1 RSVPStatusNotAttending in
  let db3 := sample.submit db2 5020 3 1 RSVPStatusMaybe in
  exists l,
    GetRSVPsForGame db3 1 = Ok l /\
    map RSVP_UserID l = [1; 2; 3] /\
    map RSVP_UpdatedAt l = [5; 5; 5] /\
    map RSVP_UserID l <> [3; 2; 1].
Proof.
  simpl. eexists. split; [vm_compute; reflexivity |].
  repeat split. discriminate.
Qed.

(** [CreateOrUpdateRSVP_upsert] on the sample store: user 1 answers
    "attending" at second 5 and "maybe" at second 65. *)
Lemma CreateOrUpdateRSVP_upsert_witness :
  let first := mkRSVP 0 1 1 RSVPStatusAttending 0 0 "" in
  let second := mkRSVP 0 1 1 RSVPStatusMaybe 0 0 "" in
  let db1 := fst (CreateOrUpdateRSVP sample.db_rsvplist 5 first) in
  let db2 := fst (CreateOrUpdateRSVP db1 65 second) in
  UNIQUE_rsvps sample.db_rsvplist /\ 5 <= 65 /\
  rsvps_of_pair db1 1 1 = [mk_rsvps_row 1 1 1 "attending" 5 5] /\
  rsvps_of_pair db2 1 1 = [mk_rsvps_row 1 1 1 "maybe" 5 65].
Proof.
  intros first second db1 db2.
  assert (UNIQUE_rsvps sample.db_rsvplist) as HU by constructor.
  assert (5 <= 65) as Ht by lia.
  destruct (CreateOrUpdateRSVP_upsert sample.db_rsvplist 5 65 first second
              HU eq_refl eq_refl Ht)
    as (_ & _ & _ & _ & (r1 & Hr1 & _ & Hr2 & _) & _).
  assert (rsvps_of_pair db1 1 1 = [mk_rsvps_row 1 1 1 "attending" 5 5]) as E
    by reflexivity.
  split; [exact HU | split; [exact Ht | split; [exact E |]]].
  change (rsvps_of_pair db1 1 1 = [r1]) in Hr1.
  rewrite E in Hr1. injection Hr1 as <-. exact Hr2.
Defined.

(** [GetChatMessagesForGame_oldest_first] on the store of the chat test. *)
Lemma GetChatMessagesForGame_oldest_first_witness :
  FOREIGN_KEY_chat_messages_user sample.db_chat /\
  exists l,
    GetChatMessagesForGame sample.db_chat 1 = Ok l /\
    Permutation (map ChatMessage_row l) (chat_messages_of_game sample.db_chat 1) /\
    Sorted (fun x y => ChatMessage_CreatedAt x <= ChatMessage_CreatedAt y) l.
Proof.
  assert (FOREIGN_KEY_chat_messages_user sample.db_chat) as FK.
  { repeat constructor; eexists; reflexivity. }
  split; [exact FK |].
  destruct (GetChatMessagesForGame_oldest_first sample.db_chat 1 FK)
    as (l & H1 & H2 & H3 & _).
  exists l. auto.
Defined.

(** ** Handlers *)

Lemma World_eta (W : World) : mkWorld (db W) (SessionStore W) = W.
Proof. now destruct W. Qed.

Ltac break_match :=
  match goal with
  | |- context [match ?x with _ => _ end] => destruct x eqn:?
  | H : context [match ?x with _ => _ end] |- _ => destruct x eqn:?
  end.

Lemma Login_issued `{bcrypt} (W : World) (env : Env) (r : Request) (c : Cookie) :
  In c (SetCookies (snd (Login W env r))) ->
  Name c = sessionCookieName /\
  db (fst (Login W env r)) = db W /\
  exists user,
    SessionStore (fst (Login W env r)) = <[Value c := User_ID user]> (SessionStore W).
Proof.
  unfold Login. repeat break_match; cbn; try tauto.
  intros [<- | []]. cbn. eauto.
Qed.

Lemma String_eqb_false (a b : string) : a <> b -> String.eqb a b = false.
Proof. apply String.eqb_neq. Qed.

(** C4.  After a login that issued a session cookie, requests carrying the
    cookie are authenticated.  [Logout] with that cookie removes the token
    and redirects to /login; from then on a request carrying the old cookie
    is not authenticated: [IsAuthenticated] is false, [GetCurrentUser] fails
    and [AuthMiddleware] redirects to /login without running the handler.
    Revoking a token the registry does not hold changes nothing and gets
    the same redirect, so logging out twice is harmless. *)
Theorem Logout_revokes_session `{bcrypt}
  (W0 : World) (env : Env) (login logout : Request) (cookie : Cookie) :
  let W1 := fst (Login W0 env login) in
  let W2 := fst (Logout W1 logout) in
  In cookie (SetCookies (snd (Login W0 env login))) ->
  Request_Cookie logout sessionCookieName = Ok (Value cookie) ->
  (forall r, Request_Cookie r sessionCookieName = Ok (Value cookie) ->
     IsAuthenticated W1 r = true) /\
  snd (Logout W1 logout)
  = Redirect (SetCookie w0 (mkCookie sessionCookieName "" "/" 0 true (TLS logout) "Lax"))
      "/login" StatusSeeOther /\
  (forall r, Request_Cookie r sessionCookieName = Ok (Value cookie) ->
     IsAuthenticated W2 r = false /\
     GetCurrentUser W2 r = Err ErrInvalidSessionToken /\
     forall next env',
       AuthMiddleware next W2 env' r = (W2, Redirect w0 "/login" StatusSeeOther)) /\
  (forall (W : World) (r : Request) (token : string),
     Request_Cookie r sessionCookieName = Ok token ->
     SessionStore W !! token = None ->
     fst (Logout W r) = W /\
     snd (Logout W r)
     = Redirect (SetCookie w0 (mkCookie sessionCookieName "" "/" 0 true (TLS r) "Lax"))
         "/login" StatusSeeOther) /\
  fst (Logout W2 logout) = W2.
Proof.
  intros W1 W2 Hissued Hcookie.
  destruct (Login_issued W0 env login cookie Hissued) as (_ & _ & user & Hstore).
  fold W1 in Hstore.
  assert (Hidem : forall (W : World) (r : Request) (token : string),
     Request_Cookie r sessionCookieName = Ok token ->
     SessionStore W !! token = None ->
     fst (Logout W r) = W /\
     snd (Logout W r)
     = Redirect (SetCookie w0 (mkCookie sessionCookieName "" "/" 0 true (TLS r) "Lax"))
         "/login" StatusSeeOther).
  { intros W r token Hr Hnone. unfold Logout. rewrite Hr. cbn.
    rewrite (delete_id _ _ Hnone). split; [apply World_eta | reflexivity]. }
  assert (Hgone : SessionStore W2 !! Value cookie = None).
  { subst W2. unfold Logout. rewrite Hcookie. cbn. apply lookup_delete_eq. }
  split; [| split; [| split; [| split]]].
  - intros r Hr. unfold IsAuthenticated. rewrite Hr, Hstore, lookup_insert_eq. reflexivity.
  - unfold Logout. now rewrite Hcookie.
  - intros r Hr. split; [| split].
    + unfold IsAuthenticated. now rewrite Hr, Hgone.
    + unfold GetCurrentUser. now rewrite Hr, Hgone.
    + intros next env'. unfold AuthMiddleware, IsAuthenticated. now rewrite Hr, Hgone.
  - exact Hidem.
  - now apply (Hidem W2 logout (Value cookie)).
Qed.



(** Registration *)

Lemma QueryRow_app_ok {A : Type} (l : list A) (x : A) :
  exists y, QueryRow (l ++ [x]) = Ok y.
Proof. destruct l; simpl; eauto. Qed.

Lemma INSERT_users_spec (d : DB) (now : Z) (email hash : string) :
  (users_with_email d email <> [] /\
   INSERT_users d now email hash = Err (ErrUniqueConstraint "users.email")) \/
  (users_with_email d email = [] /\
   exists id d',
     INSERT_users d now email hash = Ok (d', id) /\
     users d' = users d ++ [mk_users_row id email hash now] /\
     games d' = games d /\ rsvps d' = rsvps d /\ chat_messages d' = chat_messages d).
Proof.
  unfold INSERT_users, users_with_email.
  destruct (existsb _ (users d)) eqn:E.
  - left. split; [| reflexivity]. intros Hnil.
    apply existsb_filter_nil in Hnil. congruence.
  - right. split; [now apply existsb_filter_nil |].
    eexists _, _. repeat split.
Qed.

Lemma CreateUser_spec `{bcrypt} (d : DB) (now : Z) (salt email password : string) :
  (fst (CreateUser d now salt email password) = d /\
   exists e, snd (CreateUser d now salt email password) = Err e) \/
  (users_with_email d email = [] /\
   exists id hash u,
     GenerateFromPassword salt password = Ok hash /\
     snd (CreateUser d now salt email password) = Ok u /\
     users (fst (CreateUser d now salt email password))
     = users d ++ [mk_users_row id email hash now]).
Proof.
  unfold CreateUser.
  destruct (GenerateFromPassword salt password) as [hash | e]; [| left; cbn; eauto].
  destruct (INSERT_users_spec d now email hash) as [[_ ->] | (Hnone & id & d' & -> & Hu & _)].
  - left. cbn. eauto.
  - right. split; [exact Hnone |]. cbn.
    assert (exists u, GetUserByID d' id = Ok u) as [u Hu'].
    { unfold GetUserByID. rewrite Hu, List.filter_app. cbn. rewrite Z.eqb_refl.
      rewrite map_app. apply QueryRow_app_ok. }
    exists id, hash, u. rewrite Hu'. auto.
Qed.

(** What a request to [Register] does to the store: nothing, or one new
    user whose email no stored user had. *)
Lemma Register_db `{bcrypt} (W : World) (env : Env) (r : Request) :
  SessionStore (fst (Register W env r)) = SessionStore W /\
  (fst (Register W env r) = W /\
   snd (Register W env r) <> Redirect w0 "/login" StatusSeeOther
   \/
   exists form id hash,
     Method r = MethodPost /\ Form r = Some form /\
     FormValue form "email" <> "" /\
     users_with_email (db W) (FormValue form "email") = [] /\
     users (db (fst (Register W env r)))
     = users (db W) ++ [mk_users_row id (FormValue form "email") hash (now env)] /\
     snd (Register W env r) = Redirect w0 "/login" StatusSeeOther).
Proof.
  unfold Register.
  destruct (String.eqb (Method r) MethodPost) eqn:Hm; cbn;
    [| split; [reflexivity | left; split; [reflexivity | discriminate]]].
  destruct (Form r) as [form |] eqn:Hf;
    [| split; [reflexivity | left; split; [reflexivity | discriminate]]].
  destruct (String.eqb (FormValue form "email") "") eqn:He; cbn;
    [split; [reflexivity | left; split; [reflexivity | discriminate]] |].
  destruct (String.eqb (FormValue form "password") "") eqn:Hp; cbn;
    [split; [reflexivity | left; split; [reflexivity | discriminate]] |].
  destruct (String.eqb (FormValue form "password") (FormValue form "confirm_password"));
    cbn; [| split; [reflexivity | left; split; [reflexivity | discriminate]]].
  destruct (GetUserByEmail (db W) (FormValue form "email")) as [u | e] eqn:Hg;
    [split; [reflexivity | left; split; [reflexivity | discriminate]] |].
  destruct e; try (split; [reflexivity | left; split; [reflexivity | discriminate]]).
  destruct (CreateUser_spec (db W) (now env) (salt env) (FormValue form "email")
              (FormValue form "password"))
    as [(Hsame & e & Herr) | (Hnone & id & hash & u & _ & Hok & Husers)].
  - destruct (CreateUser _ _ _ _ _) as [d' res]. cbn in *. subst d' res.
    split; [reflexivity | left]. split; [apply World_eta | discriminate].
  - destruct (CreateUser _ _ _ _ _) as [d' res]. cbn in *. subst res.
    split; [reflexivity | right].
    exists form, id, hash. apply String.eqb_eq in Hm. apply String.eqb_neq in He.
    repeat split; trivial.
Qed.

Lemma UNIQUE_users_email_snoc (us : list users_row) (row : users_row) :
  NoDup (map u_email us) ->
  List.filter (fun u => String.eqb (u_email u) (u_email row)) us = [] ->
  NoDup (map u_email (us ++ [row])).
Proof.
  intros ND Hnone. rewrite map_app. cbn.
  apply NoDup_app. split; [exact ND |]. split; [| apply NoDup_singleton].
  intros e He He'. apply list_elem_of_In in He, He'. destruct He' as [<- | []].
  apply in_map_iff in He as (u & Hu & Hin).
  pose proof (filter_nil_none _ _ u Hnone Hin) as E. cbn in E.
  apply String.eqb_neq in E. contradiction.
Qed.


Lemma valid_status_spec (status : string) :
  valid_status status = true <->
  status = RSVPStatusAttending \/ status = RSVPStatusNotAttending \/ status = RSVPStatusMaybe.
Proof.
  unfold valid_status. rewrite !orb_true_iff, !String.eqb_eq. tauto.
Qed.

Lemma ParseInt_nonempty (s : string) (n : Z) :
  strconv.ParseInt s = Some n -> String.eqb s "" = false.
Proof. destruct s; [discriminate | reflexivity]. Qed.

(** C2.  [SubmitRSVP] checks the submitted status against the three
    values [attending], [not_attending] and [maybe] before it calls the
    upsert.  A submission whose status is none of them never changes the
    store or the session registry, whatever else is wrong with the request,
    and once the request has passed the checks that come first (method,
    session, game id in the path) the answer is the 400 response "Invalid
    RSVP status value".  With one of the three values the store becomes what
    [CreateOrUpdateRSVP] makes of it. *)
Theorem SubmitRSVP_rejects_invalid_status
  (W : World) (env : Env) (r : Request) (form : list (string * string)) :
  Form r = Some form ->
  FormValue form "status" <> RSVPStatusAttending ->
  FormValue form "status" <> RSVPStatusNotAttending ->
  FormValue form "status" <> RSVPStatusMaybe ->
  fst (SubmitRSVP W env r) = W /\
  (forall (currentUser : User) (gameID : Z),
     Method r = MethodPost ->
     GetCurrentUser W r = Ok currentUser ->
     strconv.ParseInt (gameIDStr_of (URL_Path r) "/rsvp") = Some gameID ->
     snd (SubmitRSVP W env r) = Error_ w0 "Invalid RSVP status value" StatusBadRequest) /\
  (forall (r' : Request) (form' : list (string * string)) (currentUser : User) (gameID : Z),
     Method r' = MethodPost ->
     GetCurrentUser W r' = Ok currentUser ->
     strconv.ParseInt (gameIDStr_of (URL_Path r') "/rsvp") = Some gameID ->
     Form r' = Some form' ->
     valid_status (FormValue form' "status") = true ->
     db (fst (SubmitRSVP W env r'))
     = fst (CreateOrUpdateRSVP (db W) (now env)
              (mkRSVP 0 (User_ID currentUser) gameID (FormValue form' "status") 0 0 ""))).
Proof.
  intros Hf H1 H2 H3.
  assert (Hinvalid : valid_status (FormValue form "status") = false).
  { destruct (valid_status _) eqn:E; [| reflexivity].
    apply valid_status_spec in E. tauto. }
  split; [| split].
  - unfold SubmitRSVP. rewrite Hf.
    repeat break_match; try reflexivity; rewrite Hinvalid in *; discriminate.
  - intros currentUser gameID Hm Hu Hg. unfold SubmitRSVP.
    rewrite Hm, Hu, Hg, (ParseInt_nonempty _ _ Hg), Hf, Hinvalid. reflexivity.
  - intros r' form' currentUser gameID Hm Hu Hg Hf' Hvalid. unfold SubmitRSVP.
    rewrite Hm, Hu, Hg, (ParseInt_nonempty _ _ Hg), Hf', Hvalid. cbn.
    destruct (CreateOrUpdateRSVP _ _ _) as [d' res]. cbn.
    repeat break_match; reflexivity.
Qed.

Lemma QueryRow_In {A : Type} (l : list A) (x : A) :
  In x l -> exists y, QueryRow l = Ok y.
Proof. destruct l; [intros [] | cbn; eauto]. Qed.

Lemma GetUserByID_In (d : DB) (id : Z) (u : User) :
  GetUserByID d id = Ok u ->
  exists row, In row (users d) /\ u_id row = id /\ scan_user row = u.
Proof.
  unfold GetUserByID. destruct (List.filter _ (users d)) as [|row l] eqn:E; [discriminate |].
  cbn. intros [= <-].
  assert (In row (List.filter (fun u => u_id u =? id) (users d))) as Hin
    by (rewrite E; now left).
  apply filter_In in Hin as [Hin Hid]. apply Z.eqb_eq in Hid. eauto.
Qed.

Lemma GetCurrentUser_In (W : World) (r : Request) (u : User) :
  GetCurrentUser W r = Ok u ->
  exists row, In row (users (db W)) /\ u_id row = User_ID u /\ scan_user row = u.
Proof.
  unfold GetCurrentUser. repeat break_match; try discriminate.
  intros Hu. destruct (GetUserByID_In _ _ _ Hu) as (row & Hin & Hid & Hs).
  exists row. repeat split; trivial. now rewrite <- Hs.
Qed.

(** [CreateChatMessage] appends one row stamped with the current time; it
    reads the row back joined with its author, which succeeds when the
    author is in [users]. *)
Lemma CreateChatMessage_spec (d : DB) (now : Z) (m : ChatMessage) :
  exists id,
    let row := mk_chat_messages_row id (ChatMessage_GameID m) (ChatMessage_UserID m)
                 (ChatMessage_MessageContent m) now in
    chat_messages (fst (CreateChatMessage d now m)) = chat_messages d ++ [row] /\
    users (fst (CreateChatMessage d now m)) = users d /\
    games (fst (CreateChatMessage d now m)) = games d /\
    rsvps (fst (CreateChatMessage d now m)) = rsvps d /\
    ((exists u, In u (users d) /\ u_id u = ChatMessage_UserID m) ->
     exists x, snd (CreateChatMessage d now m) = Ok x).
Proof.
  unfold CreateChatMessage. cbn. eexists. repeat split.
  intros (u & Hin & Hid).
  eapply QueryRow_In. apply in_map. apply filter_In. split.
  - apply JOIN_users_In. split; [| split; [exact Hin |]].
    + apply in_or_app. right. now left.
    + cbn. now rewrite Hid.
  - cbn. apply Z.eqb_refl.
Qed.


(** [SubmitRSVP_rejects_invalid_status] for a logged-in user who submits
    "perhaps". *)
Lemma SubmitRSVP_rejects_invalid_status_witness :
  let r := post "/games/1/rsvp" session [("status", "perhaps")] in
  SubmitRSVP W_logged_in (env_at 30) r
  = (W_logged_in, Error_ w0 "Invalid RSVP status value" StatusBadRequest).
Proof.
  intros r.
  destruct (SubmitRSVP_rejects_invalid_status W_logged_in (env_at 30) r
              [("status", "perhaps")] eq_refl)
    as (Hstore & Hresponse & _); try discriminate.
  rewrite (surjective_pairing (SubmitRSVP W_logged_in (env_at 30) r)).
  rewrite Hstore.
  rewrite (Hresponse (mkUser 1 "a@x.com" "s1$pw1" 10) 1); reflexivity.
Defined.


(** [Logout_revokes_session] for the sample user. *)
Lemma Logout_revokes_session_witness :
  let login := post "/login" [] [("email", "a@x.com"); ("password", "pw1")] in
  let logout := post "/logout" session [] in
  let later := post "/games/1/rsvp" session [("status", "maybe")] in
  let W1 := fst (@Login sample.toy_bcrypt W_registered (env_at 30) login) in
  let W2 := fst (Logout W1 logout) in
  IsAuthenticated W1 later = true /\
  IsAuthenticated W2 later = false /\
  AuthMiddleware SubmitRSVP W2 (env_at 40) later = (W2, Redirect w0 "/login" StatusSeeOther) /\
  fst (Logout W2 logout) = W2.
Proof.
  intros login logout later W1 W2.
  destruct (@Logout_revokes_session sample.toy_bcrypt W_registered (env_at 30) login logout
              (mkCookie sessionCookieName "tok-1" "/" (30 + 24 * 3600) true false "Lax"))
    as (Hin & _ & Hout & _ & Hagain).
  - now left.
  - reflexivity.
  - destruct (Hout later eq_refl) as (Hno & _ & Hgate).
    split; [apply Hin; reflexivity | split; [exact Hno | split; [apply Hgate | exact Hagain]]].
Defined.



(** ** Concurrent requests and the session registry *)

Import registry.

Lemma lock_invariant_step (s s' : state) :
  step s s' -> lock_invariant s -> lock_invariant s'.
Proof.
  intros Hstep Hinv. destruct Hstep as [h ts i rest Hi ->|h ts i rest Hi ->|h ts i o rest Hi Ho];
    intros j t Hj; cbn in *.
  - destruct (decide (i = j)) as [<- | Hne].
    + rewrite list_lookup_insert_eq in Hj by (now apply lookup_lt_Some in Hi).
      injection Hj as <-. rewrite bool_decide_eq_true_2 by reflexivity.
      specialize (Hinv i _ Hi). cbn in Hinv. exact Hinv.
    + rewrite list_lookup_insert_ne in Hj by exact Hne.
      specialize (Hinv j _ Hj). cbn in Hinv.
      rewrite bool_decide_eq_false_2 by congruence. exact Hinv.
  - destruct (decide (i = j)) as [<- | Hne].
    + rewrite list_lookup_insert_eq in Hj by (now apply lookup_lt_Some in Hi).
      injection Hj as <-.
      specialize (Hinv i _ Hi). cbn in Hinv.
      rewrite bool_decide_eq_true_2 in Hinv by reflexivity. exact Hinv.
    + rewrite list_lookup_insert_ne in Hj by exact Hne.
      specialize (Hinv j _ Hj). cbn in Hinv.
      rewrite bool_decide_eq_false_2 in Hinv by congruence. exact Hinv.
  - destruct (decide (i = j)) as [<- | Hne].
    + rewrite list_lookup_insert_eq in Hj by (now apply lookup_lt_Some in Hi).
      injection Hj as <-.
      specialize (Hinv i _ Hi). cbn in Hinv.
      destruct o; try discriminate; cbn in Hinv;
        apply andb_true_iff in Hinv as [-> Hrest]; exact Hrest.
    + rewrite list_lookup_insert_ne in Hj by exact Hne.
      exact (Hinv j _ Hj).
Qed.

Lemma lock_invariant_no_race (s : state) : lock_invariant s -> ~ racing s.
Proof.
  intros Hinv (i & j & a & b & ra & rb & Hne & Hi & Hj & Hc).
  unfold conflict in Hc. apply andb_true_iff in Hc as [Hc _].
  apply andb_true_iff in Hc as [Ha Hb].
  pose proof (Hinv i _ Hi) as Wi. pose proof (Hinv j _ Hj) as Wj.
  assert (holder s = Some i).
  { destruct a; try discriminate; cbn in Wi; apply andb_true_iff in Wi as [Wi _];
      now apply bool_decide_eq_true in Wi. }
  assert (holder s = Some j).
  { destruct b; try discriminate; cbn in Wj; apply andb_true_iff in Wj as [Wj _];
      now apply bool_decide_eq_true in Wj. }
  congruence.
Qed.

(** In this model a mutex does what it is for: threads that touch the map
    only between [Lock] and [Unlock] never race. *)
Lemma well_locked_race_free (pool : list (list op)) :
  Forall (fun t => well_locked false t = true) pool -> race_free pool.
Proof.
  intros Hpool s Hreach. apply lock_invariant_no_race.
  assert (lock_invariant (init pool)) as H0.
  { intros i t Hi. cbn in *. rewrite Forall_lookup in Hpool. exact (Hpool i t Hi). }
  induction Hreach as [|s1 s2 s3 Hstep _ IH]; [exact H0 |].
  apply IH. exact (lock_invariant_step _ _ Hstep H0).
Qed.

Lemma with_Mutex_well_locked (t : list op) :
  handler_accesses t -> well_locked false (with_Mutex t) = true.
Proof. now destruct 1. Qed.

(** C3, as stated, fails: a login and an authentication check in flight
    together are both ready to touch the map, one of them writing. *)
Lemma SessionStore_race :
  ~ race_free [Login_accesses "tok-1" 1; IsAuthenticated_accesses "tok-1"].
Proof.
  intros Hfree. apply (Hfree (init [Login_accesses "tok-1" 1; IsAuthenticated_accesses "tok-1"])).
  - constructor.
  - exists 0%nat, 1%nat, (Write "tok-1" 1), (Read "tok-1"), [], [].
    repeat split. discriminate.
Qed.

(** C3.  None of the accesses to [SessionStore] is inside a critical
    section: the functions that touch the map perform one bare access each.
    Hence a request that writes the map (login, logout) and any other
    request that touches it can be at their accesses at the same time, a
    data race.  Run one after the other, the accesses are the map's insert,
    delete and lookup. *)
Theorem SessionStore_not_serialized :
  (forall t, handler_accesses t -> Forall (fun o => is_access o = true) t) /\
  (forall t, handler_accesses t -> t <> [] /\ well_locked false t = false) /\
  (forall t1 t2, handler_accesses t1 -> handler_accesses t2 ->
     existsb is_write t1 = true -> ~ race_free [t1; t2]) /\
  (forall (W : World) (r : Request) (sessionToken : string),
     Request_Cookie r sessionCookieName = Ok sessionToken ->
     SessionStore (fst (Logout W r))
     = run (Logout_accesses sessionToken) (SessionStore W) /\
     IsAuthenticated W r
     = bool_decide (is_Some (run (IsAuthenticated_accesses sessionToken) (SessionStore W)
                               !! sessionToken)) /\
     GetCurrentUser W r
     = match run (GetCurrentUser_accesses sessionToken) (SessionStore W)
             !! sessionToken with
       | Some userID => GetUserByID (db W) userID
       | None => Err ErrInvalidSessionToken
       end) /\
  (forall (bc : bcrypt) (W : World) (env : Env) (r : Request) (cookie : Cookie),
     In cookie (SetCookies (snd (Login W env r))) ->
     exists user,
       SessionStore (fst (Login W env r))
       = run (Login_accesses (Value cookie) (User_ID user)) (SessionStore W)).
Proof.
  split; [| split; [| split; [| split]]].
  - intros t []; repeat constructor.
  - intros t []; split; (discriminate || reflexivity).
  - intros t1 t2 H1 H2 Hw Hfree.
    apply (Hfree (init [t1; t2])); [constructor |].
    destruct H1; try discriminate; destruct H2;
      (eexists 0%nat, 1%nat, _, _, _, _; repeat split; [discriminate | reflexivity ..]).
  - intros W r sessionToken Hr. split; [| split].
    + unfold Logout. now rewrite Hr.
    + unfold IsAuthenticated. rewrite Hr. cbn.
      destruct (SessionStore W !! sessionToken) eqn:E.
      * symmetry. apply bool_decide_eq_true_2. eauto.
      * symmetry. apply bool_decide_eq_false_2. intros [x Hx]. congruence.
    + unfold GetCurrentUser. rewrite Hr. cbn.
      now destruct (SessionStore W !! sessionToken).
  - intros bc W env r cookie Hissued.
    destruct (Login_issued W env r cookie Hissued) as (_ & _ & user & Hstore).
    now exists user.
Qed.

(** [SessionStore_not_serialized] for a logout and a handler that looks the
    user up. *)
Lemma SessionStore_not_serialized_witness :
  ~ race_free [Logout_accesses "tok-1"; GetCurrentUser_accesses "tok-1"] /\
  well_locked false (Login_accesses "tok-1" 1) = false /\
  race_free [with_Mutex (Logout_accesses "tok-1");
             with_Mutex (GetCurrentUser_accesses "tok-1")].
Proof.
  destruct SessionStore_not_serialized as (_ & Hbare & Hrace & _ & _).
  split; [| split].
  - apply Hrace; [constructor | constructor | reflexivity].
  - apply (Hbare _ (accesses_Login "tok-1" 1)).
  - apply well_locked_race_free. repeat constructor.
Defined.

(** * Further properties: the store, the sessions, the pages and the router *)

Import integrity.

(** ** The store *)

Lemma fold_max_ge (seq : Z) (ids : list Z) :
  seq <= fold_right Z.max seq ids /\ forall i, In i ids -> i <= fold_right Z.max seq ids.
Proof.
  induction ids as [|a ids [IH1 IH2]]; simpl.
  - split; [lia | intros i []].
  - split; [lia |]. intros i [<- | Hi]; [lia |]. specialize (IH2 i Hi). lia.
Qed.

Lemma AUTOINCREMENT_fresh (seq : Z) (ids : list Z) (i : Z) :
  In i ids -> i < AUTOINCREMENT seq ids.
Proof.
  intros Hi. unfold AUTOINCREMENT. pose proof (proj2 (fold_max_ge seq ids) i Hi). lia.
Qed.

Lemma NoDup_snoc_fresh (ids : list Z) (x : Z) :
  NoDup ids -> (forall i, In i ids -> i < x) -> NoDup (ids ++ [x]).
Proof.
  intros ND Hlt. apply NoDup_app. split; [exact ND |]. split; [| apply NoDup_singleton].
  intros i Hi Hx. apply list_elem_of_In in Hi, Hx. destruct Hx as [<- | []].
  specialize (Hlt _ Hi). lia.
Qed.

Lemma filter_ext_in' {A : Type} (f g : A -> bool) (l : list A) :
  (forall x, In x l -> f x = g x) -> List.filter f l = List.filter g l.
Proof.
  induction l as [|a l IH]; simpl; intros H; [reflexivity |].
  rewrite (H a) by now left. rewrite IH; [reflexivity |]. intros x Hx. apply H. now right.
Qed.

(** Selecting on the left table commutes with the join. *)
Lemma JOIN_users_filter {A : Type} (user_id : A -> Z) (f : A -> bool)
  (t : list A) (us : list users_row) :
  List.filter (fun xu => f (fst xu)) (JOIN_users user_id t us)
  = JOIN_users user_id (List.filter f t) us.
Proof.
  unfold JOIN_users. induction t as [|x t IH]; simpl; [reflexivity |].
  rewrite List.filter_app, IH. destruct (f x) eqn:E; simpl.
  - f_equal. induction (List.filter _ us) as [|u l IHl]; simpl; [reflexivity |].
    now rewrite E, IHl.
  - rewrite (filter_nil_of_none (fun xu : A * users_row => f (fst xu))); [reflexivity |].
    intros [y u] Hin. apply in_map_iff in Hin as (u' & [= <- <-] & _). exact E.
Qed.

Lemma users_by_id_sym (us : list users_row) (id : Z) :
  List.filter (fun u => id =? u_id u) us = List.filter (fun u => u_id u =? id) us.
Proof. apply filter_ext_in'. intros u _. apply Z.eqb_sym. Qed.

Lemma nil_iff_no_elem {A : Type} (l : list A) : l = [] <-> forall x, ~ In x l.
Proof.
  split; [intros -> x [] |]. destruct l as [|a l]; [reflexivity |].
  intros H. destruct (H a). now left.
Qed.

Lemma QueryRow_Err {A : Type} (l : list A) (e : error) :
  QueryRow l = Err e <-> l = [] /\ e = ErrNoRows.
Proof.
  destruct l; cbn; split; try discriminate.
  - intros [= <-]. auto.
  - intros [_ ->]. reflexivity.
  - intros [? _]. discriminate.
Qed.

Lemma map_nil_iff {A B : Type} (f : A -> B) (l : list A) : map f l = [] <-> l = [].
Proof. destruct l; cbn; split; congruence. Qed.

(** X2.  [GetRSVPByUserForGame] answers [sql.ErrNoRows] exactly when the
    user has no row for the game or the user of the row is missing from
    [users], which makes the JOIN drop the row; it has no other error. *)
Theorem GetRSVPByUserForGame_not_found (db : DB) (userID gameID : Z) :
  (GetRSVPByUserForGame db userID gameID = Err ErrNoRows <->
   rsvps_of_pair db userID gameID = [] \/ GetUserByID db userID = Err ErrNoRows) /\
  (forall e, GetRSVPByUserForGame db userID gameID = Err e -> e = ErrNoRows).
Proof.
  split; [| intros e He; now apply QueryRow_Err in He].
  unfold GetRSVPByUserForGame, GetUserByID, rsvps_of_pair.
  rewrite !QueryRow_Err, !map_nil_iff.
  split.
  - intros [Hnil _].
    destruct (List.filter (same_pair userID gameID) (rsvps db)) as [|r l] eqn:Er;
      [now left | right].
    split; [| reflexivity].
    destruct (List.filter (fun u => u_id u =? userID) (users db)) as [|u us] eqn:Eu;
      [reflexivity | exfalso].
    assert (In r (List.filter (same_pair userID gameID) (rsvps db))) as Hr
      by (rewrite Er; now left).
    assert (In u (List.filter (fun u => u_id u =? userID) (users db))) as Hu
      by (rewrite Eu; now left).
    apply filter_In in Hr as [Hr Hpair]. apply filter_In in Hu as [Hu Hid].
    apply Z.eqb_eq in Hid.
    apply (proj1 (nil_iff_no_elem _) Hnil (r, u)).
    apply filter_In. split; [| exact Hpair].
    apply JOIN_users_In. repeat split; trivial.
    apply same_pair_spec in Hpair. congruence.
  - intros Hnone. split; [| reflexivity].
    apply nil_iff_no_elem. intros [r u] Hin.
    apply filter_In in Hin as [Hin Hpair]. cbn in Hpair.
    apply JOIN_users_In in Hin as (Hr & Hu & E).
    destruct Hnone as [Hnone | [Hnone _]].
    + apply (proj1 (nil_iff_no_elem _) Hnone r). apply filter_In. auto.
    + apply (proj1 (nil_iff_no_elem _) Hnone u). apply filter_In. split; [exact Hu |].
      apply same_pair_spec in Hpair. apply Z.eqb_eq. congruence.
Qed.

Lemma filter_DO_UPDATE_other (f : rsvps_row -> bool) (now u g : Z) (st : string)
  (l : list rsvps_row) :
  (forall r, f (DO_UPDATE now u g st r) = f r) ->
  (forall r, same_pair u g r = true -> f r = false) ->
  List.filter f (map (DO_UPDATE now u g st) l) = List.filter f l.
Proof.
  intros Hsame Hother. induction l as [|r l IH]; cbn; [reflexivity |].
  rewrite Hsame, IH. destruct (f r) eqn:E; [| reflexivity].
  f_equal. unfold DO_UPDATE. destruct (same_pair u g r) eqn:E'; [| reflexivity].
  rewrite (Hother r E') in E. discriminate.
Qed.

Lemma CreateOrUpdateRSVP_untouched (db : DB) (now : Z) (rsvp : RSVP) :
  let db' := fst (CreateOrUpdateRSVP db now rsvp) in
  users db' = users db /\
  games db' = games db /\
  chat_messages db' = chat_messages db /\
  (forall user_id game_id,
     (user_id, game_id) <> (RSVP_UserID rsvp, RSVP_GameID rsvp) ->
     rsvps_of_pair db' user_id game_id = rsvps_of_pair db user_id game_id) /\
  (forall game_id,
     game_id <> RSVP_GameID rsvp ->
     rsvps_of_game db' game_id = rsvps_of_game db game_id).
Proof.
  intros db'. subst db'. unfold CreateOrUpdateRSVP, rsvps_of_pair, rsvps_of_game.
  destruct (existsb _ (rsvps db)) eqn:E; cbn.
  - split; [reflexivity | split; [reflexivity | split; [reflexivity | split]]].
    + intros u g Hne. apply filter_DO_UPDATE_other.
      * intros r. apply same_pair_DO_UPDATE.
      * intros r Hr. destruct (same_pair u g r) eqn:E'; [| reflexivity].
        apply same_pair_spec in Hr, E'. congruence.
    + intros g Hne. apply (filter_DO_UPDATE_other (fun r => r_game_id r =? g)).
      * intros r. pose proof (DO_UPDATE_pair now (RSVP_UserID rsvp) (RSVP_GameID rsvp)
                                (RSVP_Status rsvp) r) as H. now injection H as _ ->.
      * intros r Hr. apply same_pair_spec in Hr. injection Hr as _ Hr.
        apply Z.eqb_neq. congruence.
  - split; [reflexivity | split; [reflexivity | split; [reflexivity | split]]].
    + intros u g Hne. rewrite List.filter_app. cbn.
      destruct (same_pair u g _) eqn:E'; [| apply app_nil_r].
      apply same_pair_spec in E'. cbn in E'. congruence.
    + intros g Hne. rewrite List.filter_app. cbn.
      destruct (RSVP_GameID rsvp =? g) eqn:E'; [| apply app_nil_r].
      apply Z.eqb_eq in E'. congruence.
Qed.

(** X3.  What [CreateOrUpdateRSVP] leaves alone: the tables [users],
    [games] and [chat_messages], the rows of every other pair of user and
    game, and all the rows of every other game; so [GetRSVPByUserForGame]
    answers as before for every other pair, [GetRSVPsForGame] for every
    other game, and [GetChatMessagesForGame] for every game. *)
Theorem CreateOrUpdateRSVP_frame (db : DB) (now : Z) (rsvp : RSVP) :
  let db' := fst (CreateOrUpdateRSVP db now rsvp) in
  users db' = users db /\
  games db' = games db /\
  chat_messages db' = chat_messages db /\
  (forall user_id game_id,
     (user_id, game_id) <> (RSVP_UserID rsvp, RSVP_GameID rsvp) ->
     rsvps_of_pair db' user_id game_id = rsvps_of_pair db user_id game_id /\
     GetRSVPByUserForGame db' user_id game_id = GetRSVPByUserForGame db user_id game_id) /\
  (forall game_id,
     game_id <> RSVP_GameID rsvp ->
     rsvps_of_game db' game_id = rsvps_of_game db game_id /\
     GetRSVPsForGame db' game_id = GetRSVPsForGame db game_id) /\
  (forall game_id,
     GetChatMessagesForGame db' game_id = GetChatMessagesForGame db game_id).
Proof.
  intros db'.
  destruct (CreateOrUpdateRSVP_untouched db now rsvp) as (Hu & Hg & Hc & Hpair & Hgame).
  fold db' in Hu, Hg, Hc, Hpair, Hgame.
  split; [exact Hu | split; [exact Hg | split; [exact Hc | split; [| split]]]].
  - intros user_id game_id Hne. specialize (Hpair user_id game_id Hne).
    split; [exact Hpair |]. unfold GetRSVPByUserForGame.
    rewrite !(JOIN_users_filter r_user_id). unfold rsvps_of_pair in Hpair.
    now rewrite Hpair, Hu.
  - intros game_id Hne. specialize (Hgame game_id Hne).
    split; [exact Hgame |]. unfold GetRSVPsForGame.
    rewrite !(JOIN_users_filter r_user_id (fun r => r_game_id r =? game_id)).
    unfold rsvps_of_game in Hgame. now rewrite Hgame, Hu.
  - intros game_id. unfold GetChatMessagesForGame. now rewrite Hc, Hu.
Qed.

Lemma QueryRow_cons {A : Type} (x : A) (l : list A) : QueryRow (x :: l) = Ok x.
Proof. reflexivity. Qed.

Lemma upsert_then_get (db : DB) (now : Z) (rsvp : RSVP) (user : User) :
  UNIQUE_rsvps db ->
  GetUserByID db (RSVP_UserID rsvp) = Ok user ->
  let db' := fst (CreateOrUpdateRSVP db now rsvp) in
  exists x,
    GetRSVPByUserForGame db' (RSVP_UserID rsvp) (RSVP_GameID rsvp) = Ok x /\
    RSVP_UserID x = RSVP_UserID rsvp /\
    RSVP_GameID x = RSVP_GameID rsvp /\
    RSVP_Status x = RSVP_Status rsvp /\
    RSVP_UpdatedAt x = now /\
    RSVP_UserEmail x = User_Email user /\
    (rsvps_of_pair db (RSVP_UserID rsvp) (RSVP_GameID rsvp) = [] ->
     RSVP_CreatedAt x = now) /\
    (forall r0, rsvps_of_pair db (RSVP_UserID rsvp) (RSVP_GameID rsvp) = [r0] ->
     RSVP_CreatedAt x = r_created_at r0 /\ RSVP_ID x = r_id r0).
Proof.
  intros Huniq Huser db'.
  assert (Hrow : exists row,
            rsvps_of_pair db' (RSVP_UserID rsvp) (RSVP_GameID rsvp) = [row] /\
            r_user_id row = RSVP_UserID rsvp /\ r_game_id row = RSVP_GameID rsvp /\
            r_status row = RSVP_Status rsvp /\ r_updated_at row = now /\
            (rsvps_of_pair db (RSVP_UserID rsvp) (RSVP_GameID rsvp) = [] ->
             r_created_at row = now) /\
            (forall r0, rsvps_of_pair db (RSVP_UserID rsvp) (RSVP_GameID rsvp) = [r0] ->
             r_created_at row = r_created_at r0 /\ r_id row = r_id r0)).
  { destruct (UNIQUE_rsvps_at_most_one db (RSVP_UserID rsvp) (RSVP_GameID rsvp) Huniq)
      as [Hnone | [r0 Hone]].
    - destruct (CreateOrUpdateRSVP_insert db now rsvp Hnone) as (id & _ & H).
      eexists. split; [exact H |]. cbn. repeat split; congruence.
    - destruct (CreateOrUpdateRSVP_update db now rsvp r0 Hone) as [_ H].
      eexists. split; [exact H |]. cbn. repeat split; congruence. }
  destruct Hrow as (row & Hrow & Hu & Hg & Hs & Ht & Hc0 & Hc1).
  assert (Husers : users db' = users db).
  { subst db'. unfold CreateOrUpdateRSVP. now destruct (existsb _ (rsvps db)). }
  unfold GetUserByID in Huser.
  destruct (List.filter (fun u => u_id u =? RSVP_UserID rsvp) (users db)) as [|u us] eqn:Eu;
    [discriminate |].
  cbn in Huser. injection Huser as <-.
  exists (scan_rsvp (row, u)). split.
  - unfold GetRSVPByUserForGame.
    rewrite (JOIN_users_filter r_user_id), Husers.
    unfold rsvps_of_pair in Hrow. rewrite Hrow.
    unfold JOIN_users. cbn. rewrite Hu, users_by_id_sym, Eu. cbn. now rewrite Hu.
  - cbn. split; [exact Hu | split; [exact Hg | split; [exact Hs | split; [exact Ht |]]]].
    split; [reflexivity | split; [exact Hc0 | exact Hc1]].
Qed.

(** X1.  Reading back an RSVP.  On a store where [UNIQUE (user_id,
    game_id)] holds, after [CreateOrUpdateRSVP] for a user the store has,
    [GetRSVPByUserForGame] for the same user and game returns an RSVP with
    the submitted status, the current time as its update time and the
    user's email.  For a first RSVP the creation time is the current time
    too; for a changed one the creation time and the id of the old row are
    kept. *)
Theorem GetRSVPByUserForGame_after_upsert (db : DB) (now : Z) (rsvp : RSVP) (user : User) :
  UNIQUE_rsvps db ->
  GetUserByID db (RSVP_UserID rsvp) = Ok user ->
  let db' := fst (CreateOrUpdateRSVP db now rsvp) in
  exists x,
    GetRSVPByUserForGame db' (RSVP_UserID rsvp) (RSVP_GameID rsvp) = Ok x /\
    RSVP_UserID x = RSVP_UserID rsvp /\
    RSVP_GameID x = RSVP_GameID rsvp /\
    RSVP_Status x = RSVP_Status rsvp /\
    RSVP_UpdatedAt x = now /\
    RSVP_UserEmail x = User_Email user /\
    (rsvps_of_pair db (RSVP_UserID rsvp) (RSVP_GameID rsvp) = [] ->
     RSVP_CreatedAt x = now) /\
    (forall r0, rsvps_of_pair db (RSVP_UserID rsvp) (RSVP_GameID rsvp) = [r0] ->
     RSVP_CreatedAt x = r_created_at r0 /\ RSVP_ID x = r_id r0).
Proof. apply upsert_then_get. Qed.

Lemma filter_by_fresh_id {A : Type} (get_id : A -> Z) (l : list A) (id : Z) :
  (forall i, In i (map get_id l) -> i < id) ->
  List.filter (fun x => get_id x =? id) l = [].
Proof.
  intros Hlt. apply filter_nil_of_none. intros x Hx. apply Z.eqb_neq.
  specialize (Hlt (get_id x) (in_map get_id l x Hx)). lia.
Qed.

(** X4.  [CreateUser] for an email no user has, with a password bcrypt
    hashes: the user returned carries the email, the hash and the current
    time, its id is larger than every id of the table, the table grows by
    this one row, and [GetUserByEmail] and [GetUserByID] both find it.
    Creating a user with the same email again fails and changes nothing. *)
Theorem CreateUser_round_trip `{bcrypt}
  (db : DB) (now : Z) (salt email password hash : string) :
  GenerateFromPassword salt password = Ok hash ->
  GetUserByEmail db email = Err ErrNoRows ->
  let db' := fst (CreateUser db now salt email password) in
  exists user,
    snd (CreateUser db now salt email password) = Ok user /\
    User_Email user = email /\
    User_PasswordHash user = hash /\
    User_CreatedAt user = now /\
    (forall u, In u (users db) -> u_id u < User_ID user) /\
    users db' = users db ++ [mk_users_row (User_ID user) email hash now] /\
    GetUserByEmail db' email = Ok user /\
    GetUserByID db' (User_ID user) = Ok user /\
    (forall now' salt' password',
       fst (CreateUser db' now' salt' email password') = db' /\
       exists e, snd (CreateUser db' now' salt' email password') = Err e).
Proof.
  intros Hhash Hnone db'. subst db'.
  assert (Hfilter : List.filter (fun u => String.eqb (u_email u) email) (users db) = []).
  { unfold GetUserByEmail in Hnone. apply QueryRow_Err in Hnone as [Hnone _].
    now apply map_nil_iff in Hnone. }
  unfold CreateUser, INSERT_users. rewrite Hhash.
  rewrite (proj2 (existsb_filter_nil _ _) Hfilter). cbn.
  set (id := AUTOINCREMENT (seq_users db) (map u_id (users db))).
  assert (Hfresh : forall i, In i (map u_id (users db)) -> i < id)
    by (intros i Hi; now apply AUTOINCREMENT_fresh).
  assert (Hget : GetUserByID
                   (mkDB (users db ++ [mk_users_row id email hash now]) (games db)
                      (rsvps db) (chat_messages db) id (seq_games db) (seq_rsvps db)
                      (seq_chat_messages db)) id
                 = Ok (mkUser id email hash now)).
  { unfold GetUserByID. cbn. rewrite List.filter_app, (filter_by_fresh_id u_id _ _ Hfresh).
    cbn. now rewrite Z.eqb_refl. }
  rewrite Hget. eexists. split; [reflexivity |]. cbn.
  repeat split; trivial.
  - intros u Hu. apply Hfresh. now apply in_map.
  - unfold GetUserByEmail. cbn. rewrite List.filter_app, Hfilter. cbn.
    now rewrite String.eqb_refl.
  - destruct (GenerateFromPassword salt' password'); [| reflexivity].
    cbn. rewrite existsb_app. cbn. now rewrite String.eqb_refl, orb_true_r.
  - destruct (GenerateFromPassword salt' password') as [h | e]; [| eauto].
    cbn. rewrite existsb_app. cbn. rewrite String.eqb_refl, orb_true_r. cbn. eauto.
Qed.

(** X5.  [CreateGame] always succeeds: the game returned carries the
    fields given, the current time as its creation time and an id larger
    than every id of the table; [GetGameByID] finds it under that id and
    finds every other id as before; the other tables stay as they were. *)
Theorem CreateGame_round_trip (db : DB) (now : Z) (game : Game) :
  let db' := fst (CreateGame db now game) in
  exists id,
    let created := mkGame id (Game_GMID game) (Game_Title game) (Game_Description game)
                     (Game_GameDateTime game) (Game_Location game) now in
    snd (CreateGame db now game) = Ok created /\
    (forall g, In g (games db) -> g_id g < id) /\
    GetGameByID db' id = Ok created /\
    (forall other, other <> id -> GetGameByID db' other = GetGameByID db other) /\
    users db' = users db /\ rsvps db' = rsvps db /\
    chat_messages db' = chat_messages db.
Proof.
  intros db'. subst db'. unfold CreateGame. cbn.
  set (id := AUTOINCREMENT (seq_games db) (map g_id (games db))).
  assert (Hfresh : forall i, In i (map g_id (games db)) -> i < id)
    by (intros i Hi; now apply AUTOINCREMENT_fresh).
  assert (Hget : forall other,
            GetGameByID
              (mkDB (users db)
                 (games db ++ [mk_games_row id (Game_GMID game) (Game_Title game)
                                 (Game_Description game) (Game_GameDateTime game)
                                 (Game_Location game) now])
                 (rsvps db) (chat_messages db) (seq_users db) id (seq_rsvps db)
                 (seq_chat_messages db)) other
            = if other =? id
              then Ok (mkGame id (Game_GMID game) (Game_Title game) (Game_Description game)
                         (Game_GameDateTime game) (Game_Location game) now)
              else GetGameByID db other).
  { intros other. unfold GetGameByID. cbn. rewrite List.filter_app. cbn.
    rewrite (Z.eqb_sym id other). destruct (other =? id) eqn:E.
    - apply Z.eqb_eq in E. subst other.
      now rewrite (filter_by_fresh_id g_id _ _ Hfresh).
    - now rewrite app_nil_r. }
  exists id. cbn. rewrite !Hget, Z.eqb_refl.
  repeat split; trivial.
  - intros g Hg. apply Hfresh. now apply in_map.
  - intros other Hne. apply Z.eqb_neq in Hne. now rewrite Hget, Hne.
Qed.

Lemma place_snoc {A : Type} (before : A -> A -> bool) (a x : A) (m : list A) :
  before a x = true -> place before a (m ++ [x]) = place before a m ++ [x].
Proof.
  intros Hax. induction m as [|y m IH]; cbn.
  - now rewrite Hax.
  - destruct (before a y); [reflexivity | now rewrite IH].
Qed.

(** A row that may follow every other row stays last. *)
Lemma ORDER_BY_snoc {A : Type} (before : A -> A -> bool) (x : A) (l : list A) :
  Forall (fun a => before a x = true) l ->
  ORDER_BY before (l ++ [x]) = ORDER_BY before l ++ [x].
Proof.
  induction 1 as [|a l Ha _ IH]; cbn; [reflexivity |].
  rewrite IH. now apply place_snoc.
Qed.

Lemma chat_message_created
  (db : DB) (now : Z) (message : ChatMessage) (u : users_row) (old : list ChatMessage) :
  List.filter (fun x => ChatMessage_UserID message =? u_id x) (users db) = [u] ->
  Forall (fun cm => cm_created_at cm <= now)
    (chat_messages_of_game db (ChatMessage_GameID message)) ->
  GetChatMessagesForGame db (ChatMessage_GameID message) = Ok old ->
  let db' := fst (CreateChatMessage db now message) in
  exists id,
    let created := mkChatMessage id (ChatMessage_GameID message)
                     (ChatMessage_UserID message) (u_email u)
                     (ChatMessage_MessageContent message) now in
    snd (CreateChatMessage db now message) = Ok created /\
    (forall cm, In cm (chat_messages db) -> cm_id cm < id) /\
    GetChatMessagesForGame db' (ChatMessage_GameID message) = Ok (old ++ [created]) /\
    (forall gameID, gameID <> ChatMessage_GameID message ->
       GetChatMessagesForGame db' gameID = GetChatMessagesForGame db gameID).
Proof.
  intros Huser Hclock Hold db'. subst db'. unfold CreateChatMessage.
  cbn -[JOIN_users AUTOINCREMENT].
  set (id := AUTOINCREMENT (seq_chat_messages db) (map cm_id (chat_messages db))).
  set (row := mk_chat_messages_row id (ChatMessage_GameID message)
                (ChatMessage_UserID message) (ChatMessage_MessageContent message) now).
  assert (Hfresh : forall i, In i (map cm_id (chat_messages db)) -> i < id)
    by (intros i Hi; now apply AUTOINCREMENT_fresh).
  assert (Hjoin : JOIN_users cm_user_id (chat_messages db ++ [row]) (users db)
                  = JOIN_users cm_user_id (chat_messages db) (users db) ++ [(row, u)]).
  { rewrite JOIN_users_app. f_equal. unfold JOIN_users. cbn. now rewrite Huser. }
  exists id. cbn -[JOIN_users]. rewrite Hjoin. split; [| split; [| split]].
  - rewrite List.filter_app.
    rewrite (JOIN_users_filter cm_user_id (fun cm => cm_id cm =? id)).
    rewrite (filter_by_fresh_id cm_id _ _ Hfresh). cbn. now rewrite Z.eqb_refl.
  - intros cm Hcm. apply Hfresh. now apply in_map.
  - unfold GetChatMessagesForGame in *. cbn -[JOIN_users ORDER_BY]. injection Hold as <-.
    rewrite Hjoin, List.filter_app. cbn. rewrite Z.eqb_refl.
    rewrite ORDER_BY_snoc, map_app; [reflexivity |].
    apply Forall_forall. intros [cm u'] Hin. apply list_elem_of_In in Hin.
    apply filter_In in Hin as [Hin Hg]. apply JOIN_users_In in Hin as (Hcm & _).
    cbn in Hg. unfold ASC. cbn. apply Z.leb_le.
    rewrite Forall_forall in Hclock. apply Hclock. apply list_elem_of_In.
    apply filter_In. auto.
  - intros gameID Hne. unfold GetChatMessagesForGame. cbn -[JOIN_users ORDER_BY].
    rewrite Hjoin, List.filter_app. cbn.
    destruct (ChatMessage_GameID message =? gameID) eqn:E;
      [apply Z.eqb_eq in E; congruence |].
    now rewrite app_nil_r.
Qed.

(** X7.  A chat message posted when no message of the game is stamped
    later than the clock, by a user the store has exactly once: the message
    [CreateChatMessage] returns carries the author's email from [users] and
    the current time, its id is larger than every id of the table, the
    transcript of the game becomes the old transcript followed by this
    message, and the transcripts of the other games stay as they were. *)
Theorem CreateChatMessage_listed_last
  (db : DB) (now : Z) (message : ChatMessage) (u : users_row) (old : list ChatMessage) :
  List.filter (fun x => ChatMessage_UserID message =? u_id x) (users db) = [u] ->
  Forall (fun cm => cm_created_at cm <= now)
    (chat_messages_of_game db (ChatMessage_GameID message)) ->
  GetChatMessagesForGame db (ChatMessage_GameID message) = Ok old ->
  let db' := fst (CreateChatMessage db now message) in
  exists id,
    let created := mkChatMessage id (ChatMessage_GameID message)
                     (ChatMessage_UserID message) (u_email u)
                     (ChatMessage_MessageContent message) now in
    snd (CreateChatMessage db now message) = Ok created /\
    (forall cm, In cm (chat_messages db) -> cm_id cm < id) /\
    GetChatMessagesForGame db' (ChatMessage_GameID message) = Ok (old ++ [created]) /\
    (forall gameID, gameID <> ChatMessage_GameID message ->
       GetChatMessagesForGame db' gameID = GetChatMessagesForGame db gameID).
Proof. apply chat_message_created. Qed.

Lemma map_r_id_DO_UPDATE (now u g : Z) (st : string) (l : list rsvps_row) :
  map r_id (map (DO_UPDATE now u g st) l) = map r_id l.
Proof.
  rewrite map_map. apply map_ext. intros r. unfold DO_UPDATE.
  now destruct (same_pair u g r).
Qed.

Lemma NoDup_map_snoc_fresh {A : Type} (get_id : A -> Z) (l : list A) (x : A) (seq : Z) :
  get_id x = AUTOINCREMENT seq (map get_id l) ->
  NoDup (map get_id l) -> NoDup (map get_id (l ++ [x])).
Proof.
  intros Hx ND. rewrite map_app. cbn. apply NoDup_snoc_fresh; [exact ND |].
  intros i Hi. rewrite Hx. now apply AUTOINCREMENT_fresh.
Qed.

Lemma constraints_empty : constraints sqlite.empty.
Proof. repeat split; constructor. Qed.

Lemma constraints_CreateUser `{bcrypt} (db : DB) (now : Z) (salt email password : string) :
  constraints db -> constraints (fst (CreateUser db now salt email password)).
Proof.
  intros Hdb. pose proof Hdb as ((Hu & Hg & Hr & Hc) & Hemail & Hpair).
  unfold CreateUser, INSERT_users.
  destruct (GenerateFromPassword _ _); [| exact Hdb].
  destruct (existsb _ (users db)) eqn:E; [exact Hdb |]. cbn.
  split; [split; [| auto] | split; [| exact Hpair]].
  - now apply (NoDup_map_snoc_fresh u_id _ _ (seq_users db)).
  - apply UNIQUE_users_email_snoc; [exact Hemail |]. now apply existsb_filter_nil.
Qed.

Lemma constraints_CreateGame (db : DB) (now : Z) (game : Game) :
  constraints db -> constraints (fst (CreateGame db now game)).
Proof.
  intros ((Hu & Hg & Hr & Hc) & Hemail & Hpair). cbn.
  split; [split; [| split]; auto | auto].
  now apply (NoDup_map_snoc_fresh g_id _ _ (seq_games db)).
Qed.

Lemma constraints_CreateOrUpdateRSVP (db : DB) (now : Z) (rsvp : RSVP) :
  constraints db -> constraints (fst (CreateOrUpdateRSVP db now rsvp)).
Proof.
  intros ((Hu & Hg & Hr & Hc) & Hemail & Hpair). split; [| split].
  - unfold CreateOrUpdateRSVP, PRIMARY_KEY.
    destruct (existsb _ (rsvps db)); cbn [fst users games rsvps chat_messages].
    + split; [| split; [| split]]; trivial. now rewrite map_r_id_DO_UPDATE.
    + split; [| split; [| split]]; trivial.
      now apply (NoDup_map_snoc_fresh r_id _ _ (seq_rsvps db)).
  - unfold CreateOrUpdateRSVP. now destruct (existsb _ (rsvps db)).
  - now apply CreateOrUpdateRSVP_UNIQUE.
Qed.

Lemma constraints_CreateChatMessage (db : DB) (now : Z) (message : ChatMessage) :
  constraints db -> constraints (fst (CreateChatMessage db now message)).
Proof.
  intros ((Hu & Hg & Hr & Hc) & Hemail & Hpair). cbn.
  split; [split; [| split; [| split]]; auto | auto].
  now apply (NoDup_map_snoc_fresh cm_id _ _ (seq_chat_messages db)).
Qed.

(** X8.  The constraints the engine enforces (the four primary keys, the
    unique email, the unique pair of user and game of an RSVP) hold of the
    empty store and are kept by each of the four writing functions,
    whatever their arguments. *)
Theorem database_writes_keep_constraints `{bcrypt} (db : DB) :
  constraints sqlite.empty /\
  (constraints db ->
   (forall now salt email password,
      constraints (fst (CreateUser db now salt email password))) /\
   (forall now game, constraints (fst (CreateGame db now game))) /\
   (forall now rsvp, constraints (fst (CreateOrUpdateRSVP db now rsvp))) /\
   (forall now message, constraints (fst (CreateChatMessage db now message)))).
Proof.
  split; [exact constraints_empty |]. intros Hdb.
  split; [| split; [| split]]; intros.
  - now apply constraints_CreateUser.
  - now apply constraints_CreateGame.
  - now apply constraints_CreateOrUpdateRSVP.
  - now apply constraints_CreateChatMessage.
Qed.

(** ** The handlers and the sessions *)

Lemma with_db_same (W : World) : with_db W (db W) = W.
Proof. now destruct W. Qed.

(** The only change [Register] makes is the one [CreateUser] makes. *)
Lemma Register_effect `{bcrypt} (W : World) (env : Env) (r : Request) :
  fst (Register W env r) = W \/
  exists email password,
    fst (Register W env r)
    = with_db W (fst (CreateUser (db W) (now env) (salt env) email password)).
Proof.
  unfold Register. repeat break_match; cbn; auto; right;
    match goal with H : CreateUser _ _ _ ?e ?p = (?d, _) |- _ =>
      exists e, p; now rewrite H end.
Qed.

Lemma Login_effect `{bcrypt} (W : World) (env : Env) (r : Request) :
  fst (Login W env r) = W \/
  exists email user sessionToken,
    GetUserByEmail (db W) email = Ok user /\
    NewRandom env = Some sessionToken /\
    fst (Login W env r)
    = mkWorld (db W) (<[sessionToken := User_ID user]> (SessionStore W)).
Proof.
  unfold Login. repeat break_match; cbn; auto. right. eauto 10.
Qed.

Lemma Logout_effect (W : World) (r : Request) :
  fst (Logout W r) = W \/
  exists sessionToken,
    Request_Cookie r sessionCookieName = Ok sessionToken /\
    fst (Logout W r) = mkWorld (db W) (delete sessionToken (SessionStore W)).
Proof. unfold Logout. destruct (Request_Cookie _ _); cbn; eauto. Qed.

Lemma SubmitRSVP_effect (W : World) (env : Env) (r : Request) :
  fst (SubmitRSVP W env r) = W \/
  exists currentUser gameID status,
    Method r = MethodPost /\
    GetCurrentUser W r = Ok currentUser /\
    valid_status status = true /\
    fst (SubmitRSVP W env r)
    = with_db W (fst (CreateOrUpdateRSVP (db W) (now env)
                        (mkRSVP 0 (User_ID currentUser) gameID status 0 0 ""))).
Proof.
  unfold SubmitRSVP.
  destruct (String.eqb (Method r) MethodPost) eqn:Hm; cbn; [| now left].
  apply String.eqb_eq in Hm.
  destruct (GetCurrentUser W r) as [currentUser |]; [| now left].
  destruct (String.eqb _ ""); [now left |].
  destruct (strconv.ParseInt _) as [gameID |]; [| now left].
  destruct (Form r) as [form |]; [| now left].
  destruct (valid_status (FormValue form "status")) eqn:Hv; cbn; [| now left].
  right. exists currentUser, gameID, (FormValue form "status").
  repeat split; trivial.
  destruct (CreateOrUpdateRSVP _ _ _) as [d' res]. cbn.
  repeat break_match; reflexivity.
Qed.

Lemma PostChatMessage_effect (W : World) (env : Env) (r : Request) :
  fst (PostChatMessage W env r) = W \/
  exists currentUser gameID messageContent,
    Method r = MethodPost /\
    GetCurrentUser W r = Ok currentUser /\
    gostrings.TrimSpace messageContent <> "" /\
    fst (PostChatMessage W env r)
    = with_db W (fst (CreateChatMessage (db W) (now env)
                        (mkChatMessage 0 gameID (User_ID currentUser)
                           (User_Email currentUser) messageContent 0))).
Proof.
  unfold PostChatMessage.
  destruct (String.eqb (Method r) MethodPost) eqn:Hm; cbn -[CreateChatMessage]; [| now left].
  apply String.eqb_eq in Hm.
  destruct (GetCurrentUser W r) as [currentUser |]; [| now left].
  destruct (String.eqb _ ""); [now left |].
  destruct (strconv.ParseInt _) as [gameID |]; [| now left].
  destruct (Form r) as [form |]; [| now left].
  destruct (String.eqb (gostrings.TrimSpace _) "") eqn:Ht; [now left |].
  apply String.eqb_neq in Ht.
  right. exists currentUser, gameID, (FormValue form "message_content").
  repeat split; trivial.
  destruct (CreateChatMessage _ _ _) as [d' res]. cbn.
  repeat break_match; reflexivity.
Qed.

Lemma filter_one_of_NoDup (us : list users_row) (u : users_row) :
  NoDup (map u_id us) -> In u us ->
  List.filter (fun x => u_id u =? u_id x) us = [u].
Proof.
  induction us as [|a us IH]; cbn; intros ND Hin; [destruct Hin |].
  apply NoDup_cons in ND as [Ha ND].
  destruct Hin as [-> | Hin].
  - rewrite Z.eqb_refl. f_equal. apply filter_nil_of_none. intros x Hx.
    apply Z.eqb_neq. intros E. apply Ha. rewrite E. apply list_elem_of_In.
    now apply in_map.
  - destruct (u_id u =? u_id a) eqn:E; [| now apply IH].
    apply Z.eqb_eq in E. exfalso. apply Ha. rewrite <- E. apply list_elem_of_In.
    now apply in_map.
Qed.

Lemma one_user_In (us : list users_row) (id : Z) :
  one_user us id -> exists u, In u us /\ u_id u = id.
Proof.
  intros [u Hu]. exists u.
  assert (In u (List.filter (fun u => id =? u_id u) us)) as Hin by (rewrite Hu; now left).
  apply filter_In in Hin as [Hin E]. apply Z.eqb_eq in E. auto.
Qed.

Lemma one_user_snoc (us : list users_row) (row : users_row) (id : Z) :
  (forall i, In i (map u_id us) -> i < u_id row) ->
  one_user us id -> one_user (us ++ [row]) id.
Proof.
  intros Hfresh Hone. destruct (one_user_In _ _ Hone) as (u & Hin & <-).
  destruct Hone as [u' Hu']. exists u'. rewrite List.filter_app, Hu'. cbn.
  destruct (u_id u =? u_id row) eqn:E; [| reflexivity].
  apply Z.eqb_eq in E. specialize (Hfresh (u_id u) (in_map u_id _ _ Hin)). lia.
Qed.

Lemma GetUserByID_Ok_iff (d : DB) (id : Z) :
  (exists user, GetUserByID d id = Ok user) <-> exists u, In u (users d) /\ u_id u = id.
Proof.
  split.
  - intros [user Hu]. destruct (GetUserByID_In _ _ _ Hu) as (row & Hin & Hid & _). eauto.
  - intros (u & Hin & Hid). unfold GetUserByID.
    apply QueryRow_In with (x := scan_user u). apply in_map. apply filter_In.
    split; [exact Hin | now apply Z.eqb_eq].
Qed.

(** What [CreateUser] leaves of the store: everything, plus at most one new
    user whose id is larger than all the others. *)
Lemma CreateUser_tables `{bcrypt} (d : DB) (now : Z) (salt email password : string) :
  let d' := fst (CreateUser d now salt email password) in
  games d' = games d /\ rsvps d' = rsvps d /\ chat_messages d' = chat_messages d /\
  (users d' = users d \/
   exists row, users d' = users d ++ [row] /\
               (forall i, In i (map u_id (users d)) -> i < u_id row)).
Proof.
  unfold CreateUser, INSERT_users.
  destruct (GenerateFromPassword _ _); [| cbn; auto].
  destruct (existsb _ (users d)); cbn; [auto |].
  repeat split. right. eexists. split; [reflexivity |]. cbn.
  intros i Hi. now apply AUTOINCREMENT_fresh.
Qed.

Lemma Forall_one_user_grow {A : Type} (user_id : A -> Z) (t : list A)
  (us : list users_row) (row : users_row) :
  (forall i, In i (map u_id us) -> i < u_id row) ->
  Forall (fun x => one_user us (user_id x)) t ->
  Forall (fun x => one_user (us ++ [row]) (user_id x)) t.
Proof.
  intros Hfresh HF. eapply Forall_impl; [exact HF |]. intros x. now apply one_user_snoc.
Qed.

Lemma consistent_CreateUser `{bcrypt} (W : World) (now : Z) (salt email password : string) :
  consistent W ->
  consistent (with_db W (fst (CreateUser (db W) now salt email password))).
Proof.
  intros (Hc & Hr & Hm & Hs).
  destruct (CreateUser_tables (db W) now salt email password)
    as (Hg & Hrs & Hcm & Husers).
  split; [| split; [| split]]; unfold with_db; cbn [db SessionStore].
  - now apply constraints_CreateUser.
  - unfold FOREIGN_KEY_rsvps_user. rewrite Hrs.
    destruct Husers as [E | (row & E & Hfresh)].
    { rewrite E. exact Hr. }
    rewrite E.
    now apply Forall_one_user_grow.
  - unfold FOREIGN_KEY_chat_messages_user. rewrite Hcm.
    destruct Husers as [E | (row & E & Hfresh)].
    { rewrite E. exact Hm. }
    rewrite E.
    now apply Forall_one_user_grow.
  - intros token userID Ht. cbn in Ht. apply GetUserByID_Ok_iff.
    destruct (proj1 (GetUserByID_Ok_iff _ _) (Hs token userID Ht)) as (u & Hin & Hid).
    exists u. split; [| exact Hid]. cbn [db].
    destruct Husers as [E | (row & E & _)].
    { rewrite E. exact Hin. }
    rewrite E.
    apply in_or_app. now left.
Qed.

Lemma consistent_CreateOrUpdateRSVP (W : World) (now : Z) (rsvp : RSVP) (user : User) :
  GetUserByID (db W) (RSVP_UserID rsvp) = Ok user ->
  consistent W ->
  consistent (with_db W (fst (CreateOrUpdateRSVP (db W) now rsvp))).
Proof.
  intros Huser (Hc & Hr & Hm & Hs).
  destruct (CreateOrUpdateRSVP_untouched (db W) now rsvp) as (Hu & Hg & Hcm & _).
  split; [| split; [| split]]; unfold with_db; cbn [db SessionStore].
  - now apply constraints_CreateOrUpdateRSVP.
  - unfold FOREIGN_KEY_rsvps_user. rewrite Hu.
    unfold FOREIGN_KEY_rsvps_user in Hr.
    unfold CreateOrUpdateRSVP. destruct (existsb _ (rsvps (db W))); cbn.
    + apply Forall_forall. intros x Hx. apply list_elem_of_In in Hx.
      apply in_map_iff in Hx as (r0 & <- & Hr0).
      rewrite Forall_forall in Hr.
      pose proof (DO_UPDATE_pair now (RSVP_UserID rsvp) (RSVP_GameID rsvp)
                    (RSVP_Status rsvp) r0) as E. injection E as -> _.
      apply Hr. now apply list_elem_of_In.
    + apply Forall_app. split; [exact Hr |]. constructor; [| constructor]. cbn.
      destruct (GetUserByID_In _ _ _ Huser) as (row & Hin & Hid & _).
      exists row. rewrite <- Hid. apply filter_one_of_NoDup; [apply Hc | exact Hin].
  - unfold FOREIGN_KEY_chat_messages_user. now rewrite Hu, Hcm.
  - intros token userID Ht. cbn in Ht. apply GetUserByID_Ok_iff. cbn [db]. rewrite Hu.
    apply GetUserByID_Ok_iff. eauto.
Qed.

Lemma consistent_CreateChatMessage (W : World) (now : Z) (m : ChatMessage) (user : User) :
  GetUserByID (db W) (ChatMessage_UserID m) = Ok user ->
  consistent W ->
  consistent (with_db W (fst (CreateChatMessage (db W) now m))).
Proof.
  intros Huser (Hc & Hr & Hm & Hs).
  split; [| split; [| split]]; unfold with_db; cbn [db SessionStore].
  - now apply constraints_CreateChatMessage.
  - exact Hr.
  - unfold FOREIGN_KEY_chat_messages_user. cbn.
    apply Forall_app. split; [exact Hm |]. constructor; [| constructor]. cbn.
    destruct (GetUserByID_In _ _ _ Huser) as (row & Hin & Hid & _).
    exists row. rewrite <- Hid. apply filter_one_of_NoDup; [apply Hc | exact Hin].
  - intros token userID Ht. cbn in Ht. apply GetUserByID_Ok_iff.
    apply GetUserByID_Ok_iff. eauto.
Qed.

Lemma GetCurrentUser_stored (W : World) (r : Request) (currentUser : User) :
  GetCurrentUser W r = Ok currentUser ->
  exists user, GetUserByID (db W) (User_ID currentUser) = Ok user.
Proof.
  intros Hu. apply GetUserByID_Ok_iff.
  destruct (GetCurrentUser_In _ _ _ Hu) as (row & Hin & Hid & _). eauto.
Qed.

(** X9.  The empty world is consistent, and every handler of package
    [handlers] that takes a request keeps a consistent world consistent:
    besides the constraints of X8, every RSVP and every chat message names
    exactly one stored user, although the engine does not check the foreign
    keys, and every session names a stored user. *)
Theorem handlers_keep_consistent `{bcrypt} (W : World) (env : Env) (r : Request) :
  consistent (mkWorld sqlite.empty ∅) /\
  (consistent W ->
   consistent (fst (Register W env r)) /\
   consistent (fst (Login W env r)) /\
   consistent (fst (Logout W r)) /\
   consistent (fst (SubmitRSVP W env r)) /\
   consistent (fst (PostChatMessage W env r)) /\
   consistent (fst (AuthMiddleware SubmitRSVP W env r)) /\
   consistent (fst (AuthMiddleware PostChatMessage W env r))).
Proof.
  split.
  - split; [exact constraints_empty |]. cbn.
    split; [constructor | split; [constructor |]].
    intros token userID Ht. cbn in Ht. now rewrite lookup_empty in Ht.
  - intros HW.
    assert (HR : consistent (fst (SubmitRSVP W env r))).
    { destruct (SubmitRSVP_effect W env r) as [-> | (cu & g & st & _ & Hu & _ & ->)];
        [exact HW |].
      destruct (GetCurrentUser_stored _ _ _ Hu) as [user Huser].
      eapply consistent_CreateOrUpdateRSVP; [exact Huser | exact HW]. }
    assert (HP : consistent (fst (PostChatMessage W env r))).
    { destruct (PostChatMessage_effect W env r) as [-> | (cu & g & mc & _ & Hu & _ & ->)];
        [exact HW |].
      destruct (GetCurrentUser_stored _ _ _ Hu) as [user Huser].
      eapply consistent_CreateChatMessage; [exact Huser | exact HW]. }
    split; [| split; [| split; [| split; [exact HR | split; [exact HP | split]]]]].
    + destruct (Register_effect W env r) as [-> | (e & p & ->)]; [exact HW |].
      now apply consistent_CreateUser.
    + destruct (Login_effect W env r) as [-> | (e & user & t & Hu & _ & ->)]; [exact HW |].
      destruct HW as (Hc & Hr & Hm & Hs). repeat split; trivial; try apply Hc.
      intros token userID Ht. cbn in *.
      destruct (decide (t = token)) as [<- | Hne].
      * rewrite lookup_insert_eq in Ht. injection Ht as <-.
        apply GetUserByID_Ok_iff.
        unfold GetUserByEmail in Hu.
        destruct (List.filter _ (users (db W))) as [|u us] eqn:E; [discriminate |].
        cbn in Hu. injection Hu as <-. exists u. split; [| reflexivity].
        assert (In u (List.filter (fun u => String.eqb (u_email u) e) (users (db W))))
          as Hin by (rewrite E; now left).
        now apply filter_In in Hin.
      * rewrite lookup_insert_ne in Ht by exact Hne. eauto.
    + destruct (Logout_effect W r) as [-> | (t & _ & ->)]; [exact HW |].
      destruct HW as (Hc & Hr & Hm & Hs). repeat split; trivial; try apply Hc.
      intros token userID Ht. cbn in *.
      apply lookup_delete_Some in Ht as [_ Ht]. eauto.
    + unfold AuthMiddleware. now destruct (negb _).
    + unfold AuthMiddleware. now destruct (negb _).
Qed.

(** X10.  Where every session names a stored user, [IsAuthenticated] holds
    of a request exactly when [GetCurrentUser] returns a user for it; then
    [AuthMiddleware] hands the request to the handler it wraps; and the
    only errors of [GetCurrentUser] are the missing cookie and the unknown
    token. *)
Theorem IsAuthenticated_iff_GetCurrentUser (W : World) (r : Request) :
  sessions_resolve W ->
  (IsAuthenticated W r = true <-> exists user, GetCurrentUser W r = Ok user) /\
  (forall next env user,
     GetCurrentUser W r = Ok user -> AuthMiddleware next W env r = next W env r) /\
  (forall e, GetCurrentUser W r = Err e -> e = ErrNoCookie \/ e = ErrInvalidSessionToken).
Proof.
  intros Hs. unfold IsAuthenticated, GetCurrentUser, AuthMiddleware, IsAuthenticated.
  destruct (Request_Cookie r sessionCookieName) as [token | err]; cbn.
  - destruct (SessionStore W !! token) as [userID |] eqn:E; cbn.
    + destruct (Hs token userID E) as [user Hu]. rewrite Hu.
      split; [split; eauto | split; [reflexivity | discriminate]].
    + split; [split; [discriminate | intros [? ?]; discriminate] |].
      split; [discriminate | intros e [= <-]; auto].
  - split; [split; [discriminate | intros [? ?]; discriminate] |].
    split; [discriminate | intros e [= <-]; auto].
Qed.

Lemma Login_issued_user `{bcrypt} (W : World) (env : Env) (r : Request) (c : Cookie) :
  In c (SetCookies (snd (Login W env r))) ->
  exists form user,
    Form r = Some form /\
    GetUserByEmail (db W) (FormValue form "email") = Ok user /\
    VerifyPassword (User_PasswordHash user) (FormValue form "password") = true /\
    NewRandom env = Some (Value c) /\
    fst (Login W env r) = mkWorld (db W) (<[Value c := User_ID user]> (SessionStore W)).
Proof.
  unfold Login. repeat break_match; cbn; try tauto.
  intros [<- | []]. cbn. eexists _, _. repeat split; try eassumption.
  now apply negb_false_iff.
Qed.

Lemma GetUserByEmail_then_ID (d : DB) (email : string) (user : User) :
  NoDup (map u_id (users d)) ->
  GetUserByEmail d email = Ok user ->
  GetUserByID d (User_ID user) = Ok user.
Proof.
  intros ND Hu. unfold GetUserByEmail in Hu.
  destruct (List.filter _ (users d)) as [|u us] eqn:E; [discriminate |].
  cbn in Hu. injection Hu as <-.
  assert (In u (List.filter (fun u => String.eqb (u_email u) email) (users d)))
    as Hin by (rewrite E; now left).
  apply filter_In in Hin as [Hin _].
  unfold GetUserByID. cbn. rewrite <- users_by_id_sym.
  now rewrite (filter_one_of_NoDup _ _ ND Hin).
Qed.

(** X11.  The session cookie a login sets identifies the user who logged
    in: with unique user ids, whenever [Login] sets a cookie, every later
    request that carries its value is one for which [GetCurrentUser]
    returns the user whose email was submitted. *)
Theorem Login_then_GetCurrentUser `{bcrypt}
  (W : World) (env : Env) (r : Request) (cookie : Cookie) :
  NoDup (map u_id (users (db W))) ->
  In cookie (SetCookies (snd (Login W env r))) ->
  exists form user,
    Form r = Some form /\
    User_Email user = FormValue form "email" /\
    forall r',
      Request_Cookie r' sessionCookieName = Ok (Value cookie) ->
      GetCurrentUser (fst (Login W env r)) r' = Ok user.
Proof.
  intros ND Hissued.
  destruct (Login_issued_user W env r cookie Hissued) as (form & user & Hf & Hu & _ & _ & HW).
  exists form, user. split; [exact Hf |]. split.
  - unfold GetUserByEmail in Hu.
    destruct (List.filter _ (users (db W))) as [|u us] eqn:E; [discriminate |].
    cbn in Hu. injection Hu as <-.
    assert (In u (List.filter (fun u => String.eqb (u_email u) (FormValue form "email"))
                    (users (db W)))) as Hin by (rewrite E; now left).
    apply filter_In in Hin as [_ Hin]. now apply String.eqb_eq in Hin.
  - intros r' Hr'. rewrite HW. unfold GetCurrentUser. rewrite Hr'. cbn.
    rewrite lookup_insert_eq. now apply GetUserByEmail_then_ID with (email := FormValue form "email").
Qed.

(** X12.  Sessions do not interfere.  A request that carries a token
    keeps its authentication and its user through a login that draws
    another token and through a logout with another token; a registration,
    an RSVP and a chat post never change whether it is authenticated. *)
Theorem sessions_are_independent `{bcrypt}
  (W : World) (env : Env) (r other : Request) (token : string) :
  Request_Cookie other sessionCookieName = Ok token ->
  (NewRandom env <> Some token ->
   IsAuthenticated (fst (Login W env r)) other = IsAuthenticated W other /\
   GetCurrentUser (fst (Login W env r)) other = GetCurrentUser W other) /\
  (Request_Cookie r sessionCookieName <> Ok token ->
   IsAuthenticated (fst (Logout W r)) other = IsAuthenticated W other /\
   GetCurrentUser (fst (Logout W r)) other = GetCurrentUser W other) /\
  IsAuthenticated (fst (Register W env r)) other = IsAuthenticated W other /\
  IsAuthenticated (fst (SubmitRSVP W env r)) other = IsAuthenticated W other /\
  IsAuthenticated (fst (PostChatMessage W env r)) other = IsAuthenticated W other.
Proof.
  intros Hother. split; [| split; [| split; [| split]]].
  - intros Hne.
    destruct (Login_effect W env r) as [-> | (e & user & t & _ & Ht & ->)]; [auto |].
    unfold IsAuthenticated, GetCurrentUser. rewrite Hother. cbn.
    rewrite lookup_insert_ne by congruence. auto.
  - intros Hne.
    destruct (Logout_effect W r) as [-> | (t & Ht & ->)]; [auto |].
    unfold IsAuthenticated, GetCurrentUser. rewrite Hother. cbn.
    rewrite lookup_delete_ne by congruence. auto.
  - destruct (Register_effect W env r) as [-> | (e & p & ->)]; reflexivity.
  - destruct (SubmitRSVP_effect W env r) as [-> | (cu & g & st & _ & _ & _ & ->)];
      reflexivity.
  - destruct (PostChatMessage_effect W env r) as [-> | (cu & g & mc & _ & _ & _ & ->)];
      reflexivity.
Qed.

(** What a registration that was answered with the redirect did. *)
Lemma Register_success `{bcrypt} (W : World) (env : Env) (r : Request) :
  snd (Register W env r) = Redirect w0 "/login" StatusSeeOther ->
  exists form id hash,
    Form r = Some form /\
    FormValue form "email" <> "" /\
    FormValue form "password" <> "" /\
    GenerateFromPassword (salt env) (FormValue form "password") = Ok hash /\
    users_with_email (db W) (FormValue form "email") = [] /\
    users (db (fst (Register W env r)))
    = users (db W) ++ [mk_users_row id (FormValue form "email") hash (now env)] /\
    SessionStore (fst (Register W env r)) = SessionStore W.
Proof.
  unfold Register.
  destruct (String.eqb (Method r) MethodPost); cbn; [| discriminate].
  destruct (Form r) as [form |]; [| discriminate].
  destruct (String.eqb (FormValue form "email") "") eqn:He; cbn; [discriminate |].
  destruct (String.eqb (FormValue form "password") "") eqn:Hp; cbn; [discriminate |].
  destruct (String.eqb (FormValue form "password") (FormValue form "confirm_password"));
    cbn; [| discriminate].
  destruct (GetUserByEmail (db W) (FormValue form "email")) as [u | e]; [discriminate |].
  destruct e; try discriminate.
  destruct (CreateUser_spec (db W) (now env) (salt env) (FormValue form "email")
              (FormValue form "password"))
    as [(_ & e & Herr) | (Hnone & id & hash & u & Hhash & _ & Husers)].
  - destruct (CreateUser _ _ _ _ _) as [d' res]. cbn in Herr. subst res. discriminate.
  - destruct (CreateUser _ _ _ _ _) as [d' res]. cbn in Husers.
    destruct res; [| discriminate]. intros _.
    exists form, id, hash. apply String.eqb_neq in He, Hp. cbn. auto 10.
Qed.

(** X13.  Register, then log in.  When bcrypt accepts the passwords it has
    hashed, a registration answered with the redirect to /login has stored
    a user under the submitted email, created at the time of the request,
    and a login with the same email and password then succeeds: it records
    the drawn token for that user, sets the session cookie for 24 hours and
    redirects to /games. *)
Theorem Register_then_Login `{bcrypt}
  (W : World) (env1 env2 : Env) (r1 r2 : Request)
  (form1 form2 : list (string * string)) (sessionToken : string) :
  (forall salt password hash,
     GenerateFromPassword salt password = Ok hash ->
     CompareHashAndPassword hash password = true) ->
  Form r1 = Some form1 ->
  snd (Register W env1 r1) = Redirect w0 "/login" StatusSeeOther ->
  Method r2 = MethodPost ->
  Form r2 = Some form2 ->
  FormValue form2 "email" = FormValue form1 "email" ->
  FormValue form2 "password" = FormValue form1 "password" ->
  NewRandom env2 = Some sessionToken ->
  let W1 := fst (Register W env1 r1) in
  exists user,
    GetUserByEmail (db W1) (FormValue form1 "email") = Ok user /\
    User_CreatedAt user = now env1 /\
    Login W1 env2 r2
    = (mkWorld (db W1) (<[sessionToken := User_ID user]> (SessionStore W)),
       Redirect
         (SetCookie w0
            (mkCookie sessionCookieName sessionToken "/" (now env2 + 24 * 3600)
               true (TLS r2) "Lax"))
         "/games" StatusSeeOther).
Proof.
  intros Hsound Hf1 Hok Hm2 Hf2 He Hp Htoken W1.
  destruct (Register_success W env1 r1 Hok)
    as (form & id & hash & Hf & Hemail & Hpw & Hhash & Hnone & Husers & Hsess).
  rewrite Hf1 in Hf. injection Hf as <-. fold W1 in Husers, Hsess.
  assert (Hget : GetUserByEmail (db W1) (FormValue form1 "email")
                 = Ok (mkUser id (FormValue form1 "email") hash (now env1))).
  { unfold GetUserByEmail. rewrite Husers, List.filter_app.
    unfold users_with_email in Hnone. rewrite Hnone. cbn.
    now rewrite String.eqb_refl. }
  eexists. split; [exact Hget |]. split; [reflexivity |].
  unfold Login. rewrite Hm2, Hf2. cbn. rewrite He, Hp.
  rewrite (String_eqb_false _ _ Hemail), (String_eqb_false _ _ Hpw). cbn.
  rewrite Hget. cbn. unfold VerifyPassword. rewrite (Hsound _ _ _ Hhash). cbn.
  now rewrite Htoken, Hsess.
Qed.

(** X14.  [SubmitRSVP] writes for nobody else: the RSVP of every user
    other than the one of the session, for every game, is as before, and so
    are the tables [users], [games] and [chat_messages] and the session
    registry. *)
Theorem SubmitRSVP_writes_only_own_RSVP
  (W : World) (env : Env) (r : Request) (user_id game_id : Z) :
  (forall currentUser, GetCurrentUser W r = Ok currentUser -> User_ID currentUser <> user_id) ->
  let W' := fst (SubmitRSVP W env r) in
  rsvps_of_pair (db W') user_id game_id = rsvps_of_pair (db W) user_id game_id /\
  users (db W') = users (db W) /\
  games (db W') = games (db W) /\
  chat_messages (db W') = chat_messages (db W) /\
  SessionStore W' = SessionStore W.
Proof.
  intros Hother W'. subst W'.
  destruct (SubmitRSVP_effect W env r) as [-> | (cu & g & st & _ & Hu & _ & ->)];
    [auto |].
  destruct (CreateOrUpdateRSVP_untouched (db W) (now env)
              (mkRSVP 0 (User_ID cu) g st 0 0 "")) as (H1 & H2 & H3 & H4 & _).
  unfold with_db. cbn [db SessionStore]. repeat split; trivial.
  apply H4. cbn. intros [= E _]. exact (Hother cu Hu (eq_sym E)).
Qed.

Lemma GetCurrentUser_by_ID (W : World) (r : Request) (currentUser : User) :
  GetCurrentUser W r = Ok currentUser ->
  GetUserByID (db W) (User_ID currentUser) = Ok currentUser.
Proof.
  unfold GetCurrentUser. repeat break_match; try discriminate.
  intros Hu. destruct (GetUserByID_In _ _ _ Hu) as (row & _ & Hid & Hs).
  rewrite <- Hs. cbn. rewrite Hid. now rewrite Hs.
Qed.



(** ** Game ids in paths *)

Import gostrings strconv fmt games_db pages main templates sample_site.

Lemma digit_digit_char (d : Z) : 0 <= d <= 9 -> digit (digit_char d) = Some d.
Proof.
  intros Hd.
  assert (E : d = 0 \/ d = 1 \/ d = 2 \/ d = 3 \/ d = 4 \/ d = 5 \/ d = 6 \/ d = 7 \/
              d = 8 \/ d = 9) by lia.
  repeat (destruct E as [-> | E]; [reflexivity |]). now subst.
Qed.

Lemma digits_digits_of (fuel : nat) :
  forall n acc, 0 <= n < 10 ^ Z.of_nat fuel ->
    exists k, 0 <= k /\
      forall a, digits (digits_of fuel n acc) a = digits acc (a * 10 ^ k + n).
Proof.
  induction fuel as [|f IH]; intros n acc Hn.
  - exists 0. split; [lia |]. intros a. cbn in *. f_equal. lia.
  - cbn [digits_of]. destruct (n <? 10) eqn:E.
    + apply Z.ltb_lt in E. exists 1. split; [lia |]. intros a. cbn [digits].
      rewrite digit_digit_char by (pose proof (Z.mod_pos_bound n 10); lia).
      f_equal. rewrite Z.mod_small by lia. lia.
    + apply Z.ltb_ge in E.
      destruct (IH (n / 10) (String (digit_char (n mod 10)) acc)) as (k & Hk & IHk).
      { split; [apply Z.div_pos; lia |]. apply Z.div_lt_upper_bound; [lia |].
        rewrite Nat2Z.inj_succ, Z.pow_succ_r in Hn; lia. }
      exists (k + 1). split; [lia |]. intros a. rewrite IHk. cbn [digits].
      rewrite digit_digit_char by (pose proof (Z.mod_pos_bound n 10); lia).
      f_equal. rewrite Z.pow_add_r by lia. pose proof (Z.div_mod n 10). lia.
Qed.

Lemma digits_of_nonempty (fuel : nat) (n : Z) (acc : string) :
  digits_of (S fuel) n acc <> "".
Proof.
  revert n acc. induction fuel as [|f IH]; intros n acc.
  - cbn. now destruct (n <? 10).
  - cbn [digits_of]. destruct (n <? 10); [discriminate |]. apply (IH (n / 10)).
Qed.

Lemma unsigned_FormatUint (n : Z) : 0 <= n -> unsigned (FormatUint n) = Some n.
Proof.
  intros Hn. unfold FormatUint, unsigned.
  destruct (digits_of _ n "") eqn:E; [now apply digits_of_nonempty in E |].
  rewrite <- E.
  destruct (digits_digits_of (S (Z.to_nat (Z.log2 n))) n "") as (k & Hk & Hd).
  { split; [lia |]. destruct (Z.eq_dec n 0) as [-> | Hne]; [reflexivity |].
    rewrite Nat2Z.inj_succ, Z2Nat.id by apply Z.log2_nonneg.
    pose proof (Z.log2_spec n ltac:(lia)) as [_ Hlt].
    eapply Z.lt_le_trans; [exact Hlt |].
    apply Z.pow_le_mono_l. lia. }
  rewrite Hd. cbn [digits]. f_equal; lia.
Qed.

Lemma digit_not_sign (c : ascii) (d : Z) :
  digit c = Some d -> Ascii.eqb c "+" = false /\ Ascii.eqb c "-" = false.
Proof.
  intros Hd. split; apply Ascii.eqb_neq; intros ->; discriminate.
Qed.

Lemma ParseInt_FormatInt (n : Z) :
  - 2 ^ 63 <= n < 2 ^ 63 -> ParseInt (FormatInt n) = Some n.
Proof.
  intros Hn. unfold FormatInt. destruct (n <? 0) eqn:E.
  - apply Z.ltb_lt in E. unfold ParseInt. cbn [Ascii.eqb Bool.eqb].
    cbn -[unsigned FormatUint Z.pow].
    rewrite unsigned_FormatUint by lia.
    destruct (- n <=? 2 ^ 63) eqn:E'; [f_equal; lia | apply Z.leb_gt in E'; lia].
  - apply Z.ltb_ge in E. pose proof (unsigned_FormatUint n E) as Hu.
    unfold ParseInt. destruct (FormatUint n) as [|c s] eqn:Es; [discriminate |].
    assert (Hc : exists d, digit c = Some d).
    { cbn in Hu. destruct (digit c); [eauto | discriminate]. }
    destruct Hc as [d Hc]. destruct (digit_not_sign c d Hc) as [-> ->].
    rewrite Hu. destruct (n <? 2 ^ 63) eqn:E'; [reflexivity | apply Z.ltb_ge in E'; lia].
Qed.

Local Abbreviation no_slash s := (Forall (fun c => c <> "/"%char) (list_ascii_of_string s)).

Lemma prefix_nil (s : string) : String.prefix "" s = true.
Proof. now destruct s. Qed.

Lemma append_nil_l (s : string) : "" +:+ s = s.
Proof. reflexivity. Qed.

Lemma append_cons (c : ascii) (a b : string) : String c a +:+ b = String c (a +:+ b).
Proof. reflexivity. Qed.

Ltac string_append := rewrite ?append_cons, ?append_nil_l.

Lemma append_nil_r (s : string) : s +:+ "" = s.
Proof. induction s; string_append; congruence. Qed.

Lemma append_assoc (a b c : string) : (a +:+ b) +:+ c = a +:+ (b +:+ c).
Proof. induction a; string_append; congruence. Qed.

Lemma length_append (a b : string) :
  String.length (a +:+ b) = (String.length a + String.length b)%nat.
Proof. induction a; string_append; cbn; congruence. Qed.

Lemma substring_full (s : string) : substring 0 (String.length s) s = s.
Proof. induction s; cbn; congruence. Qed.

Lemma substring_append_l (y z : string) : substring 0 (String.length y) (y +:+ z) = y.
Proof. induction y; string_append; cbn; [now destruct z | congruence]. Qed.

Lemma substring_append_r (y z : string) (n : nat) :
  substring (String.length y) n (y +:+ z) = substring 0 n z.
Proof. induction y; string_append; cbn; congruence. Qed.

Lemma prefix_append (p s : string) :
  String.prefix p s = true ->
  s = p +:+ substring (String.length p) (String.length s - String.length p) s.
Proof.
  revert s. induction p as [|a p IH]; intros s Hp; string_append.
  - cbn. now rewrite Nat.sub_0_r, substring_full.
  - destruct s as [|b s]; [discriminate |]. cbn in Hp.
    destruct (ascii_dec a b) as [-> |]; [| discriminate].
    cbn. f_equal. now apply IH.
Qed.

Lemma TrimPrefix_cases (s p : string) : s = TrimPrefix s p \/ s = p +:+ TrimPrefix s p.
Proof.
  unfold TrimPrefix, HasPrefix. destruct (String.prefix p s) eqn:Hp; [| now left].
  right. now apply prefix_append.
Qed.

Lemma TrimPrefix_append (p s : string) : TrimPrefix (p +:+ s) p = s.
Proof.
  unfold TrimPrefix, HasPrefix.
  assert (Hp : String.prefix p (p +:+ s) = true)
    by (apply prefix_correct, substring_append_l).
  rewrite Hp, length_append, substring_append_r.
  replace (String.length p + String.length s - String.length p)%nat
    with (String.length s) by lia.
  apply substring_full.
Qed.

Lemma TrimSuffix_append (y suffix : string) : TrimSuffix (y +:+ suffix) suffix = y.
Proof.
  unfold TrimSuffix, HasSuffix. rewrite length_append.
  replace (String.length y + String.length suffix - String.length suffix)%nat
    with (String.length y) by lia.
  rewrite substring_append_r, substring_full, String.eqb_refl, substring_append_l.
  now replace (String.length suffix <=? String.length y + String.length suffix)%nat
    with true by (symmetry; apply Nat.leb_le; lia).
Qed.

Lemma Split_from_slash (c : ascii) (cur s : string) :
  Split_from "/" 0 cur (String c s)
  = if Ascii.eqb c "/" then cur :: Split_from "/" 0 "" s
    else Split_from "/" 0 (cur +:+ String c "") s.
Proof.
  cbn [Split_from String.prefix String.length Nat.sub].
  destruct (ascii_dec "/" c) as [<- | Hne].
  - now rewrite prefix_nil.
  - apply not_eq_sym, Ascii.eqb_neq in Hne. now rewrite Hne.
Qed.

Lemma append_snoc (cur x : string) (c : ascii) :
  (cur +:+ String c "") +:+ x = cur +:+ String c x.
Proof. now rewrite append_assoc. Qed.

Lemma Split_from_no_slash (x : string) :
  no_slash x ->
  forall cur s, Split_from "/" 0 cur (x +:+ s) = Split_from "/" 0 (cur +:+ x) s.
Proof.
  induction x as [|c x IH]; cbn [list_ascii_of_string]; intros Hx cur s; string_append.
  - now rewrite append_nil_r.
  - apply Forall_cons in Hx as [Hc Hx]. rewrite Split_from_slash.
    apply Ascii.eqb_neq in Hc. rewrite Hc, IH by assumption. now rewrite append_snoc.
Qed.

Lemma Split_no_slash (x : string) : no_slash x -> Split x "/" = [x].
Proof.
  intros Hx. unfold Split. rewrite <- (append_nil_r x) at 1.
  now rewrite Split_from_no_slash.
Qed.

Lemma Split_from_nonempty (s cur : string) : Split_from "/" 0 cur s <> [].
Proof.
  revert cur. induction s as [|c s IH]; intros cur; [discriminate |].
  rewrite Split_from_slash. destruct (Ascii.eqb c "/"); [discriminate | apply IH].
Qed.

Lemma Split_from_one (s : string) :
  forall cur b, Split_from "/" 0 cur s = [b] -> b = cur +:+ s /\ no_slash s.
Proof.
  induction s as [|c s IH]; intros cur b Hs.
  - cbn in Hs. injection Hs as <-. split; [now rewrite append_nil_r | constructor].
  - rewrite Split_from_slash in Hs. destruct (Ascii.eqb c "/") eqn:Hc.
    + injection Hs as _ Hs. now apply Split_from_nonempty in Hs.
    + apply IH in Hs as [-> Hs]. rewrite append_snoc. split; [reflexivity |].
      cbn. constructor; [now apply Ascii.eqb_neq | assumption].
Qed.

Lemma Split_from_two (s : string) :
  forall cur a b,
    Split_from "/" 0 cur s = [a; b] ->
    exists x, a = cur +:+ x /\ s = x +:+ String "/" b /\ no_slash x /\ no_slash b.
Proof.
  induction s as [|c s IH]; intros cur a b Hs; [discriminate |].
  rewrite Split_from_slash in Hs. destruct (Ascii.eqb c "/") eqn:Hc.
  - apply Ascii.eqb_eq in Hc. subst c. injection Hs as <- Hs.
    apply Split_from_one in Hs as [-> Hs]. exists "".
    rewrite append_nil_r. string_append. repeat split; trivial.
  - apply IH in Hs as (x & -> & -> & Hx & Hb). exists (String c x).
    rewrite append_snoc. string_append. repeat split; trivial.
    cbn. constructor; [now apply Ascii.eqb_neq | assumption].
Qed.

Lemma Split_games_path (x : string) :
  no_slash x -> Split ("/games/" +:+ x) "/" = [""; "games"; x].
Proof.
  intros Hx. unfold Split. string_append.
  rewrite !Split_from_slash. cbn [Ascii.eqb Bool.eqb]. string_append.
  rewrite <- (append_nil_r x) at 1. now rewrite Split_from_no_slash.
Qed.

(** The text the router validates as the game id is the text the handler
    it dispatches to parses. *)
Lemma gameIDStr_of_routed (path a action : string) :
  Split (TrimPrefix path "/games/") "/" = [a; action] ->
  gameIDStr_of path (String "/" action) = a.
Proof.
  intros Hparts. unfold Split in Hparts.
  apply Split_from_two in Hparts as (x & -> & Hrest & Hx & _). string_append.
  unfold gameIDStr_of.
  destruct (TrimPrefix_cases path "/games/") as [Hp | Hp]; rewrite Hrest in Hp.
  - rewrite Hp, TrimSuffix_append, Split_no_slash by assumption. reflexivity.
  - rewrite Hp, <- append_assoc, TrimSuffix_append, Split_games_path by assumption.
    reflexivity.
Qed.

Lemma last_Split_routed (path a : string) :
  Split (TrimPrefix path "/games/") "/" = [a] ->
  List.last (Split path "/") "" = a.
Proof.
  intros Hparts. unfold Split in Hparts.
  apply Split_from_one in Hparts as [-> Hx]. rewrite append_nil_l in *.
  destruct (TrimPrefix_cases path "/games/") as [Hp | Hp].
  - rewrite <- Hp in *. now rewrite Split_no_slash.
  - rewrite Hp at 1. now rewrite Split_games_path.
Qed.

(** ** Games, their pages and the router *)

Lemma CreateGame_spec (d : DB) (now : Z) (game : Game) :
  let id := AUTOINCREMENT (seq_games d) (map g_id (games d)) in
  let row := mk_games_row id (Game_GMID game) (Game_Title game) (Game_Description game)
               (Game_GameDateTime game) (Game_Location game) now in
  database.CreateGame d now game
  = (mkDB (users d) (games d ++ [row]) (rsvps d) (chat_messages d)
       (seq_users d) id (seq_rsvps d) (seq_chat_messages d),
     Ok (scan_game row)).
Proof.
  intros id row. unfold database.CreateGame. fold id. fold row. f_equal.
  unfold GetGameByID. cbn [games]. rewrite List.filter_app.
  rewrite (filter_by_fresh_id g_id (games d) id)
    by (intros i Hi; now apply AUTOINCREMENT_fresh).
  cbn. now rewrite Z.eqb_refl.
Qed.


(** What [CreateGame] does when it accepts the form. *)
Lemma CreateGame_accepts `{stdlib} (W : World) (env : Env) (r : Request)
  (form : list (string * string)) (currentUser : User) (gameDateTime : Z) :
  Method r = MethodPost ->
  Form r = Some form ->
  FormValue form "title" <> "" ->
  FormValue form "location" <> "" ->
  time_Parse "2006-01-02T15:04" (FormValue form "game_datetime") = Some gameDateTime ->
  FormValue form "game_datetime" <> "" ->
  GetCurrentUser W r = Ok currentUser ->
  let id := AUTOINCREMENT (seq_games (db W)) (map g_id (games (db W))) in
  let game := mkGame 0 (User_ID currentUser) (FormValue form "title")
                (FormValue form "description") gameDateTime (FormValue form "location") 0 in
  pages.CreateGame W env r
  = (with_db W (fst (database.CreateGame (db W) (now env) game)),
     pages.Header_Set pages.w0 "HX-Redirect" ("/games/" +:+ FormatInt id)).
Proof.
  intros Hm Hf Ht Hl Hp Hd Hu id game. unfold pages.CreateGame.
  rewrite Hm, Hf, Hp, Hu. cbn [negb String.eqb].
  apply String.eqb_neq in Ht, Hl, Hd. rewrite Ht, Hl, Hd.
  change (String.eqb MethodPost MethodPost) with true. cbn [negb orb].
  fold game. rewrite CreateGame_spec. reflexivity.
Qed.

(** [CreateGame] either changes nothing and sends no redirect, or accepts. *)
Lemma CreateGame_cases `{stdlib} (W : World) (env : Env) (r : Request) :
  (fst (pages.CreateGame W env r) = W /\
   lookup_first "HX-Redirect" (pages.Header (snd (pages.CreateGame W env r))) = None) \/
  exists form currentUser gameDateTime,
    Method r = MethodPost /\
    Form r = Some form /\
    FormValue form "title" <> "" /\
    FormValue form "location" <> "" /\
    time_Parse "2006-01-02T15:04" (FormValue form "game_datetime") = Some gameDateTime /\
    FormValue form "game_datetime" <> "" /\
    GetCurrentUser W r = Ok currentUser.
Proof.
  unfold pages.CreateGame.
  destruct (String.eqb (Method r) MethodPost) eqn:Hm; cbn [negb]; [| now left].
  apply String.eqb_eq in Hm.
  destruct (Form r) as [form |]; [| now left].
  destruct (String.eqb (FormValue form "title") "") eqn:Ht; [now left |].
  destruct (String.eqb (FormValue form "game_datetime") "") eqn:Hd; [now left |].
  destruct (String.eqb (FormValue form "location") "") eqn:Hl; [now left |].
  cbn [orb].
  destruct (time_Parse _ _) as [gameDateTime |] eqn:Hp; [| now left].
  destruct (GetCurrentUser W r) as [currentUser | err] eqn:Hu; [| now left].
  right. exists form, currentUser, gameDateTime.
  apply String.eqb_neq in Ht, Hd, Hl. repeat split; trivial.
Qed.

(** X17.  [CreateGame], the handler, either changes nothing and sends no
    [HX-Redirect], or the request was a POST by a session's user with a
    title, a location and a date that [time.Parse] accepts: then exactly
    one game is added, with the submitted fields and the current time,
    hosted by the user of the session, under an id larger than all others;
    every other game, the other tables and the session registry stay as
    they were, and the answer is the header [HX-Redirect: /games/<id>] for
    the id of the new game. *)
Theorem CreateGame_hosted_by_session_user `{stdlib} (W : World) (env : Env) (r : Request) :
  let W' := fst (pages.CreateGame W env r) in
  let w := snd (pages.CreateGame W env r) in
  (W' = W /\ lookup_first "HX-Redirect" (pages.Header w) = None) \/
  exists form currentUser gameDateTime id,
    Method r = MethodPost /\
    Form r = Some form /\
    FormValue form "title" <> "" /\
    FormValue form "location" <> "" /\
    time_Parse "2006-01-02T15:04" (FormValue form "game_datetime") = Some gameDateTime /\
    GetCurrentUser W r = Ok currentUser /\
    let created := mkGame id (User_ID currentUser) (FormValue form "title")
                     (FormValue form "description") gameDateTime
                     (FormValue form "location") (now env) in
    (forall g, In g (games (db W)) -> g_id g < id) /\
    GetGameByID (db W') id = Ok created /\
    (forall other, other <> id -> GetGameByID (db W') other = GetGameByID (db W) other) /\
    users (db W') = users (db W) /\
    rsvps (db W') = rsvps (db W) /\
    chat_messages (db W') = chat_messages (db W) /\
    SessionStore W' = SessionStore W /\
    w = pages.Header_Set pages.w0 "HX-Redirect" ("/games/" +:+ FormatInt id).
Proof.
  intros W' w.
  destruct (CreateGame_cases W env r) as [Hsame | (form & cu & t & Hm & Hf & Ht & Hl & Hp & Hd & Hu)];
    [now left | right].
  pose proof (CreateGame_accepts W env r form cu t Hm Hf Ht Hl Hp Hd Hu) as E.
  cbn zeta in E. rewrite CreateGame_spec in E. cbn [fst] in E.
  subst W' w. rewrite E. cbn [fst snd].
  set (id := AUTOINCREMENT (seq_games (db W)) (map g_id (games (db W)))).
  assert (Hfresh : forall i, In i (map g_id (games (db W))) -> i < id)
    by (intros i Hi; now apply AUTOINCREMENT_fresh).
  exists form, cu, t, id. unfold with_db. cbn [db SessionStore users rsvps chat_messages].
  repeat split; trivial.
  - intros g Hg. apply Hfresh. now apply in_map.
  - unfold GetGameByID. cbn [games]. rewrite List.filter_app.
    rewrite (filter_by_fresh_id g_id _ _ Hfresh). cbn. now rewrite Z.eqb_refl.
  - intros other Hne. unfold GetGameByID. cbn [games]. rewrite List.filter_app. cbn.
    apply not_eq_sym, Z.eqb_neq in Hne. now rewrite Hne, app_nil_r.
Qed.

Lemma digit_no_slash (c : ascii) (d : Z) : digit c = Some d -> c <> "/"%char.
Proof. intros Hd ->. discriminate. Qed.

Lemma digits_no_slash (s : string) : forall a n, digits s a = Some n -> no_slash s.
Proof.
  induction s as [|c s IH]; intros a n Hs; cbn; [constructor |].
  cbn in Hs. destruct (digit c) as [d |] eqn:Hd; [| discriminate].
  constructor; [now apply digit_no_slash in Hd | now apply IH in Hs].
Qed.

Lemma unsigned_no_slash (s : string) (n : Z) : unsigned s = Some n -> no_slash s.
Proof. destruct s; [discriminate |]. apply digits_no_slash. Qed.

Lemma ParseInt_no_slash (s : string) (n : Z) : ParseInt s = Some n -> no_slash s.
Proof.
  destruct s as [|c s]; [discriminate |]. unfold ParseInt.
  destruct (Ascii.eqb c "+") eqn:Hplus.
  { apply Ascii.eqb_eq in Hplus. subst c.
    destruct (unsigned s) as [un |] eqn:Hu; [| discriminate]. intros _.
    cbn. constructor; [discriminate | now apply unsigned_no_slash in Hu]. }
  destruct (Ascii.eqb c "-") eqn:Hminus.
  { apply Ascii.eqb_eq in Hminus. subst c.
    destruct (unsigned s) as [un |] eqn:Hu; [| discriminate]. intros _.
    cbn. constructor; [discriminate | now apply unsigned_no_slash in Hu]. }
  destruct (unsigned (String c s)) as [un |] eqn:Hu; [| discriminate]. intros _.
  now apply unsigned_no_slash in Hu.
Qed.

(** A GET of /games/<id> for a game the store has is answered with its page. *)
Lemma route_game_page `{stdlib} (W : World) (env : Env) (r : Request) (s : string)
  (gameID : Z) (game : Game) :
  Method r = MethodGet ->
  URL_Path r = "/games/" +:+ s ->
  ParseInt s = Some gameID ->
  GetGameByID (db W) gameID = Ok game ->
  routeDynamicGamePaths W env r = GameDetailPage W env r /\
  exists user mine all chat,
    GameDetailPage W env r
    = (W, pages.RenderTemplate pages.w0 "games/game_detail.html"
            [("Game", GamePtr game);
             ("User", UserPtr user);
             ("CurrentUserRSVP", RSVPPtr mine);
             ("AllGameRSVPs", RSVPs all);
             ("RSVPStatusAttending", String_ RSVPStatusAttending);
             ("RSVPStatusMaybe", String_ RSVPStatusMaybe);
             ("RSVPStatusNotAttending", String_ RSVPStatusNotAttending);
             ("ChatMessages", ChatMessages chat);
             ("GameID", Int64 gameID)]) /\
    user = ptr (GetCurrentUser W r) /\
    GetRSVPsForGame (db W) gameID = Ok all /\
    GetChatMessagesForGame (db W) gameID = Ok chat /\
    mine = match user with
           | Some u => ptr (GetRSVPByUserForGame (db W) (User_ID u) gameID)
           | None => None
           end.
Proof.
  intros Hm Hpath Hid Hgame.
  pose proof (ParseInt_no_slash _ _ Hid) as Hs.
  pose proof (ParseInt_nonempty _ _ Hid) as Hne.
  split.
  - unfold routeDynamicGamePaths.
    rewrite Hpath, TrimPrefix_append, Split_no_slash by assumption.
    cbn [length nth Nat.eqb orb]. rewrite Hne, Hid, Hm. reflexivity.
  - unfold GameDetailPage. rewrite Hpath, Split_games_path by assumption.
    cbn [List.last]. rewrite Hne, Hid, Hgame.
    destruct (GetRSVPsForGame_listing (db W) gameID) as (all & Hall & _).
    assert (Hchat : exists chat, GetChatMessagesForGame (db W) gameID = Ok chat)
      by (unfold GetChatMessagesForGame; eauto).
    destruct Hchat as [chat Hchat]. rewrite Hall, Hchat.
    eexists _, _, all, chat. repeat split; trivial.
Qed.


Lemma of_http_Body_Plain (w : http.Response) (text : string) :
  pages.Body (of_http w) = pages.Plain text -> http.Body w = http.Plain text.
Proof. unfold of_http. cbn. destruct (http.Body w); congruence. Qed.

Lemma AuthMiddleware_cases (next : World -> Env -> Request -> World * http.Response)
  (W : World) (env : Env) (r : Request) :
  (IsAuthenticated W r = false /\
   handlers.AuthMiddleware next W env r = (W, Redirect http.w0 "/login" StatusSeeOther)) \/
  (IsAuthenticated W r = true /\ handlers.AuthMiddleware next W env r = next W env r).
Proof. unfold handlers.AuthMiddleware. destruct (IsAuthenticated W r); cbn; auto. Qed.

Lemma SubmitRSVP_id_accepted (W : World) (env : Env) (r : Request) (gameID : Z) :
  ParseInt (gameIDStr_of (URL_Path r) "/rsvp") = Some gameID ->
  http.Body (snd (SubmitRSVP W env r)) <> http.Plain "Game ID missing in URL path" /\
  http.Body (snd (SubmitRSVP W env r)) <> http.Plain "Invalid Game ID format".
Proof.
  intros Hid. unfold SubmitRSVP. rewrite Hid, (ParseInt_nonempty _ _ Hid).
  repeat break_match; cbn; split; discriminate.
Qed.

Lemma PostChatMessage_id_accepted (W : World) (env : Env) (r : Request) (gameID : Z) :
  ParseInt (gameIDStr_of (URL_Path r) "/chat") = Some gameID ->
  http.Body (snd (PostChatMessage W env r)) <> http.Plain "Game ID missing in URL path" /\
  http.Body (snd (PostChatMessage W env r)) <> http.Plain "Invalid Game ID format".
Proof.
  intros Hid. unfold PostChatMessage. rewrite Hid, (ParseInt_nonempty _ _ Hid).
  repeat break_match; cbn; split; discriminate.
Qed.

Lemma GameDetailPage_id_accepted (W : World) (env : Env) (r : Request) (gameID : Z) :
  ParseInt (List.last (Split (URL_Path r) "/") "") = Some gameID ->
  pages.Body (snd (GameDetailPage W env r)) <> pages.Plain "Game ID missing in URL path" /\
  pages.Body (snd (GameDetailPage W env r)) <> pages.Plain "Invalid Game ID format".
Proof.
  intros Hid. unfold GameDetailPage. rewrite Hid, (ParseInt_nonempty _ _ Hid).
  repeat break_match; cbn; split; discriminate.
Qed.

(** X20.  The router and the handlers read the same game id.  The piece
    of the path [routeDynamicGamePaths] validates is the text that
    [GameDetailPage], [SubmitRSVP] and [PostChatMessage] parse again, so a
    request that comes through the router is never answered with their
    errors "Game ID missing in URL path" and "Invalid Game ID format". *)
Theorem routed_handlers_accept_the_game_id `{stdlib} (W : World) (env : Env) (r : Request) :
  let parts := Split (TrimPrefix (URL_Path r) "/games/") "/" in
  let w := snd (routeDynamicGamePaths W env r) in
  (forall a, parts = [a] -> List.last (Split (URL_Path r) "/") "" = a) /\
  (forall a action, parts = [a; action] ->
     gameIDStr_of (URL_Path r) (String "/" action) = a) /\
  pages.Body w <> pages.Plain "Game ID missing in URL path" /\
  pages.Body w <> pages.Plain "Invalid Game ID format".
Proof.
  intros parts w.
  split; [exact (last_Split_routed (URL_Path r)) |].
  split; [exact (gameIDStr_of_routed (URL_Path r)) |].
  subst w. unfold routeDynamicGamePaths. fold parts.
  pose proof (last_Split_routed (URL_Path r)) as Hone.
  pose proof (gameIDStr_of_routed (URL_Path r)) as Htwo.
  fold parts in Hone, Htwo.
  destruct parts as [|a [|action [|x rest]]]; cbn [length nth Nat.eqb orb].
  - cbn. split; discriminate.
  - destruct (String.eqb a ""); [cbn; split; discriminate |].
    destruct (ParseInt a) as [gameID |] eqn:Hid; [| cbn; split; discriminate].
    destruct (String.eqb (Method r) MethodGet); [| cbn; split; discriminate].
    apply (GameDetailPage_id_accepted W env r gameID). now rewrite (Hone a).
  - destruct (String.eqb a ""); [cbn; split; discriminate |].
    destruct (ParseInt a) as [gameID |] eqn:Hid; [| cbn; split; discriminate].
    specialize (Htwo a action eq_refl).
    destruct (String.eqb action "rsvp") eqn:Eaction.
    { apply String.eqb_eq in Eaction. subst action.
      destruct (String.eqb (Method r) MethodPost); [| cbn; split; discriminate].
      destruct (AuthMiddleware_cases SubmitRSVP W env r) as [[_ ->] | [_ ->]];
        [cbn; split; discriminate |].
      destruct (SubmitRSVP W env r) as [W' w'] eqn:E. cbn [snd].
      pose proof (SubmitRSVP_id_accepted W env r gameID) as Hok.
      rewrite E, Htwo in Hok. specialize (Hok Hid). cbn [snd] in Hok.
      split; intros Hb; apply of_http_Body_Plain in Hb; tauto. }
    destruct (String.eqb action "chat") eqn:Eaction'; [| cbn; split; discriminate].
    apply String.eqb_eq in Eaction'. subst action.
    destruct (String.eqb (Method r) MethodPost); [| cbn; split; discriminate].
    destruct (AuthMiddleware_cases PostChatMessage W env r) as [[_ ->] | [_ ->]];
      [cbn; split; discriminate |].
    destruct (PostChatMessage W env r) as [W' w'] eqn:E. cbn [snd].
    pose proof (PostChatMessage_id_accepted W env r gameID) as Hok.
    rewrite E, Htwo in Hok. specialize (Hok Hid). cbn [snd] in Hok.
    split; intros Hb; apply of_http_Body_Plain in Hb; tauto.
  - destruct (String.eqb a ""); [cbn; split; discriminate |].
    destruct (ParseInt a) as [gameID |] eqn:Hid; cbn; split; discriminate.
Qed.

Lemma CreateChatMessage_tables (d : DB) (now : Z) (m : ChatMessage) :
  users (fst (CreateChatMessage d now m)) = users d /\
  games (fst (CreateChatMessage d now m)) = games d /\
  rsvps (fst (CreateChatMessage d now m)) = rsvps d.
Proof. now unfold CreateChatMessage. Qed.

Lemma SubmitRSVP_frame (W : World) (env : Env) (r : Request) :
  let W' := fst (SubmitRSVP W env r) in
  SessionStore W' = SessionStore W /\ users (db W') = users (db W) /\
  games (db W') = games (db W) /\
  (Method r <> MethodPost -> W' = W).
Proof.
  intros W'. subst W'.
  destruct (SubmitRSVP_effect W env r) as [-> | (cu & g & st & Hm & _ & _ & ->)].
  - repeat split; trivial.
  - unfold with_db. cbn [db SessionStore].
    destruct (CreateOrUpdateRSVP_untouched (db W) (now env)
                (mkRSVP 0 (User_ID cu) g st 0 0 "")) as (Hu & Hg & _).
    repeat split; trivial. congruence.
Qed.

Lemma PostChatMessage_frame (W : World) (env : Env) (r : Request) :
  let W' := fst (PostChatMessage W env r) in
  SessionStore W' = SessionStore W /\ users (db W') = users (db W) /\
  games (db W') = games (db W) /\
  (Method r <> MethodPost -> W' = W).
Proof.
  intros W'. subst W'.
  destruct (PostChatMessage_effect W env r) as [-> | (cu & g & st & Hm & _ & _ & ->)].
  - repeat split; trivial.
  - unfold with_db. cbn [db SessionStore].
    destruct (CreateChatMessage_tables (db W) (now env)
                (mkChatMessage 0 g (User_ID cu) (User_Email cu) st 0)) as (Hu & Hg & _).
    repeat split; trivial. congruence.
Qed.

Lemma route_writes `{stdlib} (W : World) (env : Env) (r : Request) :
  let parts := Split (TrimPrefix (URL_Path r) "/games/") "/" in
  let W' := fst (routeDynamicGamePaths W env r) in
  SessionStore W' = SessionStore W /\
  users (db W') = users (db W) /\
  games (db W') = games (db W) /\
  (Method r <> MethodPost -> W' = W) /\
  (IsAuthenticated W r = false -> W' = W) /\
  (W' <> W ->
   exists a gameID,
     ParseInt a = Some gameID /\ (parts = [a; "rsvp"] \/ parts = [a; "chat"])).
Proof.
  intros parts W'. subst W'. unfold routeDynamicGamePaths. fold parts.
  assert (Hsame : forall w : pages.Response,
            SessionStore (fst (W, w)) = SessionStore W /\
            users (db (fst (W, w))) = users (db W) /\
            games (db (fst (W, w))) = games (db W) /\
            (Method r <> MethodPost -> fst (W, w) = W) /\
            (IsAuthenticated W r = false -> fst (W, w) = W) /\
            (fst (W, w) <> W ->
             exists a gameID,
               ParseInt a = Some gameID /\ (parts = [a; "rsvp"] \/ parts = [a; "chat"])))
    by (intros w; cbn [fst]; repeat split; trivial; intros Hne; now destruct Hne).
  destruct parts as [|a [|action [|x rest]]]; cbn [length nth Nat.eqb orb].
  - apply Hsame.
  - destruct (String.eqb a ""); [apply Hsame |].
    destruct (ParseInt a) as [gameID |]; [| apply Hsame].
    destruct (String.eqb (Method r) MethodGet); [| apply Hsame].
    unfold GameDetailPage. repeat break_match; apply Hsame.
  - destruct (String.eqb a ""); [apply Hsame |].
    destruct (ParseInt a) as [gameID |] eqn:Hid; [| apply Hsame].
    destruct (String.eqb action "rsvp") eqn:Eaction.
    { apply String.eqb_eq in Eaction. subst action.
      destruct (String.eqb (Method r) MethodPost) eqn:Hm; [| apply Hsame].
      destruct (AuthMiddleware_cases SubmitRSVP W env r) as [[Hauth ->] | [Hauth ->]];
        [apply Hsame |].
      destruct (SubmitRSVP_frame W env r) as (H1 & H2 & H3 & H4).
      destruct (SubmitRSVP W env r) as [W' w']. cbn [fst] in *.
      repeat split; trivial; [congruence | eauto]. }
    destruct (String.eqb action "chat") eqn:Eaction'; [| apply Hsame].
    apply String.eqb_eq in Eaction'. subst action.
    destruct (String.eqb (Method r) MethodPost) eqn:Hm; [| apply Hsame].
    destruct (AuthMiddleware_cases PostChatMessage W env r) as [[Hauth ->] | [Hauth ->]];
      [apply Hsame |].
    destruct (PostChatMessage_frame W env r) as (H1 & H2 & H3 & H4).
    destruct (PostChatMessage W env r) as [W' w']. cbn [fst] in *.
    repeat split; trivial; [congruence | eauto].
  - destruct (String.eqb a ""); [apply Hsame |].
    destruct (ParseInt a) as [gameID |]; apply Hsame.
Qed.

(** X19.  What a request below /games/ can change.  [routeDynamicGamePaths]
    never touches the session registry, [users] or [games]; it changes
    nothing at all for a request that is not a POST and for a request
    without a valid session; and where it does change something, the path
    after /games/ is <id>/rsvp or <id>/chat with a numeric id. *)
Theorem routeDynamicGamePaths_writes `{stdlib} (W : World) (env : Env) (r : Request) :
  let parts := Split (TrimPrefix (URL_Path r) "/games/") "/" in
  let W' := fst (routeDynamicGamePaths W env r) in
  SessionStore W' = SessionStore W /\
  users (db W') = users (db W) /\
  games (db W') = games (db W) /\
  (Method r <> MethodPost -> W' = W) /\
  (IsAuthenticated W r = false -> W' = W) /\
  (W' <> W ->
   exists a gameID,
     ParseInt a = Some gameID /\ (parts = [a; "rsvp"] \/ parts = [a; "chat"])).
Proof. apply route_writes. Qed.

Lemma GetCurrentUser_IsAuthenticated (W : World) (r : Request) (u : User) :
  GetCurrentUser W r = Ok u -> IsAuthenticated W r = true.
Proof.
  unfold GetCurrentUser, IsAuthenticated.
  destruct (Request_Cookie r sessionCookieName); [| discriminate].
  now destruct (SessionStore W !! _).
Qed.

Lemma GetCurrentUser_ext (W W' : World) (r r' : Request) :
  Cookies r' = Cookies r ->
  SessionStore W' = SessionStore W ->
  users (db W') = users (db W) ->
  GetCurrentUser W' r' = GetCurrentUser W r.
Proof.
  intros Hc Hs Hu. unfold GetCurrentUser, Request_Cookie, GetUserByID.
  now rewrite Hc, Hs, Hu.
Qed.

Lemma Split_action (a action : string) :
  no_slash a -> no_slash action -> Split (a +:+ String "/" action) "/" = [a; action].
Proof.
  intros Ha Haction. unfold Split. rewrite Split_from_no_slash by assumption.
  rewrite Split_from_slash. cbn [Ascii.eqb Bool.eqb]. rewrite append_nil_l.
  f_equal. now apply Split_no_slash.
Qed.

(** A POST to /games/<id>/<action> by a session reaches the handler. *)
Lemma route_action `{stdlib} (W : World) (env : Env) (r : Request) (a action : string)
  (gameID : Z) :
  Method r = MethodPost ->
  URL_Path r = "/games/" +:+ a +:+ String "/" action ->
  ParseInt a = Some gameID ->
  IsAuthenticated W r = true ->
  no_slash action ->
  gameIDStr_of (URL_Path r) (String "/" action) = a /\
  routeDynamicGamePaths W env r
  = if String.eqb action "rsvp" then
      let (W', w) := SubmitRSVP W env r in (W', of_http w)
    else if String.eqb action "chat" then
      let (W', w) := PostChatMessage W env r in (W', of_http w)
    else (W, RenderErrorPage W env r StatusNotFound "Not Found" "Invalid action for game.").
Proof.
  intros Hm Hpath Hid Hauth Haction.
  pose proof (ParseInt_no_slash _ _ Hid) as Ha.
  assert (Hparts : Split (TrimPrefix (URL_Path r) "/games/") "/" = [a; action])
    by (now rewrite Hpath, TrimPrefix_append, Split_action).
  split; [now apply gameIDStr_of_routed |].
  unfold routeDynamicGamePaths. rewrite Hparts. cbn [length nth Nat.eqb orb].
  rewrite (ParseInt_nonempty _ _ Hid), Hid, Hm.
  change (String.eqb MethodPost MethodPost) with true. cbv iota.
  unfold handlers.AuthMiddleware. rewrite Hauth. reflexivity.
Qed.

Lemma SubmitRSVP_db (W : World) (env : Env) (r : Request) (form : list (string * string))
  (currentUser : User) (gameID : Z) :
  Method r = MethodPost ->
  GetCurrentUser W r = Ok currentUser ->
  ParseInt (gameIDStr_of (URL_Path r) "/rsvp") = Some gameID ->
  Form r = Some form ->
  valid_status (FormValue form "status") = true ->
  fst (SubmitRSVP W env r)
  = with_db W (fst (CreateOrUpdateRSVP (db W) (now env)
                      (mkRSVP 0 (User_ID currentUser) gameID (FormValue form "status")
                         0 0 ""))).
Proof.
  intros Hm Hu Hg Hf Hvalid. unfold SubmitRSVP.
  rewrite Hm, Hu, Hg, (ParseInt_nonempty _ _ Hg), Hf, Hvalid. cbn.
  destruct (CreateOrUpdateRSVP _ _ _) as [d' res]. cbn.
  repeat break_match; reflexivity.
Qed.

Lemma QueryRow_Ok_In {A : Type} (l : list A) (x : A) : QueryRow l = Ok x -> In x l.
Proof. destruct l; [discriminate | intros [= <-]; now left]. Qed.

Lemma GetRSVPByUserForGame_listed (d : DB) (userID gameID : Z) (mine : RSVP)
  (all : list RSVP) :
  GetRSVPByUserForGame d userID gameID = Ok mine ->
  GetRSVPsForGame d gameID = Ok all ->
  In mine all.
Proof.
  unfold GetRSVPByUserForGame, GetRSVPsForGame. intros Hmine [= <-].
  apply QueryRow_Ok_In, in_map_iff in Hmine as (ru & <- & Hin).
  apply filter_In in Hin as [Hin Hpair]. apply same_pair_spec in Hpair.
  apply in_map.
  apply (Permutation_in _ (Permutation_sym (ORDER_BY_Permutation _ _))).
  apply filter_In. split; [exact Hin |]. apply Z.eqb_eq. congruence.
Qed.


Lemma PostChatMessage_db (W : World) (env : Env) (r : Request)
  (form : list (string * string)) (currentUser : User) (gameID : Z) :
  Method r = MethodPost ->
  GetCurrentUser W r = Ok currentUser ->
  ParseInt (gameIDStr_of (URL_Path r) "/chat") = Some gameID ->
  Form r = Some form ->
  TrimSpace (FormValue form "message_content") <> "" ->
  fst (PostChatMessage W env r)
  = with_db W (fst (CreateChatMessage (db W) (now env)
                      (mkChatMessage 0 gameID (User_ID currentUser)
                         (User_Email currentUser) (FormValue form "message_content") 0))).
Proof.
  intros Hm Hu Hg Hf Hcontent. unfold PostChatMessage.
  rewrite Hm, Hu, Hg, (ParseInt_nonempty _ _ Hg), Hf, (String_eqb_false _ _ Hcontent).
  cbn -[CreateChatMessage GetChatMessagesForGame].
  destruct (CreateChatMessage _ _ _) as [d' res]. cbn [fst].
  repeat break_match; reflexivity.
Qed.


Lemma consistent_SubmitRSVP (W : World) (env : Env) (r : Request) :
  consistent W -> consistent (fst (SubmitRSVP W env r)).
Proof.
  intros HW.
  destruct (SubmitRSVP_effect W env r) as [-> | (cu & g & st & _ & Hu & _ & ->)];
    [exact HW |].
  destruct (GetCurrentUser_stored _ _ _ Hu) as [user Huser].
  eapply consistent_CreateOrUpdateRSVP; [exact Huser | exact HW].
Qed.

Lemma consistent_PostChatMessage (W : World) (env : Env) (r : Request) :
  consistent W -> consistent (fst (PostChatMessage W env r)).
Proof.
  intros HW.
  destruct (PostChatMessage_effect W env r) as [-> | (cu & g & mc & _ & Hu & _ & ->)];
    [exact HW |].
  destruct (GetCurrentUser_stored _ _ _ Hu) as [user Huser].
  eapply consistent_CreateChatMessage; [exact Huser | exact HW].
Qed.

Lemma hosted_same_users_games (W W' : World) :
  consistent W' ->
  users (db W') = users (db W) ->
  games (db W') = games (db W) ->
  hosted W -> hosted W'.
Proof.
  intros HW' Hu Hg [_ Hh]. split; [exact HW' |].
  unfold FOREIGN_KEY_games_gm. now rewrite Hu, Hg.
Qed.

Lemma hosted_CreateGame `{stdlib} (W : World) (env : Env) (r : Request) :
  hosted W -> hosted (fst (pages.CreateGame W env r)).
Proof.
  intros HW.
  destruct (CreateGame_cases W env r)
    as [[-> _] | (form & cu & t & Hm & Hf & Ht & Hl & Hp & Hd & Hu)]; [exact HW |].
  rewrite (CreateGame_accepts W env r form cu t Hm Hf Ht Hl Hp Hd Hu). cbn [fst].
  destruct HW as [(Hc & Hr & Hcm & Hs) Hh].
  split; [split; [| split; [| split]] |]; unfold with_db; cbn [db SessionStore].
  - now apply constraints_CreateGame.
  - exact Hr.
  - exact Hcm.
  - exact Hs.
  - unfold FOREIGN_KEY_games_gm. cbn [fst database.CreateGame users games].
    apply Forall_app. split; [exact Hh |]. constructor; [| constructor]. cbn.
    destruct (GetCurrentUser_In _ _ _ Hu) as (row & Hin & Hid & _).
    exists row. rewrite <- Hid. apply filter_one_of_NoDup; [apply Hc | exact Hin].
Qed.

Lemma hosted_route `{stdlib} (W : World) (env : Env) (r : Request) :
  hosted W -> hosted (fst (routeDynamicGamePaths W env r)).
Proof.
  intros HW. unfold routeDynamicGamePaths.
  set (parts := Split _ _).
  assert (Hsame : forall w : pages.Response, hosted (fst (W, w))) by (intros w; exact HW).
  destruct parts as [|a [|action [|x rest]]]; cbn [length nth Nat.eqb orb].
  - apply Hsame.
  - destruct (String.eqb a ""); [apply Hsame |].
    destruct (ParseInt a) as [gameID |]; [| apply Hsame].
    destruct (String.eqb (Method r) MethodGet); [| apply Hsame].
    unfold GameDetailPage. repeat break_match; apply Hsame.
  - destruct (String.eqb a ""); [apply Hsame |].
    destruct (ParseInt a) as [gameID |]; [| apply Hsame].
    destruct (String.eqb action "rsvp").
    { destruct (String.eqb (Method r) MethodPost); [| apply Hsame].
      destruct (AuthMiddleware_cases SubmitRSVP W env r) as [[_ ->] | [_ ->]];
        [apply Hsame |].
      destruct (SubmitRSVP_frame W env r) as (H1 & H2 & H3 & _).
      pose proof (consistent_SubmitRSVP W env r (proj1 HW)) as Hc.
      destruct (SubmitRSVP W env r) as [W' w']. cbn [fst] in *.
      now apply (hosted_same_users_games W). }
    destruct (String.eqb action "chat"); [| apply Hsame].
    destruct (String.eqb (Method r) MethodPost); [| apply Hsame].
    destruct (AuthMiddleware_cases PostChatMessage W env r) as [[_ ->] | [_ ->]];
      [apply Hsame |].
    destruct (PostChatMessage_frame W env r) as (H1 & H2 & H3 & _).
    pose proof (consistent_PostChatMessage W env r (proj1 HW)) as Hc.
    destruct (PostChatMessage W env r) as [W' w']. cbn [fst] in *.
    now apply (hosted_same_users_games W).
  - destruct (String.eqb a ""); [apply Hsame |].
    destruct (ParseInt a) as [gameID |]; apply Hsame.
Qed.

Lemma hosted_Register `{bcrypt} (W : World) (env : Env) (r : Request) :
  hosted W -> hosted (fst (Register W env r)).
Proof.
  intros HW. destruct (Register_effect W env r) as [-> | (e & p & ->)]; [exact HW |].
  destruct HW as [HW Hh]. split; [now apply consistent_CreateUser |].
  destruct (CreateUser_tables (db W) (now env) (salt env) e p) as (Hg & _ & _ & Husers).
  unfold FOREIGN_KEY_games_gm, with_db. cbn [db]. rewrite Hg.
  destruct Husers as [-> | (row & -> & Hfresh)]; [exact Hh |].
  now apply Forall_one_user_grow.
Qed.

(** X23.  The whole site keeps the store consistent.  The empty world is
    hosted, and [Register], [Login], [Logout], the pages, the handler that
    creates games and the router keep a hosted world hosted: what X9
    states, and also that every game is hosted by exactly one stored user,
    the foreign key of [games] to [users], which the engine does not
    check. *)
Theorem site_keeps_foreign_keys_to_users `{bcrypt} `{stdlib}
  (W : World) (env : Env) (r : Request) :
  hosted (mkWorld sqlite.empty ∅) /\
  (hosted W ->
   hosted (fst (Register W env r)) /\
   hosted (fst (Login W env r)) /\
   hosted (fst (Logout W r)) /\
   hosted (fst (GamesListPage W env r)) /\
   hosted (fst (CreateGamePage W env r)) /\
   hosted (fst (pages.CreateGame W env r)) /\
   hosted (fst (routeDynamicGamePaths W env r))).
Proof.
  split.
  - split; [| constructor]. split; [exact constraints_empty |]. cbn.
    split; [constructor | split; [constructor |]].
    intros token userID Ht. cbn in Ht. now rewrite lookup_empty in Ht.
  - intros HW. split; [now apply hosted_Register |].
    split; [| split; [| split; [| split; [| split]]]].
    + destruct (Login_effect W env r) as [-> | (e & user & t & Hu & _ & ->)]; [exact HW |].
      destruct HW as [(Hc & Hr & Hm & Hs) Hh]. repeat split; trivial; try apply Hc.
      intros token userID Ht. cbn in *.
      destruct (decide (t = token)) as [<- | Hne].
      * rewrite lookup_insert_eq in Ht. injection Ht as <-.
        apply GetUserByID_Ok_iff.
        unfold GetUserByEmail in Hu.
        destruct (List.filter _ (users (db W))) as [|u us] eqn:E; [discriminate |].
        cbn in Hu. injection Hu as <-. exists u. split; [| reflexivity].
        assert (In u (List.filter (fun u => String.eqb (u_email u) e) (users (db W))))
          as Hin by (rewrite E; now left).
        now apply filter_In in Hin.
      * rewrite lookup_insert_ne in Ht by exact Hne. eauto.
    + destruct (Logout_effect W r) as [-> | (t & _ & ->)]; [exact HW |].
      destruct HW as [(Hc & Hr & Hm & Hs) Hh]. repeat split; trivial; try apply Hc.
      intros token userID Ht. cbn in *.
      apply lookup_delete_Some in Ht as [_ Ht]. eauto.
    + exact HW.
    + exact HW.
    + now apply hosted_CreateGame.
    + now apply hosted_route.
Qed.

Local Abbreviation no_newline s :=
  (Forall (fun c => c <> ascii_of_N 10) (list_ascii_of_string s)).

Lemma ReplaceAll_from_newline (c : ascii) (s : string) :
  ReplaceAll_from newline "<br>" 0 (String c s)
  = if Ascii.eqb c (ascii_of_N 10) then "<br>" +:+ ReplaceAll_from newline "<br>" 0 s
    else String c (ReplaceAll_from newline "<br>" 0 s).
Proof.
  cbn [ReplaceAll_from newline String.prefix String.length Nat.sub].
  destruct (ascii_dec (ascii_of_N 10) c) as [<- | Hne].
  - now rewrite prefix_nil.
  - apply not_eq_sym, Ascii.eqb_neq in Hne. now rewrite Hne.
Qed.

(** X24.  [Nl2br] changes newlines and nothing else: its result has no
    newline, it works piece by piece, and it returns exactly the strings
    without a newline unchanged, markup included. *)
Theorem Nl2br_only_changes_newlines (s t : string) :
  no_newline (Nl2br s) /\
  Nl2br (s +:+ t) = Nl2br s +:+ Nl2br t /\
  (no_newline s -> Nl2br s = s) /\
  (Nl2br s = s -> no_newline s).
Proof.
  unfold Nl2br, ReplaceAll. split; [| split; [| split]].
  - induction s as [|c s IH]; [constructor |].
    rewrite ReplaceAll_from_newline. destruct (Ascii.eqb c _) eqn:E.
    + cbn. repeat (constructor; [discriminate |]). exact IH.
    + cbn. constructor; [now apply Ascii.eqb_neq | exact IH].
  - induction s as [|c s IH]; [reflexivity |].
    rewrite append_cons, !ReplaceAll_from_newline, IH.
    destruct (Ascii.eqb c _); [now rewrite append_assoc | reflexivity].
  - induction s as [|c s IH]; [reflexivity |]. cbn [list_ascii_of_string].
    intros Hs. apply Forall_cons in Hs as [Hc Hs].
    rewrite ReplaceAll_from_newline. apply Ascii.eqb_neq in Hc. rewrite Hc.
    now rewrite IH.
  - induction s as [|c s IH]; [constructor |].
    rewrite ReplaceAll_from_newline. destruct (Ascii.eqb c _) eqn:E.
    + apply Ascii.eqb_eq in E. subst c. discriminate.
    + intros [= Hs]. cbn. constructor; [now apply Ascii.eqb_neq | now apply IH].
Qed.

Lemma partial_fst (res : World * http.Response) : fst (main.partial res) = fst res.
Proof. now destruct res. Qed.

(** X25.  Only a POST changes the world.  The handlers [main] registers
    for /, /games, /register, /login, /logout, /games/new and /games/
    leave the store and the session registry as they are for every request
    whose method is not POST; /games/new and the routes below /games/ do so
    too for a POST without a valid session; and only /login and /logout
    ever change the session registry. *)
Theorem only_POST_changes_the_world `{bcrypt} `{stdlib}
  (W : World) (env : Env) (r : Request) :
  fst (main.root W env r) = W /\
  fst (GamesListPage W env r) = W /\
  (Method r <> MethodPost ->
   fst (main.register W env r) = W /\
   fst (main.login W env r) = W /\
   fst (main.logout W env r) = W /\
   fst (main.games_new W env r) = W /\
   fst (routeDynamicGamePaths W env r) = W) /\
  (IsAuthenticated W r = false ->
   fst (main.games_new W env r) = W /\
   fst (routeDynamicGamePaths W env r) = W) /\
  SessionStore (fst (main.register W env r)) = SessionStore W /\
  SessionStore (fst (main.games_new W env r)) = SessionStore W /\
  SessionStore (fst (routeDynamicGamePaths W env r)) = SessionStore W.
Proof.
  destruct (route_writes W env r) as (Hs & _ & _ & Hpost & Hauth & _).
  split; [unfold main.root; now destruct (String.eqb (URL_Path r) "/") |].
  split; [reflexivity |]. split; [| split; [| split; [| split]]].
  - intros Hm. pose proof (String_eqb_false _ _ Hm) as Hm'.
    unfold main.register, main.login, main.logout, main.games_new. rewrite Hm'.
    split; [now destruct (String.eqb (Method r) MethodGet) |].
    split; [now destruct (String.eqb (Method r) MethodGet) |].
    split; [reflexivity |]. split; [| now apply Hpost].
    destruct (String.eqb (Method r) MethodGet); [| reflexivity].
    unfold pages.AuthMiddleware. now destruct (negb _).
  - intros Ha. split; [| now apply Hauth].
    unfold main.games_new, pages.AuthMiddleware. rewrite Ha. cbn [negb].
    now repeat destruct (String.eqb _ _).
  - unfold main.register.
    destruct (String.eqb (Method r) MethodGet); [reflexivity |].
    destruct (String.eqb (Method r) MethodPost); [| reflexivity].
    rewrite partial_fst.
    destruct (Register_effect W env r) as [-> | (e & p & ->)]; reflexivity.
  - unfold main.games_new, pages.AuthMiddleware.
    destruct (String.eqb (Method r) MethodGet); [now destruct (negb _) |].
    destruct (String.eqb (Method r) MethodPost); [| reflexivity].
    destruct (negb _); [reflexivity |].
    destruct (CreateGame_cases W env r)
      as [[-> _] | (form & cu & t & Hm & Hf & Ht & Hl & Hp & Hd & Hu)]; [reflexivity |].
    now rewrite (CreateGame_accepts W env r form cu t Hm Hf Ht Hl Hp Hd Hu).
  - exact Hs.
Qed.

(** ** The theorems on the sample data *)

Lemma HasSuffix_append (y suffix : string) : HasSuffix (y +:+ suffix) suffix = true.
Proof.
  unfold HasSuffix. rewrite length_append.
  replace (String.length y + String.length suffix - String.length suffix)%nat
    with (String.length y) by lia.
  rewrite substring_append_r, substring_full, String.eqb_refl, andb_true_r.
  apply Nat.leb_le. lia.
Qed.

(** The stand-in accepts the password a hash was made from. *)
Lemma toy_bcrypt_sound (salt password hash : string) :
  @GenerateFromPassword toy_bcrypt salt password = Ok hash ->
  @CompareHashAndPassword toy_bcrypt hash password = true.
Proof.
  unfold GenerateFromPassword, CompareHashAndPassword, toy_bcrypt.
  destruct (72 <? String.length password)%nat; [discriminate |].
  intros [= <-]. apply HasSuffix_append.
Qed.

Lemma W_logged_in_hosted : hosted W_logged_in.
Proof.
  split; [split; [| split; [| split]] |].
  - repeat split; repeat constructor; intros Hin; inversion Hin.
  - constructor.
  - constructor.
  - intros token userID Ht. unfold W_logged_in in Ht. cbn [SessionStore] in Ht.
    apply lookup_singleton_Some in Ht as [_ <-].
    eexists. reflexivity.
  - repeat constructor. eexists. reflexivity.
Qed.

(** [GetRSVPByUserForGame_after_upsert] for the sample user and game. *)
Lemma GetRSVPByUserForGame_after_upsert_witness :
  let d := fst (CreateOrUpdateRSVP (db W_registered) 30 (mkRSVP 0 1 1 "maybe" 0 0 "")) in
  exists x,
    GetRSVPByUserForGame d 1 1 = Ok x /\
    RSVP_Status x = "maybe" /\ RSVP_UserEmail x = "a@x.com" /\ RSVP_CreatedAt x = 30.
Proof.
  intros d.
  destruct (GetRSVPByUserForGame_after_upsert (db W_registered) 30
              (mkRSVP 0 1 1 "maybe" 0 0 "") (mkUser 1 "a@x.com" "s1$pw1" 10))
    as (x & Hx & _ & _ & Hstatus & _ & Hemail & Hnew & _).
  - constructor.
  - reflexivity.
  - exists x. split; [exact Hx | split; [exact Hstatus | split; [exact Hemail |]]].
    now apply Hnew.
Defined.

(** [CreateUser_round_trip] for the first user of an empty store. *)
Lemma CreateUser_round_trip_witness :
  let d := fst (@CreateUser toy_bcrypt sqlite.empty 10 "s1" "a@x.com" "pw1") in
  exists user,
    snd (@CreateUser toy_bcrypt sqlite.empty 10 "s1" "a@x.com" "pw1") = Ok user /\
    GetUserByEmail d "a@x.com" = Ok user /\
    GetUserByID d (User_ID user) = Ok user /\
    User_PasswordHash user = "s1$pw1".
Proof.
  intros d.
  destruct (@CreateUser_round_trip toy_bcrypt sqlite.empty 10 "s1" "a@x.com" "pw1" "s1$pw1"
              eq_refl eq_refl)
    as (user & Hcreated & _ & Hhash & _ & _ & _ & Hemail & Hid & _).
  exists user. auto.
Defined.

(** [CreateChatMessage_listed_last] for a third message in the sample chat. *)
Lemma CreateChatMessage_listed_last_witness :
  let message := mkChatMessage 0 1 1 "" "See you all there" 0 in
  exists id,
    GetChatMessagesForGame (fst (CreateChatMessage db_chat 6 message)) 1
    = Ok [mkChatMessage 1 1 1 "chatuser1@example.com" "Hello world from user1!" 5;
          mkChatMessage 2 1 2 "chatuser2@example.com" "Hello back from user2!" 5;
          mkChatMessage id 1 1 "chatuser1@example.com" "See you all there" 6].
Proof.
  intros message.
  destruct (CreateChatMessage_listed_last db_chat 6 message
              (mk_users_row 1 "chatuser1@example.com" "s1$pass1" 4)
              [mkChatMessage 1 1 1 "chatuser1@example.com" "Hello world from user1!" 5;
               mkChatMessage 2 1 2 "chatuser2@example.com" "Hello back from user2!" 5])
    as (id & _ & _ & Hlist & _).
  - reflexivity.
  - repeat constructor; cbn; lia.
  - reflexivity.
  - exists id. exact Hlist.
Defined.

(** [handlers_keep_consistent] for an RSVP and a logout in the sample world. *)
Lemma handlers_keep_consistent_witness :
  consistent (fst (SubmitRSVP W_logged_in (env_at 30)
                     (post "/games/1/rsvp" session [("status", "maybe")]))) /\
  consistent (fst (Logout W_logged_in (post "/logout" session []))).
Proof.
  destruct (@handlers_keep_consistent toy_bcrypt W_logged_in (env_at 30)
              (post "/games/1/rsvp" session [("status", "maybe")]))
    as [_ Hkeep].
  destruct (Hkeep (proj1 W_logged_in_hosted)) as (_ & _ & _ & Hrsvp & _).
  split; [exact Hrsvp |].
  destruct (@handlers_keep_consistent toy_bcrypt W_logged_in (env_at 30)
              (post "/logout" session []))
    as [_ Hkeep'].
  now destruct (Hkeep' (proj1 W_logged_in_hosted)) as (_ & _ & Hlogout & _).
Defined.

(** [IsAuthenticated_iff_GetCurrentUser] for the sample session. *)
Lemma IsAuthenticated_iff_GetCurrentUser_witness :
  let r := post "/games/1/rsvp" session [] in
  IsAuthenticated W_logged_in r = true /\
  GetCurrentUser W_logged_in r = Ok (mkUser 1 "a@x.com" "s1$pw1" 10) /\
  handlers.AuthMiddleware SubmitRSVP W_logged_in (env_at 30) r
  = SubmitRSVP W_logged_in (env_at 30) r.
Proof.
  intros r.
  destruct (IsAuthenticated_iff_GetCurrentUser W_logged_in r
              (proj2 (proj2 (proj2 (proj1 W_logged_in_hosted)))))
    as (Hiff & Hgate & _).
  split; [apply Hiff; eexists; reflexivity |].
  split; [reflexivity |]. now apply Hgate with (user := mkUser 1 "a@x.com" "s1$pw1" 10).
Defined.

(** [Login_then_GetCurrentUser] for the sample user. *)
Lemma Login_then_GetCurrentUser_witness :
  let login := post "/login" [] [("email", "a@x.com"); ("password", "pw1")] in
  let later := post "/games/1/rsvp" session [("status", "maybe")] in
  exists user,
    User_Email user = "a@x.com" /\
    GetCurrentUser (fst (@Login toy_bcrypt W_registered (env_at 30) login)) later = Ok user.
Proof.
  intros login later.
  destruct (@Login_then_GetCurrentUser toy_bcrypt W_registered (env_at 30) login
              (mkCookie sessionCookieName "tok-1" "/" (30 + 24 * 3600) true false "Lax"))
    as (form & user & Hform & Hemail & Hlater).
  - repeat constructor. intros Hin. inversion Hin.
  - now left.
  - exists user. injection Hform as <-. split; [exact Hemail |]. now apply Hlater.
Defined.

(** [sessions_are_independent]: whatever another visitor's requests do, the
    sample session stays. *)
Lemma sessions_are_independent_witness :
  let other := post "/games/1/rsvp" session [("status", "maybe")] in
  let login := post "/login" [] [("email", "a@x.com"); ("password", "pw1")] in
  let logout := post "/logout" [(sessionCookieName, "tok-2")] [] in
  IsAuthenticated
    (fst (@Login toy_bcrypt W_logged_in (mkEnv 30 "s1" (Some "tok-2")) login)) other = true /\
  IsAuthenticated (fst (Logout W_logged_in logout)) other = true.
Proof.
  intros other login logout.
  destruct (@sessions_are_independent toy_bcrypt W_logged_in
              (mkEnv 30 "s1" (Some "tok-2")) login other "tok-1" eq_refl)
    as (Hlogin & _).
  destruct (@sessions_are_independent toy_bcrypt W_logged_in
              (mkEnv 30 "s1" (Some "tok-2")) logout other "tok-1" eq_refl)
    as (_ & Hlogout & _).
  split.
  - destruct Hlogin as [-> _]; [discriminate | reflexivity].
  - destruct Hlogout as [-> _]; [discriminate | reflexivity].
Defined.

(** [Register_then_Login] on the empty store. *)
Lemma Register_then_Login_witness :
  let form1 := [("email", "a@x.com"); ("password", "pw1"); ("confirm_password", "pw1")] in
  let form2 := [("email", "a@x.com"); ("password", "pw1")] in
  let W0 := mkWorld sqlite.empty ∅ in
  let W1 := fst (@Register toy_bcrypt W0 (env_at 10) (post "/register" [] form1)) in
  exists user,
    GetUserByEmail (db W1) "a@x.com" = Ok user /\
    fst (@Login toy_bcrypt W1 (env_at 30) (post "/login" [] form2))
    = mkWorld (db W1) {[ "tok-1" := User_ID user ]}.
Proof.
  intros form1 form2 W0 W1.
  destruct (@Register_then_Login toy_bcrypt W0 (env_at 10) (env_at 30)
              (post "/register" [] form1) (post "/login" [] form2) form1 form2 "tok-1"
              toy_bcrypt_sound eq_refl eq_refl eq_refl eq_refl eq_refl eq_refl eq_refl)
    as (user & Hget & _ & Hlogin).
  exists user. split; [exact Hget |]. fold W1 in Hlogin. rewrite Hlogin. cbn [fst].
  f_equal.
Defined.

(** [SubmitRSVP_writes_only_own_RSVP]: the sample user's RSVP leaves the
    rows of user 2 alone. *)
Lemma SubmitRSVP_writes_only_own_RSVP_witness :
  let r := post "/games/1/rsvp" session [("status", "maybe")] in
  rsvps_of_pair (db (fst (SubmitRSVP W_logged_in (env_at 30) r))) 2 1
  = rsvps_of_pair (db W_logged_in) 2 1.
Proof.
  intros r.
  destruct (SubmitRSVP_writes_only_own_RSVP W_logged_in (env_at 30) r 2 1) as [Hrows _].
  - intros currentUser Hu. injection Hu as <-. discriminate.
  - exact Hrows.
Defined.






(** [site_keeps_foreign_keys_to_users] for a new game and an RSVP in the
    sample world. *)
Lemma site_keeps_foreign_keys_to_users_witness :
  let create := post "/games/new" session
                  [("title", "Session 2"); ("description", "");
                   ("game_datetime", "2025-01-02T19:30"); ("location", "table 5")] in
  let rsvp := post "/games/1/rsvp" session [("status", "maybe")] in
  hosted (fst (@pages.CreateGame toy_stdlib W_logged_in (env_at 40) create)) /\
  hosted (fst (@routeDynamicGamePaths toy_stdlib W_logged_in (env_at 30) rsvp)).
Proof.
  intros create rsvp.
  destruct (@site_keeps_foreign_keys_to_users toy_bcrypt toy_stdlib W_logged_in
              (env_at 40) create) as [_ Hkeep].
  destruct (Hkeep W_logged_in_hosted) as (_ & _ & _ & _ & _ & Hcreate & _).
  split; [exact Hcreate |].
  destruct (@site_keeps_foreign_keys_to_users toy_bcrypt toy_stdlib W_logged_in
              (env_at 30) rsvp) as [_ Hkeep'].
  now destruct (Hkeep' W_logged_in_hosted) as (_ & _ & _ & _ & _ & _ & Hroute).
Defined.

(** [database_writes_keep_constraints] for an RSVP and a game written to the
    sample store. *)
Lemma database_writes_keep_constraints_witness :
  constraints (fst (CreateOrUpdateRSVP (db W_logged_in) 30 (mkRSVP 0 1 1 "maybe" 0 0 ""))) /\
  constraints (fst (database.CreateGame (db W_logged_in) 40
                      (mkGame 0 1 "Session 2" "" 95000 "table 5" 0))).
Proof.
  destruct (@database_writes_keep_constraints toy_bcrypt (db W_logged_in)) as [_ Hkeep].
  destruct (Hkeep (proj1 (proj1 W_logged_in_hosted))) as (_ & Hgame & Hrsvp & _).
  split; [apply Hrsvp | apply Hgame].
Defined.
